(** * Incremental snapshot reconciliation of the horizon market-data pipelines

    A shallow embedding of the pipelines under [data/pipelines]:
    - [polygon_equities_dividends.py]      ([update_dividend_history])
    - [polygon_equities_splits.py]         ([update_split_history])
    - [polygon_equities_ticker_events.py]  ([update_ticker_events])
    - [polygon_equities_ipos.py]           ([update_ipo_history])
    - [polygon_equities_fundamentals.py]   ([update_fundamental_history])

    Every pipeline loads an on-disk snapshot, asks the vendor for records,
    merges old and new rows with pandas and rewrites the snapshot.  The vendor
    client, the file system and the ticker universe are inputs of the model;
    [time.sleep], [tqdm] and logging have no effect on the data and are
    dropped. *)

From Stdlib Require Import ZArith Lia List Bool Ascii String.
From stdpp Require Import gmap strings list.

Local Open Scope Z_scope.
#[local] Set Warnings "-clear-no-such-hyp".

(** ** Exceptions and results *)

(** The exceptions the modelled code can see.  The pipelines only ever catch
    [Exception], so a single type with a few tags is enough. *)
Inductive exn : Type :=
  | KeyError (k : string)          (* missing column, attribute or dict key *)
  | ValueError (what : string)     (* malformed date, NaT.strftime *)
  | TypeError (what : string)      (* an operator applied to [None] *)
  | OutOfBoundsDatetime            (* date outside the Timestamp range *)
  | VendorError (what : string).   (* network / API failure *)

Inductive result (A : Type) : Type :=
  | Ok (a : A)
  | Raise (e : exn).
Arguments Ok {A} a.
Arguments Raise {A} e.

#[global] Instance result_ret : MRet result := fun A a => Ok a.
#[global] Instance result_bind : MBind result := fun A B k m =>
  match m with
  | Ok a => k a
  | Raise e => Raise e
  end.
#[global] Instance result_fmap : FMap result := fun A B f m =>
  match m with
  | Ok a => Ok (f a)
  | Raise e => Raise e
  end.

(** [[f(a) for a in l]], stopping at the first exception. *)
Fixpoint rmap {A B} (f : A → result B) (l : list A) : result (list B) :=
  match l with
  | [] => Ok []
  | a :: l' => b ← f a; bs ← rmap f l'; Ok (b :: bs)
  end.

(** ** Calendar dates

    A pandas [Timestamp] is modelled at day granularity by its proleptic
    Gregorian ordinal (day 1 is 0001-01-01), the quantity Python's
    [datetime.toordinal] returns.  The vendor reports dates without a time of
    day. *)
Module Dates.

Definition is_leap (y : Z) : bool :=
  (y mod 4 =? 0) && (negb (y mod 100 =? 0) || (y mod 400 =? 0)).

Definition days_before_year (y : Z) : Z :=
  let p := y - 1 in p * 365 + p / 4 - p / 100 + p / 400.

Definition days_in_month (y m : Z) : Z :=
  if m =? 2 then (if is_leap y then 29 else 28)
  else if (m =? 4) || (m =? 6) || (m =? 9) || (m =? 11) then 30
  else 31.

Definition days_before_month (y m : Z) : Z :=
  let base :=
    match m with
    | 1 => 0 | 2 => 31 | 3 => 59 | 4 => 90 | 5 => 120 | 6 => 151
    | 7 => 181 | 8 => 212 | 9 => 243 | 10 => 273 | 11 => 304 | _ => 334
    end in
  base + (if (2 <? m) && is_leap y then 1 else 0).

Definition valid_ymd (y m d : Z) : bool :=
  (1 <=? y) && (y <=? 9999) && (1 <=? m) && (m <=? 12) &&
  (1 <=? d) && (d <=? days_in_month y m).

Definition ymd2ord (y m d : Z) : Z :=
  days_before_year y + days_before_month y m + d.

Definition DI400Y : Z := 146097.
Definition DI100Y : Z := 36524.
Definition DI4Y : Z := 1461.

(** Month and day of the zero-based day-of-year [n]: the tail of
    [datetime._ord2ymd] (month estimate [(n + 50) >> 5], corrected
    downwards when it overshoots). *)
Definition month_day (leapyear : bool) (n : Z) : Z * Z :=
  let month := Z.shiftr (n + 50) 5 in
  let preceding :=
    days_before_month 1 month + (if (2 <? month) && leapyear then 1 else 0) in
  if n <? preceding then
    let month := month - 1 in
    let preceding :=
      preceding -
      (days_in_month 1 month + (if (month =? 2) && leapyear then 1 else 0)) in
    (month, n - preceding + 1)
  else (month, n - preceding + 1).

(** [datetime._ord2ymd]. *)
Definition ord2ymd (n : Z) : Z * Z * Z :=
  let n := n - 1 in
  let n400 := n / DI400Y in
  let n := n mod DI400Y in
  let year := n400 * 400 + 1 in
  let n100 := n / DI100Y in
  let n := n mod DI100Y in
  let n4 := n / DI4Y in
  let n := n mod DI4Y in
  let n1 := n / 365 in
  let n := n mod 365 in
  let year := year + n100 * 100 + n4 * 4 + n1 in
  if (n1 =? 4) || (n100 =? 4) then (year - 1, 12, 31)
  else
    let leapyear := (n1 =? 3) && (negb (n4 =? 24) || (n100 =? 3)) in
    let '(month, day) := month_day leapyear n in
    (year, month, day).

(** The days a [Timestamp] can hold at midnight:
    1677-09-22 .. 2262-04-11. *)
Definition ts_min : Z := Eval vm_compute in ymd2ord 1677 9 22.
Definition ts_max : Z := Eval vm_compute in ymd2ord 2262 4 11.

Definition in_bounds (d : Z) : bool := (ts_min <=? d) && (d <=? ts_max).

(** *** Decimal digits *)

Definition digit (n : Z) : ascii :=
  Ascii.ascii_of_nat (Z.to_nat (48 + n mod 10)).

Definition digit_val (c : ascii) : option Z :=
  let n := Z.of_nat (Ascii.nat_of_ascii c) in
  if (48 <=? n) && (n <=? 57) then Some (n - 48) else None.

Definition pad2 (n : Z) : string :=
  String (digit (n / 10)) (String (digit n) EmptyString).

Definition pad4 (n : Z) : string :=
  String (digit (n / 1000)) (String (digit (n / 100)) (pad2 n)).

(** [strftime("%Y-%m-%d")]. *)
Definition strftime (d : Z) : string :=
  let '(y, m, dd) := ord2ymd d in
  pad4 y +:+ "-" +:+ pad2 m +:+ "-" +:+ pad2 dd.

Fixpoint number (acc : Z) (cs : list ascii) : option Z :=
  match cs with
  | [] => Some acc
  | c :: cs' =>
      match digit_val c with
      | Some v => number (acc * 10 + v) cs'
      | None => None
      end
  end.

(** The vendor's date format, [YYYY-MM-DD].  pandas reads other texts as
    well; the model covers this format only, and the properties below say
    nothing about a run that meets another one. *)
Definition parse_ymd (s : string) : option (Z * Z * Z) :=
  match list_ascii_of_string s with
  | [y1; y2; y3; y4; sep1; m1; m2; sep2; d1; d2] =>
      if bool_decide (sep1 = "-"%char) && bool_decide (sep2 = "-"%char) then
        match number 0 [y1; y2; y3; y4], number 0 [m1; m2],
              number 0 [d1; d2] with
        | Some y, Some m, Some d => Some (y, m, d)
        | _, _, _ => None
        end
      else None
  | _ => None
  end.

(** [pd.to_datetime] of a string: a calendar date inside the Timestamp
    range, or an exception. *)
Definition parse_date (s : string) : result Z :=
  match parse_ymd s with
  | Some (y, m, d) =>
      if valid_ymd y m d then
        let n := ymd2ord y m d in
        if in_bounds n then Ok n else Raise OutOfBoundsDatetime
      else Raise (ValueError s)
  | None => Raise (ValueError s)
  end.

(** [ts - timedelta(days=k)]. *)
Definition sub_days (d k : Z) : result Z :=
  if in_bounds (d - k) then Ok (d - k) else Raise OutOfBoundsDatetime.

(** Checks [f] on the [p] integers from [lo] on, halving the range. *)
Fixpoint check_range (f : Z → bool) (lo : Z) (p : positive) : bool :=
  match p with
  | xH => f lo
  | xO q => check_range f lo q && check_range f (lo + Zpos q) q
  | xI q =>
      check_range f lo q && check_range f (lo + Zpos q) q
      && f (lo + Zpos q + Zpos q)
  end.

(** What [month_day] owes its caller for the zero-based day-of-year [r]:
    a month, a day of that month, and the right number of days before it. *)
Definition month_day_ok (leap : bool) (r : Z) : bool :=
  let '(m, d) := month_day leap r in
  (1 <=? m) && (m <=? 12) && (1 <=? d) &&
  (d <=? days_in_month 1 m + (if (m =? 2) && leap then 1 else 0)) &&
  (days_before_month 1 m + (if (2 <? m) && leap then 1 else 0) + d =? r + 1).

End Dates.


(** ** Values, rows and frames *)

(** A cell of a frame.  [VNull] stands for [None], [NaN] and [NaT] alike:
    pandas treats them as one missing value when it compares rows.  Numbers
    only ever enter the pipelines through equality of key columns, so a
    number is identified by an integer code of its exact value. *)
Inductive value : Type :=
  | VNull
  | VStr (s : string)
  | VNum (n : Z)
  | VDate (d : Z).

#[global] Instance value_eq_dec : EqDecision value.
Proof. solve_decision. Defined.

(** [l.drop_duplicates()] / [df.drop_duplicates(subset=...)] with the default
    [keep='first']: an element is dropped when an earlier one has its key. *)
Fixpoint keep_first {A K : Type} `{EqDecision K}
    (key : A → K) (seen : list K) (l : list A) : list A :=
  match l with
  | [] => []
  | x :: l' =>
      if decide (key x ∈ seen) then keep_first key seen l'
      else x :: keep_first key (key x :: seen) l'
  end.

Module Pandas.

(** A record as the vendor client hands it over ([obj.__dict__], a JSON
    object) and, equally, a row of a frame: a column missing from the map
    reads as [VNull]. *)
Definition cell (r : gmap string value) (c : string) : value :=
  default VNull (r !! c).

(** A frame has its own column index: [read_parquet] can return columns
    that hold no value at all, and [df[c]] raises on a column that is not
    in the index.  The order of columns plays no role in the pipelines. *)
Record DataFrame : Type := {
  columns : gset string;
  rows : list (gmap string value)
}.

(** [pd.DataFrame(records)] *)
Definition from_records (records : list (gmap string value)) : DataFrame :=
  {| columns := ⋃ (dom <$> records); rows := records |}.

(** [df.empty]: no rows or no columns. *)
Definition empty (df : DataFrame) : bool :=
  bool_decide (columns df = ∅) || bool_decide (rows df = []).

(** [df[c]] *)
Definition getitem (df : DataFrame) (c : string) : result (list value) :=
  if decide (c ∈ columns df) then Ok ((λ r, cell r c) <$> rows df)
  else Raise (KeyError c).

(** [df[c] = series] for a series aligned with the rows of [df]. *)
Definition setitem (df : DataFrame) (c : string) (series : list value)
    : DataFrame :=
  {| columns := columns df ∪ {[c]};
     rows := zip_with (λ r v, <[c := v]> r) (rows df) series |}.

(** [pd.to_datetime] of one cell.  Timestamps and missing values pass
    through ([None] in a column becomes [NaT] and the scalar [None] stays
    [None]: both are [VNull]), strings are parsed; numbers never occur in
    the date columns of the vendor and are outside the model. *)
Definition to_datetime (v : value) : result value :=
  match v with
  | VNull => Ok VNull
  | VDate d => Ok (VDate d)
  | VStr s => VDate <$> Dates.parse_date s
  | VNum _ => Raise (ValueError "to_datetime")
  end.

(** [df[c] = pd.to_datetime(df[c])] *)
Definition convert_column (df : DataFrame) (c : string) : result DataFrame :=
  col ← getitem df c;
  converted ← rmap to_datetime col;
  Ok (setitem df c converted).

(** [series.max()] of a datetime series: missing values are skipped, and
    the maximum of nothing is [NaT] ([None] here). *)
Fixpoint series_max (l : list value) : option Z :=
  match l with
  | [] => None
  | v :: l' =>
      match v, series_max l' with
      | VDate d, Some m => Some (Z.max d m)
      | VDate d, None => Some d
      | _, m => m
      end
  end.

(** [series.dropna()] *)
Definition dropna (l : list value) : list value :=
  filter (λ v, v ≠ VNull) l.

(** [pd.concat([a, b])] *)
Definition concat (a b : DataFrame) : DataFrame :=
  {| columns := columns a ∪ columns b; rows := rows a ++ rows b |}.

Definition key_of (subset : list string) (r : gmap string value)
    : list value :=
  (λ c, cell r c) <$> subset.

(** [df.drop_duplicates(subset=subset)] *)
Definition drop_duplicates (subset : list string) (df : DataFrame)
    : result DataFrame :=
  match filter (λ c, c ∉ columns df) subset with
  | [] => Ok {| columns := columns df;
                rows := keep_first (key_of subset) [] (rows df) |}
  | c :: _ => Raise (KeyError c)
  end.

(** [df[~df[c].isin(values)]] *)
Definition drop_isin (df : DataFrame) (c : string) (values : list value)
    : result DataFrame :=
  if decide (c ∈ columns df) then
    Ok {| columns := columns df;
          rows := filter (λ r, cell r c ∉ values) (rows df) |}
  else Raise (KeyError c).

End Pandas.

(** [(latest - timedelta(days=7)).strftime("%Y-%m-%d")] for
    [latest = pd.to_datetime(column).max()]: the lookback window is the
    literal 7 in every pipeline that has one. *)
Definition lookback_days : Z := 7.

Definition from_date_of (column : list value) : result string :=
  dates ← rmap Pandas.to_datetime column;
  match Pandas.series_max dates with
  | None => Raise (ValueError "NaTType does not support strftime")
  | Some latest =>
      from ← Dates.sub_days latest lookback_days;
      Ok (Dates.strftime from)
  end.

(** ** Fetch loops

    The fetch loops append to a list while they iterate, and wrap the work
    for one entity in [try: ... except Exception].  What a loop has appended
    before an exception stays appended.  The loop state also records what was
    printed or logged by the handlers and which requests went to the vendor. *)
Section Loop.
Context {Q : Type}.

Record loop_state : Type := {
  acc : list (gmap string value);   (* the [..._records] / [..._history] list *)
  printed : list exn;               (* [print(e)], [logger.error(...)] *)
  calls : list Q                    (* requests sent to the vendor *)
}.

Definition start : loop_state := {| acc := []; printed := []; calls := [] |}.

Definition loop (A : Type) : Type := loop_state → loop_state * result A.

Definition ret {A} (a : A) : loop A := λ s, (s, Ok a).

Definition bind {A B} (m : loop A) (k : A → loop B) : loop B :=
  λ s, match m s with
       | (s', Ok a) => k a s'
       | (s', Raise e) => (s', Raise e)
       end.

Definition throw {A} (e : exn) : loop A := λ s, (s, Raise e).

Definition lift {A} (r : result A) : loop A := λ s, (s, r).

(** [records.append(r)] *)
Definition append (r : gmap string value) : loop unit :=
  λ s, ({| acc := acc s ++ [r]; printed := printed s; calls := calls s |},
        Ok tt).

(** [records.extend(rs)] *)
Definition extend (rs : list (gmap string value)) : loop unit :=
  λ s, ({| acc := acc s ++ rs; printed := printed s; calls := calls s |},
        Ok tt).

(** [print(e)] *)
Definition print (e : exn) : loop unit :=
  λ s, ({| acc := acc s; printed := printed s ++ [e]; calls := calls s |},
        Ok tt).

Definition call (q : Q) : loop unit :=
  λ s, ({| acc := acc s; printed := printed s; calls := calls s ++ [q] |},
        Ok tt).

(** [try: body except Exception as e: handler(e)] *)
Definition try_except {A} (body : loop A) (handler : exn → loop A) : loop A :=
  λ s, match body s with
       | (s', Raise e) => handler e s'
       | done => done
       end.

(** [for x in l: body(x)] *)
Fixpoint for_each {A} (l : list A) (body : A → loop unit) : loop unit :=
  match l with
  | [] => ret tt
  | x :: l' => bind (body x) (λ _, for_each l' body)
  end.

(** Runs a loop from the empty state; an exception that no handler
    caught ends the run. *)
Definition run {A} (m : loop A) : result loop_state :=
  match m start with
  | (s, Ok _) => Ok s
  | (_, Raise e) => Raise e
  end.

End Loop.
Arguments loop_state : clear implicits.
Arguments loop : clear implicits.

Notation "m >>; k" := (bind m (λ _, k))
  (at level 100, k at level 200, right associativity).

(** What a paginating vendor iterator does when it is consumed: it yields
    items and then either stops or raises (network or API failure).  A
    request that fails outright yields nothing. *)
Record stream (A : Type) : Type := {
  items : list A;
  failure : option exn
}.
Arguments items {A} s.
Arguments failure {A} s.

(** [[l[i : i + size] for i in range(0, len(l), size)]]: at most [len(l)]
    slices are taken. *)
Fixpoint slices {A} (fuel size : nat) (l : list A) : list (list A) :=
  match fuel, l with
  | S fuel', _ :: _ => take size l :: slices fuel' size (drop size l)
  | _, _ => []
  end.

Definition batch_size : nat := 100.

Definition batches {A} (l : list A) : list (list A) :=
  slices (length l) batch_size l.

(** What one run of a pipeline leaves behind. *)
Record outcome (Q : Type) : Type := {
  returned : option Pandas.DataFrame;  (* [None] is Python's [None] *)
  written : option Pandas.DataFrame;   (* the frame given to [to_parquet] *)
  logged : list exn;
  requests : list Q
}.
Arguments returned {Q} o.
Arguments written {Q} o.
Arguments logged {Q} o.
Arguments requests {Q} o.

(** The snapshot file as a pipeline finds it: [None] when the path does not
    exist, [Some (Raise e)] when [pd.read_parquet] raises. *)
Definition snapshot_file : Type := option (result Pandas.DataFrame).

(** [[
    existing = None
    if os.path.exists(output_path):
        try:
            existing = pd.read_parquet(output_path)
        except Exception as e:
            existing = None
    ]] *)
Definition load_existing (file : snapshot_file) : option Pandas.DataFrame :=
  match file with
  | None => None
  | Some (Ok df) => Some df
  | Some (Raise _) => None
  end.

(** What the handler of a failed read reports.  The handlers of the dividends
    and fundamentals pipelines are silent; the splits and IPO pipelines
    [print(e)] and the ticker-events pipeline calls [logger.error] before
    they go on without a snapshot. *)
Definition read_error (file : snapshot_file) : list exn :=
  match file with
  | Some (Raise e) => [e]
  | _ => []
  end.

(** The state of a fetch loop in a run that reported [read_error file]
    before the loop started. *)
Definition after_read_error {Q} (file : snapshot_file) (s : loop_state Q)
    : loop_state Q :=
  {| acc := acc s; printed := read_error file ++ printed s; calls := calls s |}.

(** ** Dividends: [polygon_equities_dividends.py] *)
Module Dividends.
Import Pandas.

(** [connector.client.list_dividends(ticker=..., ex_dividend_date_gte=...)].
    The second component is [None] when the keyword is not passed. *)
Definition request : Type := value * option string.

Record world : Type := {
  all_ticker_meta : result DataFrame;   (* [pd.read_csv(all_ticker_meta.csv)] *)
  dividends_file : snapshot_file;
  list_dividends : value → option string → stream (option (gmap string value))
}.

Definition natural_key : list string :=
  ["ticker"; "ex_dividend_date"; "cash_amount"]%string.

(** Lines 50-63 and 111-122: one ticker.
    [[
    try:
        for div in connector.client.list_dividends(ticker=ticker, ...):
            if div:
                records.append(div.__dict__)
    except Exception as e:
        print(e)
    ]]
    An item the client yields is an object (truthy) or, as [None] here, a
    falsy value that the guard skips. *)
Definition fetch_ticker (w : world) (gte : option string) (ticker : value)
    : loop request unit :=
  try_except
    (call (ticker, gte) >>;
     let s := list_dividends w ticker gte in
     for_each (items s) (λ div, match div with
                                | Some d => append d
                                | None => ret tt
                                end) >>;
     match failure s with
     | Some e => throw e
     | None => ret tt
     end)
    print.

(** Lines 41-66 and 102-125: the batches of 100 tickers. *)
Definition fetch_all (w : world) (gte : option string)
    (all_tickers_list : list value) : loop request unit :=
  for_each (batches all_tickers_list)
    (λ batch, for_each batch (fetch_ticker w gte)).

(** Lines 68-97: merging the new records into the existing frame.  The
    result is the frame returned and the frame written, if any. *)
Definition reconcile (existing_dividends : DataFrame)
    (new_dividend_records : list (gmap string value))
    : result (DataFrame * option DataFrame) :=
  match new_dividend_records with
  | [] => Ok (existing_dividends, None)
  | _ :: _ =>
      let new_records_df := from_records new_dividend_records in
      new_records_df ←
        (if decide ("ex_dividend_date"%string ∈ columns new_records_df)
         then convert_column new_records_df "ex_dividend_date"
         else Ok new_records_df);
      existing_dividends ← convert_column existing_dividends "ex_dividend_date";
      let combined_df := concat existing_dividends new_records_df in
      combined_df ← drop_duplicates natural_key combined_df;
      Ok (combined_df, Some combined_df)
  end.

(** Lines 127-133: the initial import keeps what was fetched as it is. *)
Definition initial_import (dividend_history : list (gmap string value))
    : DataFrame * option DataFrame :=
  let dividend_history_df := from_records dividend_history in
  (dividend_history_df,
   if empty dividend_history_df then None else Some dividend_history_df).

Definition finish (s : loop_state request)
    (r : DataFrame * option DataFrame) : outcome request :=
  {| returned := Some r.1; written := r.2;
     logged := printed s; requests := calls s |}.

(** [update_dividend_history()], started as a script. *)
Definition update_dividend_history (w : world) : result (outcome request) :=
  all_tickers ← all_ticker_meta w;
  tickers ← getitem all_tickers "ticker";
  let all_tickers_list := keep_first id [] tickers in
  match load_existing (dividends_file w) with
  | Some existing_dividends =>
      if empty existing_dividends then
        s ← run (fetch_all w None all_tickers_list);
        Ok (finish s (initial_import (acc s)))
      else
        column ← getitem existing_dividends "ex_dividend_date";
        from_date ← from_date_of column;
        s ← run (fetch_all w (Some from_date) all_tickers_list);
        r ← reconcile existing_dividends (acc s);
        Ok (finish s r)
  | None =>
      s ← run (fetch_all w None all_tickers_list);
      Ok (finish s (initial_import (acc s)))
  end.

End Dividends.

(** ** Ticker events: [polygon_equities_ticker_events.py] *)
Module TickerEvents.
Import Pandas.

(** One element of [events.events]: a JSON object whose [ticker_change]
    entry is itself an object. *)
Record event : Type := {
  fields : gmap string value;                     (* [type], [date], ... *)
  ticker_change : option (gmap string value)
}.

(** The object [get_ticker_events] returns.  An attribute that the client
    did not set is [None] here. *)
Record response : Type := {
  name : option value;
  composite_figi : option value;
  cik : option value;
  events : option (list event)     (* [None]: no such attribute, or null *)
}.

Record world : Type := {
  all_ticker_meta : result DataFrame;
  ticker_events_file : snapshot_file;
  (* [None] is a falsy response object *)
  get_ticker_events : value → result (option response)
}.

Definition natural_key : list string :=
  ["composite_figi"; "type"; "date"; "new_ticker"]%string.

(** [obj.attr], raising [AttributeError] (a [KeyError] here) when unset. *)
Definition attr (what : string) (o : option value) : result value :=
  match o with
  | Some v => Ok v
  | None => Raise (KeyError what)
  end.

(** [row[k]] on a dict. *)
Definition item (d : gmap string value) (k : string) : result value :=
  match d !! k with
  | Some v => Ok v
  | None => Raise (KeyError k)
  end.

(** Lines 79-90 and 152-161: the record built from one event. *)
Definition collection_dict (events : response) (row : event)
    : result (gmap string value) :=
  name ← attr "name" (name events);
  composite_figi ← attr "composite_figi" (composite_figi events);
  let cik := default VNull (cik events) in     (* [getattr(events, "cik", None)] *)
  change ← match ticker_change row with
           | Some c => Ok c
           | None => Raise (KeyError "ticker_change")
           end;
  new_ticker ← item change "ticker";
  type ← item (fields row) "type";
  date ← item (fields row) "date";
  Ok (<["name" := name]> (<["composite_figi" := composite_figi]>
      (<["cik" := cik]> (<["new_ticker" := new_ticker]>
      (<["type" := type]> (<["date" := date]> ∅)))))).

(** Lines 74-78: is this event kept by an incremental run?
    [[
    event_date = pd.to_datetime(row["date"])
    if (event_date >= pd.to_datetime(from_date)
            or figi not in processed_figis):
    ]]
    [pd.to_datetime] of the scalar [None] is [None], and [None >= Timestamp]
    raises [TypeError] before the right operand of [or] is looked at. *)
Definition is_new (from_date : string) (processed_figis : list value)
    (figi : value) (row : event) : result bool :=
  date ← item (fields row) "date";
  event_date ← to_datetime date;
  from ← to_datetime (VStr from_date);
  match event_date, from with
  | VDate x, VDate y => Ok ((y <=? x) || bool_decide (figi ∉ processed_figis))
  | _, _ => Raise (TypeError ">=")
  end.

(** Lines 71-90, the incremental loop over [events.events]. *)
Fixpoint collect_new (from_date : string) (processed_figis : list value)
    (figi : value) (events : response) (l : list event)
    : result (list (gmap string value)) :=
  match l with
  | [] => Ok []
  | row :: l' =>
      keep ← is_new from_date processed_figis figi row;
      collection ← (if keep : bool
                    then d ← collection_dict events row; Ok [d]
                    else Ok []);
      rest ← collect_new from_date processed_figis figi events l';
      Ok (collection ++ rest)
  end.

(** Lines 150-161, the loop of the initial import. *)
Definition collect_all (events : response) (l : list event)
    : result (list (gmap string value)) :=
  rmap (collection_dict events) l.

(** Lines 65-95 and 144-166: one FIGI.  The rows of a FIGI reach
    [event_history] in one [extend] after all of them were built. *)
Definition fetch_figi (w : world)
    (collect : value → response → list event → result (list (gmap string value)))
    (figi : value) : loop value unit :=
  try_except
    (call figi >>;
     bind (lift (get_ticker_events w figi)) (λ events,
       match events with
       | Some events =>
           match TickerEvents.events events with
           | Some (row :: l) =>
               bind (lift (collect figi events (row :: l))) extend
           | _ => ret tt
           end
       | None => ret tt
       end))
    print.

Definition fetch_all (w : world)
    (collect : value → response → list event → result (list (gmap string value)))
    (figis : list value) : loop value unit :=
  for_each (batches figis) (λ batch, for_each batch (fetch_figi w collect)).

(** Lines 100-126. *)
Definition reconcile (existing_events : DataFrame)
    (event_history : list (gmap string value))
    : result (DataFrame * option DataFrame) :=
  match event_history with
  | [] => Ok (existing_events, None)
  | _ :: _ =>
      let new_records_df := from_records event_history in
      new_records_df ← convert_column new_records_df "date";
      existing_events ← convert_column existing_events "date";
      let combined_df := concat existing_events new_records_df in
      combined_df ← drop_duplicates natural_key combined_df;
      Ok (combined_df, Some combined_df)
  end.

(** Lines 171-192. *)
Definition initial_import (event_history : list (gmap string value))
    : result (DataFrame * option DataFrame) :=
  let event_history_df := from_records event_history in
  if empty event_history_df then Ok (event_history_df, None)
  else
    event_history_df ← convert_column event_history_df "date";
    event_history_df ← drop_duplicates natural_key event_history_df;
    Ok (event_history_df, Some event_history_df).

Definition finish (s : loop_state value)
    (r : DataFrame * option DataFrame) : outcome value :=
  {| returned := Some r.1; written := r.2;
     logged := printed s; requests := calls s |}.

Definition update_ticker_events (w : world) : result (outcome value) :=
  all_tickers ← all_ticker_meta w;
  figi_column ← getitem all_tickers "composite_figi";
  let figis := keep_first id [] (dropna figi_column) in
  let full :=
    s ← run (fetch_all w (λ _, collect_all) figis);
    r ← initial_import (acc s);
    Ok (finish (after_read_error (ticker_events_file w) s) r) in
  match load_existing (ticker_events_file w) with
  | Some existing_events =>
      if empty existing_events then full
      else
        column ← getitem existing_events "date";
        from_date ← from_date_of column;
        figi_cells ← getitem existing_events "composite_figi";
        let processed_figis := dropna figi_cells in
        s ← run (fetch_all w (collect_new from_date processed_figis) figis);
        r ← reconcile existing_events (acc s);
        Ok (finish s r)
  | None => full
  end.

End TickerEvents.

(** ** Splits: [polygon_equities_splits.py]

    The pipeline has the shape of the dividends one, on other columns, and
    adds a [ratio] column to what it fetched.  The ratio is a floating-point
    quotient; its value plays no role in the merge and is left to a
    parameter. *)
Module Splits.
Import Pandas.

Definition request : Type := value * option string.

Record world : Type := {
  all_ticker_meta : result DataFrame;
  splits_file : snapshot_file;
  list_splits : value → option string → stream (option (gmap string value))
}.

Definition natural_key : list string :=
  ["ticker"; "execution_date"; "split_from"; "split_to"]%string.

Section WithDivision.
(** [a / b] on two cells of a float column. *)
Variable divide : value → value → value.

(** [df["ratio"] = df["split_to"] / df["split_from"]] *)
Definition add_ratio (df : DataFrame) : result DataFrame :=
  split_to ← getitem df "split_to";
  split_from ← getitem df "split_from";
  Ok (setitem df "ratio" (zip_with divide split_to split_from)).

Definition fetch_ticker (w : world) (gte : option string) (ticker : value)
    : loop request unit :=
  try_except
    (call (ticker, gte) >>;
     let s := list_splits w ticker gte in
     for_each (items s) (λ split, match split with
                                  | Some d => append d
                                  | None => ret tt
                                  end) >>;
     match failure s with
     | Some e => throw e
     | None => ret tt
     end)
    print.

Definition fetch_all (w : world) (gte : option string)
    (all_tickers_list : list value) : loop request unit :=
  for_each (batches all_tickers_list)
    (λ batch, for_each batch (fetch_ticker w gte)).

(** Lines 68-102. *)
Definition reconcile (existing_splits : DataFrame)
    (new_split_records : list (gmap string value))
    : result (DataFrame * option DataFrame) :=
  match new_split_records with
  | [] => Ok (existing_splits, None)
  | _ :: _ =>
      let new_records_df := from_records new_split_records in
      new_records_df ← add_ratio new_records_df;
      new_records_df ←
        (if decide ("execution_date"%string ∈ columns new_records_df)
         then convert_column new_records_df "execution_date"
         else Ok new_records_df);
      existing_splits ← convert_column existing_splits "execution_date";
      let combined_df := concat existing_splits new_records_df in
      combined_df ← drop_duplicates natural_key combined_df;
      Ok (combined_df, Some combined_df)
  end.

(** Lines 132-143. *)
Definition initial_import (split_history : list (gmap string value))
    : result (DataFrame * option DataFrame) :=
  let split_history_df := from_records split_history in
  if empty split_history_df then Ok (split_history_df, None)
  else
    split_history_df ← add_ratio split_history_df;
    Ok (split_history_df, Some split_history_df).

Definition finish (s : loop_state request)
    (r : DataFrame * option DataFrame) : outcome request :=
  {| returned := Some r.1; written := r.2;
     logged := printed s; requests := calls s |}.

Definition update_split_history (w : world) : result (outcome request) :=
  all_tickers ← all_ticker_meta w;
  tickers ← getitem all_tickers "ticker";
  let all_tickers_list := keep_first id [] tickers in
  let full :=
    s ← run (fetch_all w None all_tickers_list);
    r ← initial_import (acc s);
    Ok (finish (after_read_error (splits_file w) s) r) in
  match load_existing (splits_file w) with
  | Some existing_splits =>
      if empty existing_splits then full
      else
        column ← getitem existing_splits "execution_date";
        from_date ← from_date_of column;
        s ← run (fetch_all w (Some from_date) all_tickers_list);
        r ← reconcile existing_splits (acc s);
        Ok (finish s r)
  | None => full
  end.
End WithDivision.

End Splits.

(** ** Fundamentals: [polygon_equities_fundamentals.py] *)
Module Fundamentals.
Import Pandas.

Record world : Type := {
  all_ticker_meta : result DataFrame;
  fundamentals_file : snapshot_file;
  (* [connector.client.vx.list_stock_financials(ticker=..., limit=1000)];
     an item is [asdict(fin)] *)
  list_stock_financials : value → stream (gmap string value)
}.

Definition natural_key : list string :=
  ["ticker"; "filing_date"; "fiscal_year"; "fiscal_period"]%string.

(** Lines 27-33: the tickers the snapshot already covers. *)
Definition processed_of (existing_fundamentals : option DataFrame)
    : list value :=
  match existing_fundamentals with
  | Some existing =>
      if negb (empty existing)
         && bool_decide ("ticker"%string ∈ columns existing)
      then dropna ((λ r, cell r "ticker") <$> rows existing)
      else []
  | None => []
  end.

(** Lines 36-44: one ticker.  [{"ticker": ticker, **asdict(fin)}]: a
    [ticker] entry of the filing itself wins. *)
Definition fetch_ticker (w : world) (processed : list value) (ticker : value)
    : loop value unit :=
  if decide (ticker ∈ processed) then ret tt
  else
    try_except
      (call ticker >>;
       let s := list_stock_financials w ticker in
       for_each (items s) (λ fin, append (fin ∪ {["ticker"%string := ticker]})) >>;
       match failure s with
       | Some e => throw e
       | None => ret tt
       end)
      print.

(** Lines 46-58. *)
Definition reconcile (existing_fundamentals : option DataFrame)
    (fundamental_records : list (gmap string value))
    : result (option DataFrame * option DataFrame) :=
  match fundamental_records with
  | [] => Ok (existing_fundamentals, None)
  | _ :: _ =>
      let new_df := from_records fundamental_records in
      combined_df ←
        match existing_fundamentals with
        | Some existing =>
            drop_duplicates natural_key (concat existing new_df)
        | None => Ok new_df
        end;
      Ok (Some combined_df, Some combined_df)
  end.

Definition update_fundamental_history (w : world) : result (outcome value) :=
  tickers ← all_ticker_meta w;
  column ← getitem tickers "ticker";
  let ticker_list := dropna (keep_first id [] column) in
  let existing_fundamentals := load_existing (fundamentals_file w) in
  let processed := processed_of existing_fundamentals in
  s ← run (for_each ticker_list (fetch_ticker w processed));
  r ← reconcile existing_fundamentals (acc s);
  Ok {| returned := r.1; written := r.2;
        logged := printed s; requests := calls s |}.

End Fundamentals.

(** ** IPOs: [polygon_equities_ipos.py] *)
Module Ipos.
Import Pandas.

(** *** The cursor of a [next_url] *)

(** [s[len(p):]] when [s.startswith(p)]. *)
Fixpoint strip_prefix (p s : string) : option string :=
  match p, s with
  | EmptyString, _ => Some s
  | String a p', String b s' =>
      if decide (a = b) then strip_prefix p' s' else None
  | String _ _, EmptyString => None
  end.

(** [s.partition(sep)]: the text before and after the first [sep]. *)
Fixpoint cut (sep s : string) : option (string * string) :=
  match strip_prefix sep s with
  | Some rest => Some (EmptyString, rest)
  | None =>
      match s with
      | EmptyString => None
      | String c s' =>
          match cut sep s' with
          | Some (before, after) => Some (String c before, after)
          | None => None
          end
      end
  end.

(** [s.split(sep)[1]], for [sep in s]. *)
Definition second_piece (sep s : string) : option string :=
  match cut sep s with
  | Some (_, after) =>
      match cut sep after with
      | Some (piece, _) => Some piece
      | None => Some after
      end
  | None => None
  end.

(** [s.split(sep)[0]] *)
Definition first_piece (sep s : string) : string :=
  match cut sep s with
  | Some (piece, _) => piece
  | None => s
  end.

(** Lines 97-102: [None] when ["cursor=" in next_url] is false. *)
Definition cursor_of (next_url : string) : option string :=
  first_piece "&" <$> second_piece "cursor=" next_url.

(** *** The endpoint *)

(** The [params] dict, without the API key. *)
Record params : Type := {
  modified_date_gte : option string;
  sort : string;
  order : string;
  limit : Z;
  cursor : option string
}.

Definition with_cursor (p : params) (c : string) : params :=
  {| modified_date_gte := modified_date_gte p; sort := sort p;
     order := order p; limit := limit p; cursor := Some c |}.

(** The JSON body of a page. *)
Record page : Type := {
  results : option (list (gmap string value));
  next_url : option string
}.

Record world : Type := {
  ipos_file : snapshot_file;
  (* [get_ipos]: [requests.get] may raise; a status other than 200 gives
     [None] *)
  get_ipos : params → result (option page)
}.

Definition max_pages : nat := 100.

(** Lines 76-109 and 163-197: the pagination loop, [page_count] counting
    down from [max_pages].  A cursor that is the empty string is falsy and
    leaves [params] as they are. *)
Fixpoint fetch_pages (w : world) (pages_left : nat) (p : params)
    : loop params unit :=
  match pages_left with
  | O => ret tt
  | S pages_left' =>
      call p >>;
      bind (lift (get_ipos w p)) (λ response,
        match response with
        | Some {| results := Some (ipo :: l); next_url := next_url |} =>
            for_each (ipo :: l) append >>;
            match next_url with
            | Some url =>
                if decide (url = EmptyString) then ret tt
                else
                  match cursor_of url with
                  | Some pagination_cursor =>
                      fetch_pages w pages_left'
                        (if decide (pagination_cursor = EmptyString) then p
                         else with_cursor p pagination_cursor)
                  | None => ret tt
                  end
            | None => ret tt
            end
        | _ => ret tt
        end)
  end.

Definition date_columns : list string :=
  ["modified_date"; "listing_date"; "announcement_date"]%string.

Definition convert_if_present (df : DataFrame) (col : string)
    : result DataFrame :=
  if decide (col ∈ columns df) then convert_column df col else Ok df.

(** Lines 120-124: both frames, column by column. *)
Fixpoint convert_dates (cols : list string) (new_records_df existing_ipos : DataFrame)
    : result (DataFrame * DataFrame) :=
  match cols with
  | [] => Ok (new_records_df, existing_ipos)
  | col :: cols' =>
      new_records_df ← convert_if_present new_records_df col;
      existing_ipos ← convert_if_present existing_ipos col;
      convert_dates cols' new_records_df existing_ipos
  end.

(** Lines 114-146.  Without a [ticker] column on both sides nothing is
    written and the existing frame, its dates converted in place, is
    returned. *)
Definition reconcile (existing_ipos : DataFrame)
    (new_ipo_records : list (gmap string value))
    : result (DataFrame * option DataFrame) :=
  match new_ipo_records with
  | [] => Ok (existing_ipos, None)
  | _ :: _ =>
      let new_records_df := from_records new_ipo_records in
      '(new_records_df, existing_ipos) ←
        convert_dates date_columns new_records_df existing_ipos;
      if bool_decide ("ticker"%string ∈ columns new_records_df)
         && bool_decide ("ticker"%string ∈ columns existing_ipos)
      then
        updated_tickers ← getitem new_records_df "ticker";
        existing_filtered ← drop_isin existing_ipos "ticker" updated_tickers;
        let combined_df := concat existing_filtered new_records_df in
        Ok (combined_df, Some combined_df)
      else Ok (existing_ipos, None)
  end.

(** Lines 207-210. *)
Fixpoint convert_each (cols : list string) (df : DataFrame)
    : result DataFrame :=
  match cols with
  | [] => Ok df
  | col :: cols' =>
      df ← convert_if_present df col;
      convert_each cols' df
  end.

(** Lines 203-215. *)
Definition initial_import (ipo_history : list (gmap string value))
    : result (DataFrame * option DataFrame) :=
  let ipo_history_df := from_records ipo_history in
  if empty ipo_history_df then Ok (ipo_history_df, None)
  else
    ipo_history_df ← convert_each date_columns ipo_history_df;
    Ok (ipo_history_df, Some ipo_history_df).

Definition finish (s : loop_state params)
    (r : DataFrame * option DataFrame) : outcome params :=
  {| returned := Some r.1; written := r.2;
     logged := printed s; requests := calls s |}.

(** Lines 150-215: the initial import; an exception of the endpoint is
    raised again. *)
Definition full_import (w : world) : result (outcome params) :=
  s ← run (fetch_pages w max_pages
             {| modified_date_gte := None; sort := "listing_date";
                order := "asc"; limit := 1000; cursor := None |});
  r ← initial_import (acc s);
  Ok (finish (after_read_error (ipos_file w) s) r).

(** [update_ipo_history()].  A snapshot that loads but is empty falls
    through both [if]s: nothing is fetched and the function returns
    [None]. *)
Definition update_ipo_history (w : world) : result (outcome params) :=
  match load_existing (ipos_file w) with
  | Some existing_ipos =>
      if empty existing_ipos then
        Ok {| returned := None; written := None; logged := []; requests := [] |}
      else if decide ("modified_date"%string ∈ columns existing_ipos) then
        column ← getitem existing_ipos "modified_date";
        from_date ← from_date_of column;
        s ← run (try_except
                   (fetch_pages w max_pages
                      {| modified_date_gte := Some from_date;
                         sort := "modified_date"; order := "asc";
                         limit := 1000; cursor := None |})
                   print);
        r ← reconcile existing_ipos (acc s);
        Ok (finish s r)
      else full_import w
  | None => full_import w
  end.

End Ipos.

(** ** Sample data *)
Module Examples.
Import Pandas.

Definition date (y m d : Z) : value := VDate (Dates.ymd2ord y m d).

Definition dividend (ticker : string) (ex_dividend_date : value)
    (cash_amount : Z) (pay_date : string) : gmap string value :=
  <["ticker" := VStr ticker]> (<["ex_dividend_date" := ex_dividend_date]>
  (<["cash_amount" := VNum cash_amount]> (<["pay_date" := VStr pay_date]> ∅))).

(** A dividend as a snapshot holds it, and the same dividend as the vendor
    reports it later, its pay date revised. *)
Definition stored : gmap string value :=
  dividend "AAPL" (date 2024 1 10) 24 "2024-02-15".
Definition revised : gmap string value :=
  dividend "AAPL" (VStr "2024-01-10") 24 "2024-02-16".
Definition recent : gmap string value :=
  dividend "AAPL" (VStr "2024-04-10") 25 "2024-05-16".

Definition snapshot : DataFrame := from_records [stored].

Definition ticker_meta : DataFrame :=
  from_records [{["ticker"%string := VStr "AAPL"]}].

(** [revised] once its date is a timestamp. *)
Definition revised_converted : gmap string value :=
  <["ex_dividend_date" := date 2024 1 10]> revised.

(** Two reports of one dividend that differ in the pay date only, as a
    vendor that repeats a record across pages yields them. *)
Definition first_report : gmap string value :=
  dividend "AAPL" (VStr "2024-01-10") 24 "2024-02-15".

Definition three_fetched : list (gmap string value) :=
  [first_report; revised; recent].

(** A first run: no snapshot on disk, one ticker, three records fetched. *)
Definition first_run : Dividends.world :=
  {| Dividends.all_ticker_meta := Ok ticker_meta;
     Dividends.dividends_file := None;
     Dividends.list_dividends := λ ticker gte,
       {| items := Some <$> three_fetched; failure := None |} |}.

(** [recent] once its date is a timestamp, and the snapshot after a merge
    with it. *)
Definition recent_converted : gmap string value :=
  dividend "AAPL" (date 2024 4 10) 25 "2024-05-16".

Definition grown : DataFrame :=
  {| columns := columns snapshot; rows := [stored; recent_converted] |}.

(** A later run: the snapshot is on disk and the vendor has nothing new. *)
Definition quiet_run : Dividends.world :=
  {| Dividends.all_ticker_meta := Ok ticker_meta;
     Dividends.dividends_file := Some (Ok snapshot);
     Dividends.list_dividends := λ ticker gte,
       {| items := []; failure := None |} |}.


Definition filing (ticker filing_date fiscal_year fiscal_period : string)
    (revenues : Z) : gmap string value :=
  <["ticker" := VStr ticker]> (<["filing_date" := VStr filing_date]>
  (<["fiscal_year" := VStr fiscal_year]>
  (<["fiscal_period" := VStr fiscal_period]>
  (<["revenues" := VNum revenues]> ∅)))).

(** A quarterly filing as the snapshot holds it, and the restatement the
    vendor reports two days later. *)
Definition filed_q1 : gmap string value :=
  filing "AAPL" "2024-02-01" "2024" "Q1" 100.
Definition restated_q1 : gmap string value :=
  filing "AAPL" "2024-02-03" "2024" "Q1" 120.

Definition fundamentals_snapshot : DataFrame := from_records [filed_q1].

Definition restatement_run : Fundamentals.world :=
  {| Fundamentals.all_ticker_meta := Ok ticker_meta;
     Fundamentals.fundamentals_file := Some (Ok fundamentals_snapshot);
     Fundamentals.list_stock_financials := λ ticker,
       {| items := [restated_q1]; failure := None |} |}.

Definition change (date new_ticker : string) : TickerEvents.event :=
  {| TickerEvents.fields :=
       <["type" := VStr "ticker_change"]> (<["date" := VStr date]> ∅);
     TickerEvents.ticker_change := Some {["ticker"%string := VStr new_ticker]} |}.

Definition old_change : TickerEvents.event := change "2020-01-02" "OLDX".
Definition new_change : TickerEvents.event := change "2024-04-09" "NEWX".

Definition figi : value := VStr "BBG000000001".

Definition renamed : TickerEvents.response :=
  {| TickerEvents.name := Some (VStr "Example Corp");
     TickerEvents.composite_figi := Some figi;
     TickerEvents.cik := None;
     TickerEvents.events := Some [old_change; new_change] |}.

Definition ipo (ticker : string) (modified_date : value) : gmap string value :=
  <["ticker" := VStr ticker]> (<["modified_date" := modified_date]> ∅).

Definition listed : gmap string value := ipo "OLD" (date 2024 1 10).
Definition filed : gmap string value := ipo "NEW" (VStr "2024-04-10").
Definition filed_converted : gmap string value := ipo "NEW" (date 2024 4 10).

Definition ipo_snapshot : DataFrame := from_records [listed].

(** The IPO snapshot after a merge with a page that holds [filed] twice. *)
Definition ipo_merged : DataFrame :=
  {| columns := columns ipo_snapshot;
     rows := [listed; filed_converted; filed_converted] |}.

(** An endpoint that is out of service: every request is answered with a
    status other than 200. *)
Definition endpoint_down : Ipos.world :=
  {| Ipos.ipos_file := None; Ipos.get_ipos := λ p, Ok None |}.

Definition next_page_url : string :=
  "https://api.polygon.io/vX/reference/ipos?cursor=YXA9MQ&limit=1000".

(** An IPO snapshot file that holds no rows. *)
Definition blocked_ipos : Ipos.world :=
  {| Ipos.ipos_file := Some (Ok (from_records []));
     Ipos.get_ipos := λ p, Ok (Some {| Ipos.results := Some [filed];
                                       Ipos.next_url := None |}) |}.

(** An endpoint that cannot be reached. *)
Definition unreachable : exn := VendorError "connection refused".

Definition endpoint_unreachable : Ipos.world :=
  {| Ipos.ipos_file := None; Ipos.get_ipos := λ p, Raise unreachable |}.

Definition endpoint_unreachable_later : Ipos.world :=
  {| Ipos.ipos_file := Some (Ok ipo_snapshot);
     Ipos.get_ipos := λ p, Raise unreachable |}.

(** The fundamentals snapshot after the restatement was merged in. *)
Definition fundamentals_merged : DataFrame :=
  {| columns := columns fundamentals_snapshot;
     rows := [filed_q1; restated_q1] |}.

(** A dividend whose ex-dividend date is not known. *)
Definition undated : gmap string value :=
  dividend "AAPL" VNull 24 "2024-02-15".

Definition undated_run : Dividends.world :=
  {| Dividends.all_ticker_meta := Ok ticker_meta;
     Dividends.dividends_file := Some (Ok (from_records [undated]));
     Dividends.list_dividends := λ ticker gte,
       {| items := [Some recent]; failure := None |} |}.

(** A file that is not a dividends snapshot: it has rows, and no
    [ex_dividend_date] column. *)
Definition foreign_run : Dividends.world :=
  {| Dividends.all_ticker_meta := Ok ticker_meta;
     Dividends.dividends_file := Some (Ok ticker_meta);
     Dividends.list_dividends := λ ticker gte,
       {| items := [Some recent]; failure := None |} |}.

Definition foreign_ipos : Ipos.world :=
  {| Ipos.ipos_file := Some (Ok ticker_meta);
     Ipos.get_ipos := λ p, Ok None |}.

(** An event without a [ticker_change] entry, among the events of a
    FIGI. *)
Definition delisting : TickerEvents.event :=
  {| TickerEvents.fields :=
       <["type" := VStr "delisted"]> (<["date" := VStr "2024-04-09"]> ∅);
     TickerEvents.ticker_change := None |}.

Definition delisted : TickerEvents.response :=
  {| TickerEvents.name := Some (VStr "Example Corp");
     TickerEvents.composite_figi := Some figi;
     TickerEvents.cik := None;
     TickerEvents.events := Some [old_change; delisting] |}.

Definition delisted_world : TickerEvents.world :=
  {| TickerEvents.all_ticker_meta := Ok ticker_meta;
     TickerEvents.ticker_events_file := None;
     TickerEvents.get_ticker_events := λ figi, Ok (Some delisted) |}.

(** A split record without its numbers. *)
Definition bare_split : gmap string value :=
  <["ticker" := VStr "AAPL"]> (<["execution_date" := VStr "2020-08-31"]> ∅).

(** The quotient of two numbers, for the [ratio] column of the samples. *)
Definition quotient (a b : value) : value :=
  match a, b with
  | VNum x, VNum y => VNum (x / y)
  | _, _ => VNull
  end.

Definition split (execution_date : value) (ratio : option value)
    : gmap string value :=
  let r := <["ticker" := VStr "AAPL"]>
             (<["execution_date" := execution_date]>
             (<["split_from" := VNum 1]> (<["split_to" := VNum 4]> ∅))) in
  match ratio with
  | Some v => <["ratio" := v]> r
  | None => r
  end.

Definition split_stored : gmap string value :=
  split (date 2020 8 31) (Some (VNum 4)).
Definition split_fetched : gmap string value :=
  split (VStr "2020-08-31") None.

Definition splits_snapshot : DataFrame := from_records [split_stored].

Definition event_row (date : value) : gmap string value :=
  <["name" := VStr "Example Corp"]> (<["composite_figi" := figi]>
  (<["cik" := VNull]> (<["new_ticker" := VStr "NEWX"]>
  (<["type" := VStr "ticker_change"]> (<["date" := date]> ∅))))).

Definition event_fetched : gmap string value := event_row (VStr "2024-04-09").
Definition event_stored : gmap string value :=
  event_row (date 2024 4 9).

Definition events_snapshot : DataFrame := from_records [event_stored].

(** An endpoint with two pages: the first request is answered with a
    record and a [next_url], a request with a cursor with nothing. *)
Definition first_request : Ipos.params :=
  {| Ipos.modified_date_gte := None; Ipos.sort := "listing_date";
     Ipos.order := "asc"; Ipos.limit := 1000; Ipos.cursor := None |}.

Definition paged : Ipos.world :=
  {| Ipos.ipos_file := None;
     Ipos.get_ipos := λ p,
       match Ipos.cursor p with
       | None => Ok (Some {| Ipos.results := Some [filed];
                             Ipos.next_url := Some next_page_url |})
       | Some _ => Ok None
       end |}.

(** Another FIGI, and the sample events with the days their dates read
    as. *)
Definition other_figi : value := VStr "BBG000000002".


(** A dividend of another ticker, as fetched and once its date is a
    timestamp. *)
Definition unrelated : gmap string value :=
  dividend "MSFT" (VStr "2024-02-14") 75 "2024-03-14".
Definition unrelated_converted : gmap string value :=
  dividend "MSFT" (date 2024 2 14) 75 "2024-03-14".

(** The frame that [first_run] writes, and the result of merging
    [unrelated] into it. *)
Definition first_written : DataFrame := from_records three_fetched.

Definition after_unrelated : DataFrame :=
  {| columns := columns first_written;
     rows := [stored; recent_converted; unrelated_converted] |}.


(** A universe of two tickers, one of which the snapshot covers. *)
Definition two_tickers : DataFrame :=
  from_records [{["ticker"%string := VStr "AAPL"]};
                {["ticker"%string := VStr "MSFT"]}].

Definition filed_msft : gmap string value :=
  filing "MSFT" "2024-01-30" "2024" "Q2" 620.

Definition second_ticker_run : Fundamentals.world :=
  {| Fundamentals.all_ticker_meta := Ok two_tickers;
     Fundamentals.fundamentals_file := Some (Ok fundamentals_snapshot);
     Fundamentals.list_stock_financials := λ ticker,
       {| items := [filed_msft]; failure := None |} |}.

Definition second_ticker_outcome : outcome value :=
  let merged := {| columns := columns fundamentals_snapshot;
                   rows := [filed_q1; filed_msft] |} in
  {| returned := Some merged; written := Some merged;
     logged := []; requests := [VStr "MSFT"] |}.

End Examples.

(** ** Vocabulary of the statements *)

(** The rows a ticker loop appends for a stream: its truthy items. *)
Definition yielded (s : stream (option (gmap string value)))
    : list (gmap string value) :=
  omap id (items s).

(** [r'] is [r] with its column [c] passed through [pd.to_datetime]. *)
Definition converted (c : string) (r r' : gmap string value) : Prop :=
  ∃ v, Pandas.to_datetime (Pandas.cell r c) = Ok v ∧ r' = <[c := v]> r.

(** The fetched records as they enter the merge: column [c] is converted
    when one of the records has it, and the records stay as they are
    otherwise. *)
Definition converted_new (c : string) (F F' : list (gmap string value))
    : Prop :=
  if decide (c ∈ Pandas.columns (Pandas.from_records F))
  then Forall2 (converted c) F F'
  else F' = F.

(** The invariant of a snapshot: no two rows agree on every key column. *)
Definition unique_keys (K : list string) (l : list (gmap string value))
    : Prop :=
  NoDup (Pandas.key_of K <$> l).

(** Column [c] of the row holds a timestamp already, as in every snapshot
    that an incremental run has written. *)
Definition has_timestamp (c : string) (r : gmap string value) : Prop :=
  ∃ d, r !! c = Some (VDate d).

(** The loop state after the work for one entity whose request [q] was
    answered by the stream [s]: the truthy items are appended, and the
    exception that ended the stream, if any, was printed. *)
Definition after_stream {Q} (q : Q) (s : stream (option (gmap string value)))
    (st : loop_state Q) : loop_state Q :=
  {| acc := acc st ++ yielded s;
     printed := printed st ++ option_list (failure s);
     calls := calls st ++ [q] |}.

(** All the rows the vendor yields for the entities of [l], in order. *)
Definition collected {A} (f : A → stream (option (gmap string value)))
    (l : list A) : list (gmap string value) :=
  l ≫= (λ x, yielded (f x)).

(** Existing rows win: of an existing row [s] and a fetched row [f] with
    the same key, the merged rows [M] hold exactly one row with that key,
    and it is an existing one ([s] itself when the existing rows have
    distinct keys). *)
Definition first_wins (K : list string) (S' F' M : list (gmap string value))
    : Prop :=
  ∀ s f, s ∈ S' → f ∈ F' → Pandas.key_of K s = Pandas.key_of K f →
    ∃ e, e ∈ S' ∧ Pandas.key_of K e = Pandas.key_of K f ∧ e ∈ M ∧
         (∀ m, m ∈ M → Pandas.key_of K m = Pandas.key_of K f → m = e) ∧
         (unique_keys K S' → e = s).

(** Fetched rows win: the reading under which a fetched row replaces the
    existing row of its key. *)
Definition fetched_wins (K : list string) (S' F' M : list (gmap string value))
    : Prop :=
  ∀ s f, s ∈ S' → f ∈ F' → Pandas.key_of K s = Pandas.key_of K f →
    f ∈ M ∧ (s ≠ f → s ∉ M).

(** What the vendor's answer for one FIGI amounts to: the rows built from
    its events, or the exception raised on the way. *)
Definition figi_outcome (w : TickerEvents.world)
    (collect : value → TickerEvents.response → list TickerEvents.event
               → result (list (gmap string value)))
    (figi : value) : result (list (gmap string value)) :=
  events ← TickerEvents.get_ticker_events w figi;
  match events with
  | Some events =>
      match TickerEvents.events events with
      | Some (row :: l) => collect figi events (row :: l)
      | _ => Ok []
      end
  | None => Ok []
  end.

Definition figi_rows (w : TickerEvents.world)
    (collect : value → TickerEvents.response → list TickerEvents.event
               → result (list (gmap string value)))
    (figi : value) : list (gmap string value) :=
  match figi_outcome w collect figi with
  | Ok rows => rows
  | Raise _ => []
  end.

Definition figi_error (w : TickerEvents.world)
    (collect : value → TickerEvents.response → list TickerEvents.event
               → result (list (gmap string value)))
    (figi : value) : list exn :=
  match figi_outcome w collect figi with
  | Ok _ => []
  | Raise e => [e]
  end.

(** [pd.to_datetime(row["date"])] *)
Definition event_date (row : TickerEvents.event) : result value :=
  date ← TickerEvents.item (TickerEvents.fields row) "date";
  Pandas.to_datetime date.

(** The rows the fundamentals loop appends for a ticker. *)
Definition filings (w : Fundamentals.world) (ticker : value)
    : list (gmap string value) :=
  (λ fin, fin ∪ {["ticker"%string := ticker]})
    <$> items (Fundamentals.list_stock_financials w ticker).



(** [from_date] is the latest timestamp of the column, seven days
    earlier, as text. *)
Definition lookback_boundary (column : list value) (from_date : string)
    : Prop :=
  ∃ dates latest,
    rmap Pandas.to_datetime column = Ok dates ∧
    VDate latest ∈ dates ∧ (∀ d, VDate d ∈ dates → d ≤ latest) ∧
    Dates.in_bounds (latest - lookback_days) = true ∧
    from_date = Dates.strftime (latest - lookback_days).

(** [r'] is [r] with each of the date columns [cols] that the frame has
    passed through [pd.to_datetime]. *)
Definition dates_converted (cols : list string) (present : gset string)
    (r r' : gmap string value) : Prop :=
  ∀ c, if decide (c ∈ cols ∧ c ∈ present)
       then ∃ v, Pandas.to_datetime (Pandas.cell r c) = Ok v ∧ r' !! c = Some v
       else r' !! c = r !! c.



(** The same world with no snapshot file on disk. *)
Definition ipos_without_file (w : Ipos.world) : Ipos.world :=
  {| Ipos.ipos_file := None; Ipos.get_ipos := Ipos.get_ipos w |}.

(** * Properties *)

(** ** Calendar arithmetic *)
Section Calendar.
Import Dates.

Lemma check_range_spec f lo p :
  check_range f lo p = true → ∀ d, lo ≤ d < lo + Zpos p → f d = true.
Proof.
  revert lo. induction p as [q IH|q IH|]; intros lo H d Hd; simpl in H.
  - apply andb_true_iff in H as [H H3]. apply andb_true_iff in H as [H1 H2].
    destruct (Z_lt_ge_dec d (lo + Zpos q)) as [?|?]; [apply (IH lo); [done|lia]|].
    destruct (Z_lt_ge_dec d (lo + Zpos q + Zpos q)) as [?|?];
      [apply (IH (lo + Zpos q)); [done|lia]|].
    replace d with (lo + Zpos q + Zpos q) by lia. done.
  - apply andb_true_iff in H as [H1 H2].
    destruct (Z_lt_ge_dec d (lo + Zpos q)) as [?|?]; [apply (IH lo); [done|lia]|].
    apply (IH (lo + Zpos q)); [done|lia].
  - replace d with lo by lia. done.
Qed.

Lemma month_day_spec (leap : bool) (r : Z) :
  0 ≤ r < 365 + (if leap then 1 else 0) → month_day_ok leap r = true.
Proof.
  intros Hr. destruct leap.
  - apply (check_range_spec (month_day_ok true) 0 366); [vm_compute; reflexivity | lia].
  - apply (check_range_spec (month_day_ok false) 0 365); [vm_compute; reflexivity | lia].
Qed.

Lemma days_before_year_decomp a b c d :
  0 ≤ b ≤ 3 → 0 ≤ c ≤ 24 → 0 ≤ d ≤ 3 →
  days_before_year (a * 400 + 1 + b * 100 + c * 4 + d)
  = 146097 * a + 36524 * b + 1461 * c + 365 * d.
Proof.
  intros Hb Hc Hd. unfold days_before_year.
  replace (a * 400 + 1 + b * 100 + c * 4 + d - 1) with (a * 400 + b * 100 + c * 4 + d) by lia.
  cbv zeta.
  assert ((a * 400 + b * 100 + c * 4 + d) / 4 = 100 * a + 25 * b + c) as ->.
  { symmetry. apply (Z.div_unique _ 4 _ d); lia. }
  assert ((a * 400 + b * 100 + c * 4 + d) / 100 = 4 * a + b) as ->.
  { symmetry. apply (Z.div_unique _ 100 _ (c * 4 + d)); lia. }
  assert ((a * 400 + b * 100 + c * 4 + d) / 400 = a) as ->.
  { symmetry. apply (Z.div_unique _ 400 _ (b * 100 + c * 4 + d)); lia. }
  lia.
Qed.

Lemma is_leap_decomp a b c d :
  0 ≤ b ≤ 3 → 0 ≤ c ≤ 24 → 0 ≤ d ≤ 3 →
  is_leap (a * 400 + 1 + b * 100 + c * 4 + d)
  = (d =? 3) && (negb (c =? 24) || (b =? 3)).
Proof.
  intros Hb Hc Hd. unfold is_leap.
  set (y := a * 400 + 1 + b * 100 + c * 4 + d).
  assert (y mod 4 = (d + 1) mod 4) as E4.
  { unfold y. replace (a * 400 + 1 + b * 100 + c * 4 + d) with ((d + 1) + (100 * a + 25 * b + c) * 4) by lia.
    apply Z.mod_add. lia. }
  assert (y mod 100 = (c * 4 + d + 1) mod 100) as E100.
  { unfold y. replace (a * 400 + 1 + b * 100 + c * 4 + d) with ((c * 4 + d + 1) + (4 * a + b) * 100) by lia.
    apply Z.mod_add. lia. }
  assert (y mod 400 = (b * 100 + c * 4 + d + 1) mod 400) as E400.
  { unfold y. replace (a * 400 + 1 + b * 100 + c * 4 + d) with ((b * 100 + c * 4 + d + 1) + a * 400) by lia.
    apply Z.mod_add. lia. }
  rewrite E4, E100, E400.
  assert (d = 0 ∨ d = 1 ∨ d = 2 ∨ d = 3) as Hd' by lia.
  destruct Hd' as [-> | [-> | [-> | ->]]]; try reflexivity.
  change ((3 + 1) mod 4 =? 0) with true. change (3 =? 3) with true. cbn [andb].
  destruct (Z.eqb_spec c 24) as [->|Hc'].
  - cbn [negb orb]. change ((24 * 4 + 3 + 1) mod 100 =? 0) with true. cbn [negb orb].
    assert (b = 0 ∨ b = 1 ∨ b = 2 ∨ b = 3) as Hb' by lia.
    destruct Hb' as [-> | [-> | [-> | ->]]]; reflexivity.
  - cbn [negb orb].
    rewrite Z.mod_small by lia.
    destruct (Z.eqb_spec (c * 4 + 3 + 1) 0); [lia|]. reflexivity.
Qed.

Lemma days_before_month_leap y m :
  days_before_month y m
  = days_before_month 1 m + (if (2 <? m) && is_leap y then 1 else 0).
Proof.
  unfold days_before_month. change (is_leap 1) with false.
  rewrite andb_false_r. lia.
Qed.

Lemma days_in_month_leap y m :
  days_in_month y m
  = days_in_month 1 m + (if (m =? 2) && is_leap y then 1 else 0).
Proof.
  unfold days_in_month. change (is_leap 1) with false.
  destruct (m =? 2); cbn [andb]; [destruct (is_leap y); lia|].
  destruct ((m =? 4) || (m =? 6) || (m =? 9) || (m =? 11)); lia.
Qed.

Lemma ord2ymd_spec n :
  1 ≤ n →
  ∃ y m d, ord2ymd n = (y, m, d) ∧ ymd2ord y m d = n ∧
    1 ≤ m ≤ 12 ∧ 1 ≤ d ≤ days_in_month y m ∧
    (n - 1) / 146097 * 400 + 1 ≤ y ≤ (n - 1) / 146097 * 400 + 400.
Proof.
  intros Hn. unfold ord2ymd, DI400Y, DI100Y, DI4Y.
  set (N := n - 1).
  set (a := N / 146097). set (r1 := N mod 146097).
  set (b := r1 / 36524). set (r2 := r1 mod 36524).
  set (c := r2 / 1461). set (r3 := r2 mod 1461).
  set (d := r3 / 365). set (r4 := r3 mod 365).
  cbv zeta.
  assert (N = 146097 * a + r1 ∧ 0 ≤ r1 < 146097) as [EN Hr1].
  { split; [apply Z.div_mod; lia | apply Z.mod_pos_bound; lia]. }
  assert (r1 = 36524 * b + r2 ∧ 0 ≤ r2 < 36524) as [E1 Hr2].
  { split; [apply Z.div_mod; lia | apply Z.mod_pos_bound; lia]. }
  assert (r2 = 1461 * c + r3 ∧ 0 ≤ r3 < 1461) as [E2 Hr3].
  { split; [apply Z.div_mod; lia | apply Z.mod_pos_bound; lia]. }
  assert (r3 = 365 * d + r4 ∧ 0 ≤ r4 < 365) as [E3 Hr4].
  { split; [apply Z.div_mod; lia | apply Z.mod_pos_bound; lia]. }
  clearbody a r1 b r2 c r3 d r4.
  assert (0 ≤ b ≤ 4) as Hb by lia.
  assert (0 ≤ c ≤ 24) as Hc by lia.
  assert (0 ≤ d ≤ 4) as Hd by lia.
  destruct (Z.eqb_spec b 4) as [Eb|Eb].
  { (* last day of a 400-year cycle *)
    rewrite orb_true_r.
    assert (r2 = 0 ∧ c = 0 ∧ r3 = 0 ∧ d = 0 ∧ r4 = 0) as (-> & -> & -> & -> & ->) by lia.
    subst b. eexists _, _, _. split; [reflexivity|].
    replace (a * 400 + 1 + 4 * 100 + 0 * 4 + 0 - 1)
      with (a * 400 + 1 + 3 * 100 + 24 * 4 + 3) by lia.
    unfold ymd2ord. rewrite days_before_month_leap, days_in_month_leap,
      days_before_year_decomp, is_leap_decomp by lia.
    change (days_before_month 1 12) with 334. change (days_in_month 1 12) with 31.
    cbn -[Z.add Z.mul Z.div]. split_and!; lia. }
  destruct (Z.eqb_spec d 4) as [Ed|Ed].
  { (* last day of a leap year *)
    rewrite orb_true_l.
    assert (r4 = 0 ∧ r3 = 1460 ∧ c ≤ 23 ∧ b ≤ 3) as (-> & -> & Hc' & Hb') by lia.
    subst d. eexists _, _, _. split; [reflexivity|].
    replace (a * 400 + 1 + b * 100 + c * 4 + 4 - 1)
      with (a * 400 + 1 + b * 100 + c * 4 + 3) by lia.
    unfold ymd2ord. rewrite days_before_month_leap, days_in_month_leap,
      days_before_year_decomp, is_leap_decomp by lia.
    change (days_before_month 1 12) with 334. change (days_in_month 1 12) with 31.
    destruct (Z.eqb_spec c 24); [lia|].
    cbn -[Z.add Z.mul Z.div]. split_and!; lia. }
  cbn [orb].
  assert (0 ≤ b ≤ 3 ∧ 0 ≤ d ≤ 3) as [Hb' Hd'] by lia.
  rewrite <- (is_leap_decomp a b c d) by lia.
  set (y := a * 400 + 1 + b * 100 + c * 4 + d).
  pose proof (month_day_spec (is_leap y) r4) as Hmd.
  unfold month_day_ok in Hmd.
  destruct (month_day (is_leap y) r4) as [m dd].
  eexists _, _, _. split; [reflexivity|].
  assert (0 ≤ r4 < 365 + (if is_leap y then 1 else 0)) as Hr4' by (destruct (is_leap y); lia).
  specialize (Hmd Hr4').
  rewrite !andb_true_iff in Hmd. destruct Hmd as [[[[H1 H2] H3] H4] H5].
  unfold ymd2ord. rewrite days_before_month_leap, days_in_month_leap.
  unfold y at 1. rewrite days_before_year_decomp by lia.
  fold y. unfold y at 3 4. lia.
Qed.

Lemma digit_val_digit n : digit_val (digit n) = Some (n mod 10).
Proof.
  pose proof (Z.mod_pos_bound n 10 ltac:(lia)) as H. unfold digit.
  assert (n mod 10 = 0 ∨ n mod 10 = 1 ∨ n mod 10 = 2 ∨ n mod 10 = 3 ∨
          n mod 10 = 4 ∨ n mod 10 = 5 ∨ n mod 10 = 6 ∨ n mod 10 = 7 ∨
          n mod 10 = 8 ∨ n mod 10 = 9) as Hc by lia.
  repeat destruct Hc as [Hc|Hc]; rewrite Hc; reflexivity.
Qed.

Lemma number_pad2 n :
  0 ≤ n ≤ 99 → number 0 (list_ascii_of_string (pad2 n)) = Some n.
Proof.
  intros Hn. unfold pad2. cbn [list_ascii_of_string number].
  rewrite !digit_val_digit. f_equal.
  Z.div_mod_to_equations. lia.
Qed.

Lemma number_pad4 n :
  0 ≤ n ≤ 9999 → number 0 (list_ascii_of_string (pad4 n)) = Some n.
Proof.
  intros Hn. unfold pad4, pad2. cbn [list_ascii_of_string number].
  rewrite !digit_val_digit. f_equal.
  Z.div_mod_to_equations. lia.
Qed.

Lemma parse_ymd_format y m d :
  0 ≤ y ≤ 9999 → 0 ≤ m ≤ 99 → 0 ≤ d ≤ 99 →
  parse_ymd (pad4 y +:+ "-" +:+ pad2 m +:+ "-" +:+ pad2 d) = Some (y, m, d).
Proof.
  intros Hy Hm Hd.
  pose proof (number_pad4 y Hy) as Ey.
  pose proof (number_pad2 m Hm) as Em.
  pose proof (number_pad2 d Hd) as Ed.
  unfold parse_ymd, pad4, pad2 in *.
  cbn [list_ascii_of_string] in *.
  cbv [String.append list_ascii_of_string].
  rewrite !bool_decide_eq_true_2 by done. cbn [andb].
  rewrite Ey, Em, Ed. reflexivity.
Qed.

Lemma days_in_month_le y m : days_in_month y m ≤ 31.
Proof.
  unfold days_in_month.
  destruct (m =? 2); [destruct (is_leap y); lia|].
  destruct ((m =? 4) || (m =? 6) || (m =? 9) || (m =? 11)); lia.
Qed.

(** Formatting a representable day and parsing it back is the identity. *)
Lemma parse_date_strftime n :
  in_bounds n = true → parse_date (strftime n) = Ok n.
Proof.
  intros Hb. pose proof Hb as Hb'. unfold in_bounds, ts_min, ts_max in Hb'.
  apply andb_true_iff in Hb' as [Hlo Hhi].
  apply Z.leb_le in Hlo, Hhi.
  destruct (ord2ymd_spec n ltac:(lia)) as (y & m & d & E & Eo & Hm & Hd & Hy).
  pose proof (days_in_month_le y m) as Hdim.
  assert (4 ≤ (n - 1) / 146097 ≤ 5) as Ha.
  { split; [apply Z.div_le_lower_bound; lia |].
    enough ((n - 1) / 146097 < 6) by lia. apply Z.div_lt_upper_bound; lia. }
  unfold parse_date, strftime. rewrite E.
  rewrite parse_ymd_format by lia.
  assert (valid_ymd y m d = true) as ->.
  { unfold valid_ymd. rewrite !andb_true_iff, !Z.leb_le. lia. }
  rewrite Eo, Hb. reflexivity.
Qed.

End Calendar.

(** ** Deduplication keeps the first record of every key *)
Section KeepFirst.
Context {A K : Type} `{EqDecision K} (key : A → K).

Lemma keep_first_elem x seen l :
  x ∈ keep_first key seen l → x ∈ l ∧ key x ∉ seen.
Proof.
  revert seen. induction l as [|y l IH]; intros seen; simpl.
  - intros Hx. by apply elem_of_nil in Hx.
  - destruct (decide (key y ∈ seen)) as [Hy|Hy].
    + intros [? ?]%IH. split; [by right|done].
    + intros [->|Hx]%elem_of_cons; [split; [by left|done]|].
      apply IH in Hx as [? Hs]. split; [by right|].
      intros ?. apply Hs. by right.
Qed.

Lemma keep_first_NoDup seen l : NoDup (key <$> keep_first key seen l).
Proof.
  revert seen. induction l as [|y l IH]; intros seen; simpl.
  - constructor.
  - destruct (decide (key y ∈ seen)); [apply IH|].
    rewrite fmap_cons. constructor; [|apply IH].
    intros (x & Hk & Hx)%list_elem_of_fmap.
    apply keep_first_elem in Hx as [_ Hs]. apply Hs. rewrite <- Hk. by left.
Qed.

(** A record is kept when no earlier record and no seen key has its key. *)
Lemma keep_first_first seen l1 x l2 :
  key x ∉ seen → (∀ y, y ∈ l1 → key y ≠ key x) →
  x ∈ keep_first key seen (l1 ++ x :: l2).
Proof.
  revert seen. induction l1 as [|y l1 IH]; intros seen Hs Hl; simpl.
  - rewrite decide_False by done. by left.
  - destruct (decide (key y ∈ seen)).
    + apply IH; [done|]. intros z Hz. apply Hl. by right.
    + right. apply IH.
      * intros [E|?]%elem_of_cons; [|done]. apply (Hl y); [by left|done].
      * intros z Hz. apply Hl. by right.
Qed.

(** Conversely, every kept record is the first of its key. *)
Lemma keep_first_is_first x seen l :
  x ∈ keep_first key seen l →
  ∃ l1 l2, l = l1 ++ x :: l2 ∧ ∀ y, y ∈ l1 → key y ≠ key x.
Proof.
  revert seen. induction l as [|y l IH]; intros seen; simpl.
  - intros Hx. by apply elem_of_nil in Hx.
  - destruct (decide (key y ∈ seen)) as [Hy|Hy].
    + intros Hx. pose proof (keep_first_elem _ _ _ Hx) as [_ Hs].
      apply IH in Hx as (l1 & l2 & -> & Hl). exists (y :: l1), l2.
      split; [done|]. intros z [->|?]%elem_of_cons; [congruence|by apply Hl].
    + intros [->|Hx]%elem_of_cons.
      * exists [], l. split; [done|]. intros z Hz. by apply elem_of_nil in Hz.
      * pose proof (keep_first_elem _ _ _ Hx) as [_ Hs].
        apply IH in Hx as (l1 & l2 & -> & Hl). exists (y :: l1), l2.
        split; [done|]. intros z [->|?]%elem_of_cons; [|by apply Hl].
        intros E. apply Hs. rewrite E. by left.
Qed.

(** Two kept records with the same key are the same record. *)
Lemma keep_first_unique x y seen l :
  x ∈ keep_first key seen l → y ∈ keep_first key seen l →
  key x = key y → x = y.
Proof.
  pose proof (keep_first_NoDup seen l) as Hnd.
  induction (keep_first key seen l) as [|z k IH]; [by intros ?%elem_of_nil|].
  rewrite fmap_cons in Hnd. apply NoDup_cons in Hnd as [Hz Hnd].
  intros [->|Hx]%elem_of_cons [->|Hy]%elem_of_cons E; [done| | |by apply IH].
  - exfalso. apply Hz. rewrite E. by apply list_elem_of_fmap_2.
  - exfalso. apply Hz. rewrite <- E. by apply list_elem_of_fmap_2.
Qed.

(** The seen keys matter only as a set. *)
Lemma keep_first_seen_equiv seen seen' l :
  (∀ k, k ∈ seen ↔ k ∈ seen') →
  keep_first key seen l = keep_first key seen' l.
Proof.
  revert seen seen'. induction l as [|y l IH]; intros seen seen' E; simpl; [done|].
  destruct (decide (key y ∈ seen)) as [Hy|Hy];
    [rewrite decide_True by (by apply E)|rewrite decide_False by (by rewrite <- E)].
  - by apply IH.
  - f_equal. apply IH. intros k. rewrite !elem_of_cons. by rewrite E.
Qed.

Lemma keep_first_app seen l1 l2 :
  keep_first key seen (l1 ++ l2)
  = keep_first key seen l1
    ++ keep_first key ((key <$> l1) ++ seen) l2.
Proof.
  revert seen. induction l1 as [|y l1 IH]; intros seen; simpl; [done|].
  destruct (decide (key y ∈ seen)) as [Hy|Hy].
  - rewrite IH. f_equal. apply keep_first_seen_equiv. intros k.
    rewrite elem_of_cons, !elem_of_app. naive_solver.
  - simpl. f_equal. rewrite IH. f_equal. apply keep_first_seen_equiv.
    intros k. rewrite !elem_of_cons, !elem_of_app, !elem_of_cons. naive_solver.
Qed.

(** A list without duplicate keys is left alone. *)
Lemma keep_first_id seen l :
  NoDup (key <$> l) → (∀ x, x ∈ l → key x ∉ seen) →
  keep_first key seen l = l.
Proof.
  revert seen. induction l as [|y l IH]; intros seen Hnd Hs; simpl; [done|].
  rewrite fmap_cons in Hnd. apply NoDup_cons in Hnd as [Hy Hnd].
  rewrite decide_False by (apply Hs; by left).
  f_equal. apply IH; [done|]. intros x Hx [E|?]%elem_of_cons.
  - apply Hy. rewrite <- E. by apply list_elem_of_fmap_2.
  - by apply (Hs x); [right|].
Qed.

Lemma keep_first_length seen l : (length (keep_first key seen l) ≤ length l)%nat.
Proof.
  revert seen. induction l as [|y l IH]; intros seen; simpl; [done|].
  destruct (decide (key y ∈ seen)); simpl; [etrans; [apply IH|lia]|].
  specialize (IH (key y :: seen)). lia.
Qed.

End KeepFirst.

(** ** Frames *)
Section Frames.
Import Pandas.

Lemma rmap_Forall2 {A B} (f : A → result B) l l' :
  rmap f l = Ok l' ↔ Forall2 (λ a b, f a = Ok b) l l'.
Proof.
  revert l'. induction l as [|a l IH]; intros l'; simpl.
  - split; [intros [= <-]; constructor | by intros ->%Forall2_nil_inv_l].
  - split.
    + destruct (f a) as [b|e] eqn:Ea; simpl; [|done].
      destruct (rmap f l) as [bs|e] eqn:El; simpl; [|done].
      intros [= <-]. constructor; [done|]. by apply IH.
    + intros (b & bs & Eb & Hl & ->)%Forall2_cons_inv_l.
      rewrite Eb. simpl. apply IH in Hl. rewrite Hl. done.
Qed.

Lemma converted_timestamp c r r' :
  has_timestamp c r → converted c r r' → r' = r.
Proof.
  intros [d Hd] (v & Hv & ->). unfold cell in Hv. rewrite Hd in Hv.
  simpl in Hv. injection Hv as <-. by apply insert_id.
Qed.

Lemma converted_cell_other c c' r r' :
  c' ≠ c → converted c r r' → cell r' c' = cell r c'.
Proof.
  intros Hne (v & _ & ->). unfold cell. by rewrite lookup_insert_ne.
Qed.

Lemma convert_column_inv df c df' :
  convert_column df c = Ok df' →
  c ∈ columns df ∧ columns df' = columns df ∧
  Forall2 (converted c) (rows df) (rows df').
Proof.
  unfold convert_column, getitem.
  destruct (decide (c ∈ columns df)) as [Hc|Hc]; simpl; [|done].
  destruct (rmap to_datetime _) as [vs|e] eqn:E; simpl; [|done].
  intros [= <-]. split; [done|]. split; [simpl; set_solver|].
  apply rmap_Forall2 in E. simpl. clear Hc.
  revert vs E. induction (rows df) as [|r l IH]; intros vs E.
  - apply Forall2_nil_inv_l in E as ->. constructor.
  - rewrite fmap_cons in E.
    apply Forall2_cons_inv_l in E as (v & vs' & Ev & E & ->).
    simpl. constructor; [by exists v|by apply IH].
Qed.

Lemma convert_column_intro df c l' :
  c ∈ columns df → Forall2 (converted c) (rows df) l' →
  convert_column df c = Ok {| columns := columns df ∪ {[c]}; rows := l' |}.
Proof.
  intros Hc Hl. unfold convert_column, getitem.
  rewrite decide_True by done. simpl.
  assert (∃ vs, Forall2 (λ a b, to_datetime a = Ok b)
                  ((λ r, cell r c) <$> rows df) vs
              ∧ zip_with (λ r v, <[c:=v]> r) (rows df) vs = l') as (vs & E & Z).
  { clear Hc. induction Hl as [|r r' l k (v & Hv & ->) _ (vs & E & Z)].
    - exists []. split; [constructor|done].
    - exists (v :: vs). split; [by constructor|]. simpl. by rewrite Z. }
  apply rmap_Forall2 in E. rewrite E. simpl. unfold setitem. by rewrite Z.
Qed.

Lemma drop_duplicates_inv K df df' :
  drop_duplicates K df = Ok df' →
  columns df' = columns df ∧ rows df' = keep_first (key_of K) [] (rows df).
Proof.
  unfold drop_duplicates. destruct (filter _ K); [|done]. by intros [= <-].
Qed.

Lemma elem_of_from_records_columns c F :
  c ∈ columns (from_records F) ↔ ∃ r, r ∈ F ∧ is_Some (r !! c).
Proof.
  unfold from_records. simpl. rewrite elem_of_union_list. split.
  - intros (X & (r & -> & Hr)%list_elem_of_fmap & Hc).
    exists r. split; [done|]. by apply elem_of_dom.
  - intros (r & Hr & Hc). exists (dom r).
    split; [by apply list_elem_of_fmap_2|by apply elem_of_dom].
Qed.

(** [pd.DataFrame(records)] is empty exactly when no record has a field. *)
Lemma from_records_empty F :
  Pandas.empty (Pandas.from_records F) = true ↔ ∀ r, r ∈ F → r = ∅.
Proof.
  unfold Pandas.empty. rewrite orb_true_iff, !bool_decide_eq_true. split.
  - intros [H|H] r Hr; [|simpl in H; subst F; by apply elem_of_nil in Hr].
    apply map_eq. intros c. rewrite lookup_empty.
    destruct (r !! c) as [v|] eqn:E; [exfalso|done].
    assert (c ∈ Pandas.columns (Pandas.from_records F)) as Hc
      by (apply elem_of_from_records_columns; by exists r).
    rewrite H in Hc. by apply elem_of_empty in Hc.
  - intros H. left. apply set_eq. intros c.
    rewrite elem_of_from_records_columns. split; [|by intros ?%elem_of_empty].
    intros (r & Hr & [v Hv]). rewrite (H r Hr) in Hv. by rewrite lookup_empty in Hv.
Qed.

End Frames.

(** ** What the merges compute *)
Section Merges.
Import Pandas.

(** Dividends, lines 68-95: the merged frame is the existing rows followed
    by the fetched ones, dates converted, with the first row of every key
    kept; it is the frame that is written. *)
Lemma dividends_reconcile_inv S F M W :
  F ≠ [] → Dividends.reconcile S F = Ok (M, W) →
  ∃ S' F',
    Forall2 (converted "ex_dividend_date") (rows S) S' ∧
    converted_new "ex_dividend_date" F F' ∧
    rows M = keep_first (key_of Dividends.natural_key) [] (S' ++ F') ∧
    W = Some M.
Proof.
  intros HF. unfold Dividends.reconcile. destruct F as [|f F]; [done|].
  set (new := from_records (f :: F)).
  destruct (decide ("ex_dividend_date"%string ∈ columns new)) as [Hc|Hc].
  - destruct (convert_column new _) as [new'|e] eqn:En; simpl; [|done].
    destruct (convert_column S _) as [S'|e] eqn:Es; simpl; [|done].
    destruct (drop_duplicates _ _) as [D|e] eqn:Ed; simpl; [|done].
    intros [= <- <-].
    apply convert_column_inv in En as (_ & _ & Hn).
    apply convert_column_inv in Es as (_ & _ & Hs).
    apply drop_duplicates_inv in Ed as [_ Hd].
    exists (rows S'), (rows new'). split; [done|]. split; [|done].
    unfold converted_new. by rewrite decide_True by done.
  - simpl.
    destruct (convert_column S _) as [S'|e] eqn:Es; simpl; [|done].
    destruct (drop_duplicates _ _) as [D|e] eqn:Ed; simpl; [|done].
    intros [= <- <-].
    apply convert_column_inv in Es as (_ & _ & Hs).
    apply drop_duplicates_inv in Ed as [_ Hd].
    exists (rows S'), (f :: F). split; [done|]. split; [|done].
    unfold converted_new. by rewrite decide_False by done.
Qed.

(** Ticker events, lines 100-123. *)
Lemma ticker_events_reconcile_inv S F M W :
  F ≠ [] → TickerEvents.reconcile S F = Ok (M, W) →
  ∃ S' F',
    Forall2 (converted "date") (rows S) S' ∧
    Forall2 (converted "date") F F' ∧
    rows M = keep_first (key_of TickerEvents.natural_key) [] (S' ++ F') ∧
    W = Some M.
Proof.
  intros HF. unfold TickerEvents.reconcile. destruct F as [|f F]; [done|].
  destruct (convert_column (from_records _) _) as [new'|e] eqn:En; simpl; [|done].
  destruct (convert_column S _) as [S'|e] eqn:Es; simpl; [|done].
  destruct (drop_duplicates _ _) as [D|e] eqn:Ed; simpl; [|done].
  intros [= <- <-].
  apply convert_column_inv in En as (_ & _ & Hn).
  apply convert_column_inv in Es as (_ & _ & Hs).
  apply drop_duplicates_inv in Ed as [_ Hd].
  by exists (rows S'), (rows new').
Qed.

(** Ticker events, lines 171-192: the initial import deduplicates too. *)
Lemma ticker_events_initial_import_inv F M W :
  TickerEvents.initial_import F = Ok (M, W) →
  (empty (from_records F) = true ∧ M = from_records F ∧ W = None) ∨
  (∃ F', Forall2 (converted "date") F F' ∧
         rows M = keep_first (key_of TickerEvents.natural_key) [] F' ∧
         W = Some M).
Proof.
  unfold TickerEvents.initial_import.
  destruct (empty (from_records F)) eqn:Ee.
  - intros [= <- <-]. by left.
  - destruct (convert_column _ _) as [new'|e] eqn:En; simpl; [|done].
    destruct (drop_duplicates _ _) as [D|e] eqn:Ed; simpl; [|done].
    intros [= <- <-]. right.
    apply convert_column_inv in En as (_ & _ & Hn).
    apply drop_duplicates_inv in Ed as [_ Hd].
    by exists (rows new').
Qed.

(** Fundamentals, lines 46-53, with a snapshot at hand. *)
Lemma fundamentals_reconcile_inv S F M W :
  F ≠ [] → Fundamentals.reconcile (Some S) F = Ok (M, W) →
  ∃ D, M = Some D ∧ W = Some D ∧
       rows D = keep_first (key_of Fundamentals.natural_key) [] (rows S ++ F).
Proof.
  intros HF. unfold Fundamentals.reconcile. destruct F as [|f F]; [done|].
  destruct (drop_duplicates _ _) as [D|e] eqn:Ed; simpl; [|done].
  intros [= <- <-]. apply drop_duplicates_inv in Ed as [_ Hd].
  by exists D.
Qed.

End Merges.

(** ** Batches and loops *)
Section Loops.
Context {Q : Type}.

Lemma slices_concat {A} fuel size (l : list A) :
  (0 < size)%nat → (length l ≤ fuel)%nat →
  concat (slices fuel size l) = l.
Proof.
  intros Hs. revert l. induction fuel as [|fuel IH]; intros l Hl.
  - destruct l; [done|simpl in Hl; lia].
  - destruct l as [|x l]; [done|].
    cbn [slices concat]. rewrite IH, take_drop; [done|].
    rewrite length_drop. simpl in *. lia.
Qed.

(** The batches are the list, cut in pieces. *)
Lemma batches_concat {A} (l : list A) : concat (batches l) = l.
Proof. apply slices_concat; [unfold batch_size; lia|done]. Qed.

Lemma for_each_app {A} (l1 l2 : list A) (body : A → loop Q unit) s :
  for_each (l1 ++ l2) body s
  = bind (for_each l1 body) (λ _, for_each l2 body) s.
Proof.
  revert s. induction l1 as [|x l1 IH]; intros s; simpl; [done|].
  unfold bind in *. destruct (body x s) as [s' [[]|e]]; [|done].
  by rewrite IH.
Qed.

(** Iterating batch by batch is iterating over the list. *)
Lemma for_each_batches {A} (ls : list (list A)) (body : A → loop Q unit) s :
  for_each ls (λ batch, for_each batch body) s = for_each (concat ls) body s.
Proof.
  revert s. induction ls as [|l ls IH]; intros s; [done|].
  cbn [concat]. rewrite for_each_app. cbn [for_each]. unfold bind.
  destruct (for_each l body s) as [s' [[]|e]]; [apply IH|done].
Qed.

(** A body that cannot raise makes a loop that cannot raise. *)
Lemma for_each_total {A} (l : list A) (body : A → loop Q unit)
    (step : loop_state Q → A → loop_state Q) s :
  (∀ x s, body x s = (step s x, Ok tt)) →
  for_each l body s = (foldl step s l, Ok tt).
Proof.
  intros Hb. revert s. induction l as [|x l IH]; intros s; simpl; [done|].
  unfold bind. rewrite Hb. apply IH.
Qed.

End Loops.

(** ** The fetch loops of the ticker pipelines *)
Section Fetching.
Context {Q : Type}.
Implicit Types st : loop_state Q.

Lemma consume_items (l : list (option (gmap string value))) st :
  for_each l (λ x, match x with Some d => append d | None => ret tt end) st
  = ({| acc := acc st ++ omap id l; printed := printed st; calls := calls st |},
     Ok tt).
Proof.
  revert st. induction l as [|x l IH]; intros st; simpl.
  - unfold ret. rewrite app_nil_r. by destruct st.
  - unfold bind. destruct x as [d|]; simpl.
    + rewrite IH. simpl. by rewrite <- app_assoc.
    + unfold ret. by rewrite IH.
Qed.

(** One entity: whatever its stream does, the work for it ends normally. *)
Lemma fetch_entity (q : Q) (s : stream (option (gmap string value))) st :
  try_except
    (call q >>;
     for_each (items s) (λ x, match x with
                              | Some d => append d
                              | None => ret tt
                              end) >>;
     match failure s with
     | Some e => throw e
     | None => ret tt
     end)
    print st
  = (after_stream q s st, Ok tt).
Proof.
  unfold try_except, bind, call. rewrite consume_items. cbn.
  unfold after_stream, yielded.
  destruct (failure s) as [e|]; cbn; by rewrite ?app_nil_r.
Qed.

Lemma foldl_after_stream {A} (q : A → Q)
    (f : A → stream (option (gmap string value))) (l : list A) st :
  let st' := foldl (λ st x, after_stream (q x) (f x) st) st l in
  acc st' = acc st ++ collected f l ∧
  printed st' = printed st ++ (l ≫= λ x, option_list (failure (f x))) ∧
  calls st' = calls st ++ (q <$> l).
Proof.
  revert st. induction l as [|x l IH]; intros st; cbn.
  - by rewrite !app_nil_r.
  - destruct (IH (after_stream (q x) (f x) st)) as (-> & -> & ->).
    unfold collected. cbn. by rewrite <- !app_assoc.
Qed.

End Fetching.

(** The dividends loop never raises, and its state is determined by what
    the vendor yields for each ticker. *)
Lemma dividends_fetch_all w gte tickers :
  ∃ s, run (Dividends.fetch_all w gte tickers) = Ok s ∧
       acc s = collected (λ t, Dividends.list_dividends w t gte) tickers ∧
       printed s
       = (tickers ≫= λ t, option_list (failure (Dividends.list_dividends w t gte))) ∧
       calls s = (λ t, (t, gte)) <$> tickers.
Proof.
  unfold run, Dividends.fetch_all. rewrite for_each_batches, batches_concat.
  rewrite (for_each_total _ _
    (λ st t, after_stream (t, gte) (Dividends.list_dividends w t gte) st)).
  - eexists. split; [done|].
    apply (foldl_after_stream (λ t, (t, gte))
             (λ t, Dividends.list_dividends w t gte) tickers start).
  - intros t st. apply fetch_entity.
Qed.

Lemma splits_fetch_all w gte tickers :
  ∃ s, run (Splits.fetch_all w gte tickers) = Ok s ∧
       acc s = collected (λ t, Splits.list_splits w t gte) tickers ∧
       calls s = (λ t, (t, gte)) <$> tickers.
Proof.
  unfold run, Splits.fetch_all. rewrite for_each_batches, batches_concat.
  rewrite (for_each_total _ _
    (λ st t, after_stream (t, gte) (Splits.list_splits w t gte) st)).
  - eexists. split; [done|].
    destruct (foldl_after_stream (λ t, (t, gte))
             (λ t, Splits.list_splits w t gte) tickers start) as (? & _ & ?).
    done.
  - intros t st. apply fetch_entity.
Qed.

(** ** The watermark *)
Section Watermark.
Import Pandas.

Lemma series_max_None l : series_max l = None ↔ ∀ d, VDate d ∉ l.
Proof.
  induction l as [|v l IH]; simpl.
  - split; [intros _ d ?%elem_of_nil; done|done].
  - destruct v as [|s|n|d]; try (rewrite IH; split;
      [intros H d' [?|?]%elem_of_cons; [done|by apply (H d')]
      |intros H d' ?; apply (H d'); by right]).
    destruct (series_max l); (split; [done|]); intros H; destruct (H d); by left.
Qed.

(** [max()] is an upper bound of the timestamps of the series, and one of
    them. *)
Lemma series_max_Some l m :
  series_max l = Some m ↔ VDate m ∈ l ∧ ∀ d, VDate d ∈ l → d ≤ m.
Proof.
  revert m. induction l as [|v l IH]; intros m; simpl.
  - split; [done|]. by intros [?%elem_of_nil _].
  - setoid_rewrite elem_of_cons.
    destruct v as [|s|n|d]; [rewrite IH; naive_solver..|].
    destruct (series_max l) as [m'|] eqn:E.
    + destruct (proj1 (IH m') eq_refl) as [Hm' Hle]. split.
      * intros [= <-]. split.
        -- destruct (Z.max_spec d m') as [[_ ->]|[_ ->]]; [by right|by left].
        -- intros d' [[= ->]|?%Hle]; lia.
      * intros [Hm H]. f_equal. destruct Hm as [[= ->]|Hm].
        -- specialize (H m' ltac:(by right)). lia.
        -- apply Hle in Hm. pose proof (H m' ltac:(by right)).
           specialize (H d ltac:(by left)). lia.
    + pose proof (proj1 (series_max_None l) E) as Hn. split.
      * intros [= <-]. split; [by left|].
        intros d' [[= ->]|?]; [lia|]. by destruct (Hn d').
      * intros [[[= ->]|?] _]; [done|]. by destruct (Hn m).
Qed.

(** The from-date is the latest timestamp of the column, seven days
    earlier, as text. *)
Lemma from_date_of_latest column dates latest :
  rmap to_datetime column = Ok dates →
  VDate latest ∈ dates → (∀ d, VDate d ∈ dates → d ≤ latest) →
  Dates.in_bounds (latest - lookback_days) = true →
  from_date_of column = Ok (Dates.strftime (latest - lookback_days)).
Proof.
  intros Hd Hin Hmax Hb. unfold from_date_of. rewrite Hd. simpl.
  rewrite (proj2 (series_max_Some dates latest)) by done.
  unfold Dates.sub_days. by rewrite Hb.
Qed.

(** The from-date can be computed exactly when the column converts, holds
    a timestamp, and the day a week before the latest one is
    representable. *)
Lemma from_date_of_boundary column from_date :
  from_date_of column = Ok from_date ↔ lookback_boundary column from_date.
Proof.
  split.
  - unfold from_date_of, Dates.sub_days.
    destruct (rmap to_datetime column) as [dates|e] eqn:Ed; simpl; [|done].
    destruct (series_max dates) as [latest|] eqn:Em; [|done].
    destruct (Dates.in_bounds (latest - lookback_days)) eqn:Eb; simpl; [|done].
    intros [= <-]. apply series_max_Some in Em as [Hin Hmax].
    by exists dates, latest.
  - intros (dates & latest & Hd & Hin & Hmax & Hb & ->).
    by apply (from_date_of_latest column dates latest).
Qed.

(** A from-date reads back as the timestamp it was printed from. *)
Lemma from_date_reads_back column from_date :
  from_date_of column = Ok from_date →
  ∃ latest, series_max <$> rmap to_datetime column = Ok (Some latest) ∧
            to_datetime (VStr from_date) = Ok (VDate (latest - lookback_days)).
Proof.
  unfold from_date_of, Dates.sub_days.
  destruct (rmap to_datetime column) as [dates|e] eqn:Ed; simpl; [|done].
  destruct (series_max dates) as [latest|] eqn:Em; [|done].
  destruct (Dates.in_bounds (latest - lookback_days)) eqn:Eb; simpl; [|done].
  intros [= <-]. exists latest. split; [done|].
  by rewrite (parse_date_strftime _ Eb).
Qed.

End Watermark.

(** ** Runs of the dividends pipeline *)
Section DividendRuns.
Import Pandas.
Context (w : Dividends.world) (meta : DataFrame) (tickers : list value).
Hypothesis universe : Dividends.all_ticker_meta w = Ok meta.
Hypothesis ticker_column : getitem meta "ticker" = Ok tickers.

(** Without a usable snapshot every ticker is asked for its whole history,
    and what comes back is returned as it is. *)
Lemma dividends_full_run :
  (∀ S, load_existing (Dividends.dividends_file w) = Some S → empty S = true) →
  let all := keep_first id [] tickers in
  let F := collected (λ t, Dividends.list_dividends w t None) all in
  Dividends.update_dividend_history w
  = Ok {| returned := Some (from_records F);
          written := if empty (from_records F) then None
                     else Some (from_records F);
          logged := all ≫= (λ t, option_list
                      (failure (Dividends.list_dividends w t None)));
          requests := (λ t, (t, None)) <$> all |}.
Proof.
  intros He all F. unfold Dividends.update_dividend_history.
  rewrite universe. simpl. rewrite ticker_column. simpl.
  destruct (dividends_fetch_all w None all) as (s & Hr & Ha & Hp & Hc).
  fold all. unfold Dividends.finish, Dividends.initial_import.
  destruct (load_existing _) as [S|] eqn:El.
  - rewrite (He S eq_refl), Hr. simpl. by rewrite Ha, Hp, Hc.
  - rewrite Hr. simpl. by rewrite Ha, Hp, Hc.
Qed.

(** With a snapshot, every ticker is asked for what is new since the
    from-date, and the answer is merged into the snapshot. *)
Lemma dividends_incremental_run S column from_date :
  load_existing (Dividends.dividends_file w) = Some S → empty S = false →
  getitem S "ex_dividend_date" = Ok column →
  from_date_of column = Ok from_date →
  let all := keep_first id [] tickers in
  let F := collected (λ t, Dividends.list_dividends w t (Some from_date)) all in
  Dividends.update_dividend_history w
  = (r ← Dividends.reconcile S F;
     Ok {| returned := Some r.1; written := r.2;
           logged := all ≫= (λ t, option_list
                       (failure (Dividends.list_dividends w t (Some from_date))));
           requests := (λ t, (t, Some from_date)) <$> all |}).
Proof.
  intros El He Hc Hf all F. unfold Dividends.update_dividend_history.
  rewrite universe. simpl. rewrite ticker_column. simpl.
  rewrite El, He, Hc. simpl. rewrite Hf. simpl.
  destruct (dividends_fetch_all w (Some from_date) all) as (s & Hr & Ha & Hp & Hcs).
  fold all. rewrite Hr. simpl. unfold Dividends.finish. by rewrite Ha, Hp, Hcs.
Qed.

End DividendRuns.

(** ** The other fetch loops *)

(** One FIGI: whatever the vendor or the events do, the work for it ends
    normally; its rows are appended together or not at all. *)
Lemma fetch_figi_total w collect figi (st : loop_state value) :
  TickerEvents.fetch_figi w collect figi st
  = ({| acc := acc st ++ figi_rows w collect figi;
        printed := printed st ++ figi_error w collect figi;
        calls := calls st ++ [figi] |}, Ok tt).
Proof.
  unfold TickerEvents.fetch_figi, try_except, bind, call, lift,
    figi_rows, figi_error, figi_outcome.
  destruct (TickerEvents.get_ticker_events w figi) as [[ev|]|e]; cbn;
    [destruct (TickerEvents.events ev) as [[|row l]|]; cbn;
       [|destruct (collect figi ev (row :: l)) as [rows|e]; cbn|]| |];
    unfold print, extend, ret; cbn; by rewrite ?app_nil_r.
Qed.

Lemma foldl_figis w collect (figis : list value) (st : loop_state value) :
  let st' := foldl (λ st figi,
               {| acc := acc st ++ figi_rows w collect figi;
                  printed := printed st ++ figi_error w collect figi;
                  calls := calls st ++ [figi] |}) st figis in
  acc st' = acc st ++ (figis ≫= figi_rows w collect) ∧
  printed st' = printed st ++ (figis ≫= figi_error w collect) ∧
  calls st' = calls st ++ figis.
Proof.
  revert st. induction figis as [|figi figis IH]; intros st; cbn.
  - by rewrite !app_nil_r.
  - destruct (IH {| acc := acc st ++ figi_rows w collect figi;
                    printed := printed st ++ figi_error w collect figi;
                    calls := calls st ++ [figi] |}) as (-> & -> & ->).
    cbn. by rewrite <- !app_assoc.
Qed.

(** The ticker-events loop never raises. *)
Lemma ticker_events_fetch_all w collect figis :
  ∃ s, run (TickerEvents.fetch_all w collect figis) = Ok s ∧
       acc s = (figis ≫= figi_rows w collect) ∧
       printed s = (figis ≫= figi_error w collect) ∧
       calls s = figis.
Proof.
  unfold run, TickerEvents.fetch_all. rewrite for_each_batches, batches_concat.
  rewrite (for_each_total _ _
    (λ st figi, {| acc := acc st ++ figi_rows w collect figi;
                   printed := printed st ++ figi_error w collect figi;
                   calls := calls st ++ [figi] |})).
  - eexists. split; [done|]. apply (foldl_figis w collect figis start).
  - intros figi st. apply fetch_figi_total.
Qed.

(** One ticker of the fundamentals loop. *)
Lemma fundamentals_fetch_ticker w processed ticker (st : loop_state value) :
  Fundamentals.fetch_ticker w processed ticker st
  = (if decide (ticker ∈ processed) then st
     else {| acc := acc st ++ filings w ticker;
             printed := printed st ++ option_list
               (failure (Fundamentals.list_stock_financials w ticker));
             calls := calls st ++ [ticker] |}, Ok tt).
Proof.
  unfold Fundamentals.fetch_ticker, filings.
  destruct (decide (ticker ∈ processed)); [done|].
  unfold try_except, bind, call. cbn.
  set (f := λ fin : gmap string value, fin ∪ {["ticker"%string := ticker]}).
  assert (∀ l (st : loop_state value),
    for_each l (λ fin, append (f fin)) st
    = ({| acc := acc st ++ (f <$> l); printed := printed st;
          calls := calls st |}, Ok tt)) as Hl.
  { induction l as [|x l IH]; intros st'; cbn.
    - unfold ret. rewrite app_nil_r. by destruct st'.
    - unfold bind, append. rewrite IH. cbn. by rewrite <- app_assoc. }
  rewrite Hl. cbn.
  destruct (failure _) as [e|]; cbn; by rewrite ?app_nil_r.
Qed.

Lemma foldl_fundamentals w (processed tickers : list value)
    (st : loop_state value) :
  let todo := filter (λ t, t ∉ processed) tickers in
  let st' := foldl (λ st ticker,
               if decide (ticker ∈ processed) then st
               else {| acc := acc st ++ filings w ticker;
                       printed := printed st ++ option_list
                         (failure (Fundamentals.list_stock_financials w ticker));
                       calls := calls st ++ [ticker] |}) st tickers in
  acc st' = acc st ++ (todo ≫= filings w) ∧
  printed st' = printed st ++ (todo ≫= λ t, option_list
                  (failure (Fundamentals.list_stock_financials w t))) ∧
  calls st' = calls st ++ todo.
Proof.
  revert st. induction tickers as [|t tickers IH]; intros st.
  - cbn. by rewrite !app_nil_r.
  - cbv zeta in *. rewrite filter_cons. cbn [foldl].
    destruct (decide (t ∈ processed)) as [Hin|Hin].
    + rewrite decide_False by (intros ?; done). apply IH.
    + rewrite decide_True by done.
      destruct (IH {| acc := acc st ++ filings w t;
                      printed := printed st ++ option_list
                        (failure (Fundamentals.list_stock_financials w t));
                      calls := calls st ++ [t] |}) as (-> & -> & ->).
      cbn. by rewrite <- !app_assoc.
Qed.

(** The fundamentals loop never raises; it asks the vendor about the
    tickers that are not processed yet, and about no other. *)
Lemma fundamentals_fetch_all w processed tickers :
  ∃ s, run (for_each tickers (Fundamentals.fetch_ticker w processed)) = Ok s ∧
       acc s = (filter (λ t, t ∉ processed) tickers ≫= filings w) ∧
       printed s = (filter (λ t, t ∉ processed) tickers ≫= λ t, option_list
                      (failure (Fundamentals.list_stock_financials w t))) ∧
       calls s = filter (λ t, t ∉ processed) tickers.
Proof.
  unfold run.
  rewrite (for_each_total _ _
    (λ st ticker,
       if decide (ticker ∈ processed) then st
       else {| acc := acc st ++ filings w ticker;
               printed := printed st ++ option_list
                 (failure (Fundamentals.list_stock_financials w ticker));
               calls := calls st ++ [ticker] |})).
  - eexists. split; [done|]. apply (foldl_fundamentals w processed tickers start).
  - intros t st. rewrite fundamentals_fetch_ticker. by destruct (decide _).
Qed.

(** ** Which version of a record survives a merge *)
Section Versions.
Import Pandas.
Context {A K : Type} `{EqDecision K} (key : A → K).

Lemma NoDup_fmap_eq (l : list A) x y :
  NoDup (key <$> l) → x ∈ l → y ∈ l → key x = key y → x = y.
Proof.
  induction l as [|z l IH]; [by intros _ ?%elem_of_nil|].
  rewrite fmap_cons. intros [Hz Hnd]%NoDup_cons.
  intros [->|Hx]%elem_of_cons [->|Hy]%elem_of_cons E; [done| | |by apply IH].
  - exfalso. apply Hz. rewrite E. by apply list_elem_of_fmap_2.
  - exfalso. apply Hz. rewrite <- E. by apply list_elem_of_fmap_2.
Qed.

(** Every key of a list has a first row. *)
Lemma first_of_key (l : list A) x :
  x ∈ l →
  ∃ l1 e l2, l = l1 ++ e :: l2 ∧ key e = key x ∧ ∀ y, y ∈ l1 → key y ≠ key x.
Proof.
  induction l as [|z l IH]; [by intros ?%elem_of_nil|].
  intros Hx. destruct (decide (key z = key x)) as [E|E].
  - exists [], z, l. split; [done|]. split; [done|]. by intros y ?%elem_of_nil.
  - apply elem_of_cons in Hx as [->|Hx]; [done|].
    destruct (IH Hx) as (l1 & e & l2 & -> & Ee & Hl).
    exists (z :: l1), e, l2. split; [done|]. split; [done|].
    intros y [->|?]%elem_of_cons; [done|by apply Hl].
Qed.

Lemma keep_first_existing_wins (S' F' : list A) s f :
  s ∈ S' → f ∈ F' → key s = key f →
  ∃ e, e ∈ S' ∧ key e = key f ∧ e ∈ keep_first key [] (S' ++ F') ∧
       (∀ m, m ∈ keep_first key [] (S' ++ F') → key m = key f → m = e) ∧
       (NoDup (key <$> S') → e = s).
Proof.
  intros Hs Hf E.
  destruct (first_of_key S' s Hs) as (l1 & e & l2 & -> & Ee & Hl).
  assert (e ∈ keep_first key [] ((l1 ++ e :: l2) ++ F')) as He.
  { rewrite <- app_assoc. simpl. apply keep_first_first.
    - by intros ?%elem_of_nil.
    - intros y Hy. rewrite Ee. by apply Hl. }
  exists e. split; [set_solver|]. split; [congruence|]. split; [done|]. split.
  - intros m Hm Em. apply (keep_first_unique key m e [] _ Hm He). congruence.
  - intros Hnd. apply (NoDup_fmap_eq _ e s Hnd); [set_solver|done|done].
Qed.

(** Existing rows with distinct keys all survive, in their order, and the
    fetched rows that bring a new key follow them. *)
Lemma keep_first_prefix (S' F' : list A) :
  NoDup (key <$> S') →
  keep_first key [] (S' ++ F') = S' ++ keep_first key (key <$> S') F'.
Proof.
  intros Hnd. rewrite keep_first_app, app_nil_r. f_equal.
  apply keep_first_id; [done|]. by intros x _ ?%elem_of_nil.
Qed.

End Versions.

Lemma Forall2_elem_of_l {A B} (R : A → B → Prop) l l' x :
  Forall2 R l l' → x ∈ l → ∃ y, y ∈ l' ∧ R x y.
Proof.
  induction 1 as [|a b l l' HR _ IH]; [by intros ?%elem_of_nil|].
  intros [->|Hx]%elem_of_cons.
  - exists b. split; [by left|done].
  - destruct (IH Hx) as (y & ? & ?). exists y. split; [by right|done].
Qed.

Lemma Forall2_elem_of_r {A B} (R : A → B → Prop) l l' y :
  Forall2 R l l' → y ∈ l' → ∃ x, x ∈ l ∧ R x y.
Proof.
  induction 1 as [|a b l l' HR _ IH]; [by intros ?%elem_of_nil|].
  intros [->|Hy]%elem_of_cons.
  - exists a. split; [by left|done].
  - destruct (IH Hy) as (x & ? & ?). exists x. split; [by right|done].
Qed.

(** ** Runs of the other pipelines *)
Section OtherRuns.
Import Pandas.

Lemma splits_incremental_run divide w meta tickers S column from_date :
  Splits.all_ticker_meta w = Ok meta → getitem meta "ticker" = Ok tickers →
  load_existing (Splits.splits_file w) = Some S → empty S = false →
  getitem S "execution_date" = Ok column →
  from_date_of column = Ok from_date →
  let all := keep_first id [] tickers in
  ∃ s, run (Splits.fetch_all w (Some from_date) all) = Ok s ∧
       acc s = collected (λ t, Splits.list_splits w t (Some from_date)) all ∧
       calls s = (λ t, (t, Some from_date)) <$> all ∧
       Splits.update_split_history divide w
       = (r ← Splits.reconcile divide S (acc s); Ok (Splits.finish s r)).
Proof.
  intros Hm Ht El He Hc Hf all.
  destruct (splits_fetch_all w (Some from_date) all) as (s & Hr & Ha & Hcs).
  exists s. split; [done|]. split; [done|]. split; [done|].
  unfold Splits.update_split_history. rewrite Hm. simpl. rewrite Ht. simpl.
  rewrite El, He, Hc. simpl. rewrite Hf. simpl. fold all. by rewrite Hr.
Qed.

Lemma ticker_events_incremental_run w meta figi_column S column from_date
    figi_cells :
  TickerEvents.all_ticker_meta w = Ok meta →
  getitem meta "composite_figi" = Ok figi_column →
  load_existing (TickerEvents.ticker_events_file w) = Some S →
  empty S = false →
  getitem S "date" = Ok column → from_date_of column = Ok from_date →
  getitem S "composite_figi" = Ok figi_cells →
  let figis := keep_first id [] (dropna figi_column) in
  let collect := TickerEvents.collect_new from_date (dropna figi_cells) in
  ∃ s, run (TickerEvents.fetch_all w collect figis) = Ok s ∧
       acc s = (figis ≫= figi_rows w collect) ∧
       calls s = figis ∧
       TickerEvents.update_ticker_events w
       = (r ← TickerEvents.reconcile S (acc s); Ok (TickerEvents.finish s r)).
Proof.
  intros Hm Ht El He Hc Hf Hg figis collect.
  destruct (ticker_events_fetch_all w collect figis) as (s & Hr & Ha & _ & Hcs).
  exists s. split; [done|]. split; [done|]. split; [done|].
  unfold TickerEvents.update_ticker_events. rewrite Hm. simpl. rewrite Ht. simpl.
  rewrite El, He, Hc. simpl. rewrite Hf. simpl. rewrite Hg. simpl.
  fold figis. fold collect. by rewrite Hr.
Qed.

Lemma fundamentals_run w meta column :
  Fundamentals.all_ticker_meta w = Ok meta →
  getitem meta "ticker" = Ok column →
  let ticker_list := dropna (keep_first id [] column) in
  let existing := load_existing (Fundamentals.fundamentals_file w) in
  let todo :=
    filter (λ t, t ∉ Fundamentals.processed_of existing) ticker_list in
  ∃ s, run (for_each ticker_list
              (Fundamentals.fetch_ticker w (Fundamentals.processed_of existing)))
       = Ok s ∧
       acc s = (todo ≫= filings w) ∧
       printed s = (todo ≫= λ t, option_list
                      (failure (Fundamentals.list_stock_financials w t))) ∧
       calls s = todo ∧
       Fundamentals.update_fundamental_history w
       = (r ← Fundamentals.reconcile existing (acc s);
          Ok {| returned := r.1; written := r.2;
                logged := printed s; requests := calls s |}).
Proof.
  intros Hm Ht ticker_list existing todo.
  destruct (fundamentals_fetch_all w (Fundamentals.processed_of existing)
              ticker_list) as (s & Hr & Ha & Hp & Hcs).
  exists s. split; [done|]. split; [done|]. split; [done|]. split; [done|].
  unfold Fundamentals.update_fundamental_history. rewrite Hm. simpl.
  rewrite Ht. simpl. fold ticker_list. fold existing. by rewrite Hr.
Qed.

(** *** The pages of the IPO endpoint *)

Lemma for_each_append {Q} (l : list (gmap string value)) (st : loop_state Q) :
  for_each l append st
  = ({| acc := acc st ++ l; printed := printed st; calls := calls st |}, Ok tt).
Proof.
  revert st. induction l as [|x l IH]; intros st; cbn.
  - unfold ret. rewrite app_nil_r. by destruct st.
  - unfold bind, append. rewrite IH. cbn. by rewrite <- app_assoc.
Qed.

(** Every page is asked for with the parameters of the first request, the
    cursor apart, and there are at most as many requests as pages
    allowed. *)
Lemma fetch_pages_calls w n p st :
  ∃ new, calls (Ipos.fetch_pages w n p st).1 = calls st ++ new ∧
         (length new ≤ n)%nat ∧
         Forall (λ q, Ipos.modified_date_gte q = Ipos.modified_date_gte p ∧
                      Ipos.sort q = Ipos.sort p ∧
                      Ipos.order q = Ipos.order p ∧
                      Ipos.limit q = Ipos.limit p) new.
Proof.
  revert p st. induction n as [|n IH]; intros p st; cbn [Ipos.fetch_pages].
  - exists []. cbn. rewrite app_nil_r. split; [done|]. split; [done|constructor].
  - assert (∀ cs : list Ipos.params,
              cs = calls st ++ [p] →
              ∃ new, cs = calls st ++ new ∧ (length new ≤ S n)%nat ∧
                Forall (λ q, Ipos.modified_date_gte q = Ipos.modified_date_gte p ∧
                             Ipos.sort q = Ipos.sort p ∧
                             Ipos.order q = Ipos.order p ∧
                             Ipos.limit q = Ipos.limit p) new) as Hstop.
    { intros cs ->. exists [p]. split; [done|]. split; [simpl; lia|].
      by constructor. }
    unfold bind, call, lift. cbn -[for_each].
    destruct (Ipos.get_ipos w p) as [[[[[|ipo l]|] next]|]|e]; cbn -[for_each];
      try (by apply Hstop).
    rewrite for_each_append. cbn.
    destruct next as [url|]; [|by apply Hstop].
    destruct (decide (url = EmptyString)); [by apply Hstop|].
    destruct (Ipos.cursor_of url) as [c|]; [|by apply Hstop].
    set (p' := if decide (c = EmptyString) then p else Ipos.with_cursor p c).
    set (st1 := {| acc := _; printed := _; calls := calls st ++ [p] |}).
    destruct (IH p' st1) as (new & E & Hlen & Hall).
    exists (p :: new). rewrite E. cbn. rewrite <- app_assoc.
    split; [done|]. split; [simpl; lia|].
    constructor; [done|].
    assert (Ipos.modified_date_gte p' = Ipos.modified_date_gte p ∧
            Ipos.sort p' = Ipos.sort p ∧ Ipos.order p' = Ipos.order p ∧
            Ipos.limit p' = Ipos.limit p) as (E1 & E2 & E3 & E4)
      by (unfold p'; by destruct (decide (c = EmptyString))).
    rewrite <- E1, <- E2, <- E3, <- E4. done.
Qed.

(** A loop whose exceptions are printed ends normally. *)
Lemma run_try_except_print {Q} (m : loop Q unit) :
  ∃ s, run (try_except m print) = Ok s ∧ acc s = acc (m start).1 ∧
       calls s = calls (m start).1.
Proof.
  unfold run, try_except. destruct (m start) as [s [[]|e]]; cbn.
  - by exists s.
  - eexists. split; [done|]. done.
Qed.

(** The pagination loop under its handler: it ends normally, however the
    endpoint behaves. *)
Lemma run_fetch_pages w n p :
  ∃ s, run (try_except (Ipos.fetch_pages w n p) print) = Ok s ∧
       (length (calls s) ≤ n)%nat ∧
       Forall (λ q, Ipos.modified_date_gte q = Ipos.modified_date_gte p ∧
                    Ipos.sort q = Ipos.sort p ∧
                    Ipos.order q = Ipos.order p ∧
                    Ipos.limit q = Ipos.limit p) (calls s).
Proof.
  destruct (run_try_except_print (Ipos.fetch_pages w n p)) as (s & Hr & _ & Hcs).
  destruct (fetch_pages_calls w n p start) as (new & E & Hlen & Hall).
  exists s. split; [done|]. rewrite Hcs, E. by split.
Qed.

Lemma bind_Ok {A B} (a : A) (k : A → result B) : (x ← Ok a; k x) = k a.
Proof. reflexivity. Qed.

Lemma ipos_incremental_run w S column from_date :
  load_existing (Ipos.ipos_file w) = Some S → empty S = false →
  getitem S "modified_date" = Ok column →
  from_date_of column = Ok from_date →
  ∃ s, run (try_except
              (Ipos.fetch_pages w Ipos.max_pages
                 {| Ipos.modified_date_gte := Some from_date;
                    Ipos.sort := "modified_date"; Ipos.order := "asc";
                    Ipos.limit := 1000; Ipos.cursor := None |})
              print) = Ok s ∧
       Forall (λ q, Ipos.modified_date_gte q = Some from_date) (calls s) ∧
       (length (calls s) ≤ Ipos.max_pages)%nat ∧
       Ipos.update_ipo_history w
       = (r ← Ipos.reconcile S (acc s); Ok (Ipos.finish s r)).
Proof.
  intros El He Hc Hf.
  destruct (run_fetch_pages w Ipos.max_pages
              {| Ipos.modified_date_gte := Some from_date;
                 Ipos.sort := "modified_date"; Ipos.order := "asc";
                 Ipos.limit := 1000; Ipos.cursor := None |})
    as (s & Hr & Hlen & Hall).
  exists s. split; [exact Hr|]. split; [|split; [exact Hlen|]].
  - eapply Forall_impl; [exact Hall|]. intros q (E & _). exact E.
  - assert ("modified_date"%string ∈ columns S) as Hin.
    { unfold getitem in Hc. by destruct (decide _). }
    unfold Ipos.update_ipo_history. rewrite El, He.
    rewrite decide_True by done.
    rewrite Hc, bind_Ok, Hf, bind_Ok, Hr, bind_Ok. reflexivity.
Qed.

End OtherRuns.

(** ** Runs, by what they ask the vendor *)
Section Requests.
Import Pandas.

Lemma dividends_incremental_requests w meta tickers S column from_date :
  Dividends.all_ticker_meta w = Ok meta → getitem meta "ticker" = Ok tickers →
  load_existing (Dividends.dividends_file w) = Some S → empty S = false →
  getitem S "ex_dividend_date" = Ok column →
  from_date_of column = Ok from_date →
  let all := keep_first id [] tickers in
  ∃ s, run (Dividends.fetch_all w (Some from_date) all) = Ok s ∧
       acc s = collected (λ t, Dividends.list_dividends w t (Some from_date)) all ∧
       calls s = (λ t, (t, Some from_date)) <$> all ∧
       Dividends.update_dividend_history w
       = (r ← Dividends.reconcile S (acc s); Ok (Dividends.finish s r)).
Proof.
  intros Hm Ht El He Hc Hf all.
  destruct (dividends_fetch_all w (Some from_date) all) as (s & Hr & Ha & _ & Hcs).
  exists s. split; [done|]. split; [done|]. split; [done|].
  unfold Dividends.update_dividend_history. rewrite Hm. simpl. rewrite Ht. simpl.
  rewrite El, He, Hc. simpl. rewrite Hf. simpl. fold all. by rewrite Hr.
Qed.

Lemma dividends_full_requests w meta tickers :
  Dividends.all_ticker_meta w = Ok meta → getitem meta "ticker" = Ok tickers →
  (∀ S, load_existing (Dividends.dividends_file w) = Some S → empty S = true) →
  ∃ o, Dividends.update_dividend_history w = Ok o ∧
       requests o = (λ t, (t, None)) <$> keep_first id [] tickers.
Proof.
  intros Hm Ht He. eexists.
  split; [by apply (dividends_full_run w meta tickers)|done].
Qed.

Lemma splits_full_run divide w meta tickers :
  Splits.all_ticker_meta w = Ok meta → getitem meta "ticker" = Ok tickers →
  (∀ S, load_existing (Splits.splits_file w) = Some S → empty S = true) →
  let all := keep_first id [] tickers in
  ∃ s, run (Splits.fetch_all w None all) = Ok s ∧
       acc s = collected (λ t, Splits.list_splits w t None) all ∧
       calls s = (λ t, (t, None)) <$> all ∧
       Splits.update_split_history divide w
       = (r ← Splits.initial_import divide (acc s);
          Ok (Splits.finish (after_read_error (Splits.splits_file w) s) r)).
Proof.
  intros Hm Ht He all.
  destruct (splits_fetch_all w None all) as (s & Hr & Ha & Hcs).
  exists s. split; [done|]. split; [done|]. split; [done|].
  unfold Splits.update_split_history. rewrite Hm. simpl. rewrite Ht. simpl.
  fold all. destruct (load_existing _) as [S|] eqn:El.
  - rewrite (He S eq_refl). by rewrite Hr.
  - by rewrite Hr.
Qed.

End Requests.

(** ** Date columns of the IPO frames *)
Section IpoMerge.
Import Pandas.

Lemma Forall2_compose {A B C} (R1 : A → B → Prop) (R2 : B → C → Prop)
    (R3 : A → C → Prop) l1 l2 l3 :
  (∀ a b c, R1 a b → R2 b c → R3 a c) →
  Forall2 R1 l1 l2 → Forall2 R2 l2 l3 → Forall2 R3 l1 l3.
Proof.
  intros H H1. revert l3. induction H1 as [|a b l1 l2 Hab _ IH]; intros l3 H2.
  - apply Forall2_nil_inv_l in H2 as ->. constructor.
  - apply Forall2_cons_inv_l in H2 as (c & l3' & Hbc & H2 & ->).
    constructor; [by eapply H|by apply IH].
Qed.

Lemma convert_if_present_inv df col df' :
  Ipos.convert_if_present df col = Ok df' →
  columns df' = columns df ∧
  Forall2 (dates_converted [col] (columns df)) (rows df) (rows df').
Proof.
  unfold Ipos.convert_if_present.
  destruct (decide (col ∈ columns df)) as [Hin|Hin].
  - intros (_ & Hc & Hr)%convert_column_inv. split; [done|].
    eapply Forall2_impl; [exact Hr|]. intros r r' (v & Hv & ->) c.
    destruct (decide (c ∈ [col] ∧ c ∈ columns df)) as [[Hc' _]|Hn].
    + apply list_elem_of_singleton in Hc' as ->. exists v.
      split; [done|]. by rewrite lookup_insert_eq.
    + rewrite lookup_insert_ne; [done|]. intros <-. apply Hn.
      split; [apply list_elem_of_here|done].
  - intros [= <-]. split; [done|]. apply Forall2_same_length_lookup_2; [done|].
    intros i r r' Hr Hr'. assert (r' = r) as -> by congruence. intros c.
    rewrite decide_False; [done|]. intros [Hc ?].
    by apply list_elem_of_singleton in Hc as ->.
Qed.

Lemma convert_each_inv cols df df' :
  NoDup cols → Ipos.convert_each cols df = Ok df' →
  columns df' = columns df ∧
  Forall2 (dates_converted cols (columns df)) (rows df) (rows df').
Proof.
  intros Hnd. revert df. induction Hnd as [|col cols Hcol Hnd IH]; intros df.
  - intros [= <-]. split; [done|]. apply Forall2_same_length_lookup_2; [done|].
    intros i r r' Hr Hr'. assert (r' = r) as -> by congruence. intros c.
    rewrite decide_False; [done|]. by intros [?%elem_of_nil _].
  - cbn [Ipos.convert_each].
    destruct (Ipos.convert_if_present df col) as [df1|e] eqn:E1; [|done].
    rewrite bind_Ok. intros E2.
    apply convert_if_present_inv in E1 as [Hc1 Hr1].
    apply IH in E2 as [Hc2 Hr2]. split; [congruence|].
    rewrite Hc1 in Hr2.
    eapply Forall2_compose; [|exact Hr1|exact Hr2].
    intros r r1 r' H1 H2 c. specialize (H1 c). specialize (H2 c).
    destruct (decide (c = col)) as [->|Hne].
    + rewrite (decide_False (P := col ∈ cols ∧ _)) in H2 by (by intros [? _]).
      destruct (decide (col ∈ columns df)) as [Hin|Hin].
      * rewrite decide_True in H1 by (split; [apply list_elem_of_here|done]).
        rewrite decide_True by (split; [apply list_elem_of_here|done]).
        destruct H1 as (v & Hv & Hl). exists v. split; [done|]. congruence.
      * rewrite decide_False in H1 by (by intros [_ ?]).
        rewrite decide_False by (by intros [_ ?]). congruence.
    + rewrite (decide_False (P := c ∈ [col] ∧ _)) in H1
        by (intros [?%list_elem_of_singleton _]; done).
      destruct (decide (c ∈ cols ∧ c ∈ columns df)) as [[Hc Hin]|Hn].
      * rewrite decide_True by (split; [by right|done]).
        destruct H2 as (v & Hv & Hl). exists v. split; [|done].
        unfold cell in *. by rewrite <- H1.
      * rewrite decide_False; [congruence|].
        intros [[?|?]%elem_of_cons ?]; [done|]. by apply Hn.
Qed.

Lemma convert_dates_each cols n e n' e' :
  Ipos.convert_dates cols n e = Ok (n', e') →
  Ipos.convert_each cols n = Ok n' ∧ Ipos.convert_each cols e = Ok e'.
Proof.
  revert n e. induction cols as [|col cols IH]; intros n e; cbn.
  - by intros [= <- <-].
  - destruct (Ipos.convert_if_present n col) as [n1|?]; [|done]. cbn.
    destruct (Ipos.convert_if_present e col) as [e1|?]; [|done]. cbn.
    apply IH.
Qed.

Lemma date_columns_NoDup : NoDup Ipos.date_columns.
Proof.
  apply (bool_decide_unpack (NoDup Ipos.date_columns)). vm_compute. exact I.
Qed.

End IpoMerge.

(** * The claims *)

(** ** C1: which version wins *)

(** Facts about the sample data. *)
Lemma stored_converted :
  converted "ex_dividend_date" Examples.stored Examples.stored.
Proof.
  exists (Examples.date 2024 1 10). split; [vm_compute; reflexivity|].
  symmetry. apply insert_id. vm_compute. reflexivity.
Qed.

Lemma revised_is_converted :
  converted_new "ex_dividend_date"
    [Examples.revised] [Examples.revised_converted].
Proof.
  unfold converted_new. rewrite decide_True.
  - constructor; [|constructor].
    exists (Examples.date 2024 1 10). split; [vm_compute; reflexivity|done].
  - apply elem_of_from_records_columns. exists Examples.revised.
    split; [apply list_elem_of_here|].
    exists (VStr "2024-01-10"). vm_compute. reflexivity.
Qed.

Lemma revised_differs : Examples.revised_converted ≠ Examples.stored.
Proof.
  intros E.
  assert (Pandas.cell Examples.revised_converted "pay_date"
          ≠ Pandas.cell Examples.stored "pay_date") as Hne
    by (vm_compute; discriminate).
  apply Hne. by rewrite E.
Qed.

(** Merging the revised report into the sample snapshot changes nothing. *)
Lemma sample_merge :
  Dividends.reconcile Examples.snapshot [Examples.revised]
  = Ok (Examples.snapshot, Some Examples.snapshot).
Proof. vm_compute. reflexivity. Qed.

(** Merging a dividend of a later date adds it. *)
Lemma sample_growth :
  Dividends.reconcile Examples.snapshot [Examples.recent]
  = Ok (Examples.grown, Some Examples.grown).
Proof. vm_compute. reflexivity. Qed.

(** C1 as stated fails: on the sample snapshot, merging the vendor's revised
    version of the stored dividend returns the snapshot as it was, with the
    stored version in it and the revised one dropped. *)
Lemma fetched_version_is_dropped :
  Dividends.reconcile Examples.snapshot [Examples.revised]
  = Ok (Examples.snapshot, Some Examples.snapshot) ∧
  Forall2 (converted "ex_dividend_date")
    (Pandas.rows Examples.snapshot) [Examples.stored] ∧
  converted_new "ex_dividend_date"
    [Examples.revised] [Examples.revised_converted] ∧
  ¬ fetched_wins Dividends.natural_key
      [Examples.stored] [Examples.revised_converted]
      (Pandas.rows Examples.snapshot).
Proof.
  split; [apply sample_merge|]. split; [|split].
  - constructor; [apply stored_converted|constructor].
  - apply revised_is_converted.
  - intros H.
    destruct (H Examples.stored Examples.revised_converted) as [Hin _].
    + apply list_elem_of_here.
    + apply list_elem_of_here.
    + vm_compute. reflexivity.
    + apply list_elem_of_singleton in Hin. by apply revised_differs.
Qed.

(** C1, amended: when the dividends merge succeeds on a non-empty batch,
    of an existing record and a fetched record with the same natural key the
    merged frame holds exactly one record, and it is an existing one (the
    very record, when the existing records have distinct keys): duplicates
    are dropped by first-seen order, existing rows placed before fetched
    ones. *)
Theorem existing_version_wins S F M W :
  F ≠ [] → Dividends.reconcile S F = Ok (M, W) →
  ∃ S' F',
    Forall2 (converted "ex_dividend_date") (Pandas.rows S) S' ∧
    converted_new "ex_dividend_date" F F' ∧
    first_wins Dividends.natural_key S' F' (Pandas.rows M).
Proof.
  intros HF HM.
  destruct (dividends_reconcile_inv S F M W HF HM) as (S' & F' & HS & HF' & -> & _).
  exists S', F'. split; [done|]. split; [done|].
  intros s f Hs Hf E. by apply keep_first_existing_wins.
Qed.

Lemma existing_version_wins_witness :
  ∃ S' F',
    Forall2 (converted "ex_dividend_date") (Pandas.rows Examples.snapshot) S' ∧
    converted_new "ex_dividend_date" [Examples.revised] F' ∧
    first_wins Dividends.natural_key S' F' (Pandas.rows Examples.snapshot).
Proof.
  apply (existing_version_wins Examples.snapshot [Examples.revised]
           Examples.snapshot (Some Examples.snapshot)); [discriminate|].
  apply sample_merge.
Defined.

(** The same holds for ticker events. *)
Lemma ticker_events_existing_version_wins S F M W :
  F ≠ [] → TickerEvents.reconcile S F = Ok (M, W) →
  ∃ S' F',
    Forall2 (converted "date") (Pandas.rows S) S' ∧
    Forall2 (converted "date") F F' ∧
    first_wins TickerEvents.natural_key S' F' (Pandas.rows M).
Proof.
  intros HF HM.
  destruct (ticker_events_reconcile_inv S F M W HF HM) as (S' & F' & HS & HF' & -> & _).
  exists S', F'. split; [done|]. split; [done|].
  intros s f Hs Hf E. by apply keep_first_existing_wins.
Qed.

(** ** C2: no two records with the same key *)

(** Splits, lines 68-96: the merged frame is what [drop_duplicates] leaves
    of some list of rows, and it is the frame that is written. *)
Lemma splits_reconcile_inv divide S F M W :
  F ≠ [] → Splits.reconcile divide S F = Ok (M, W) →
  W = Some M ∧
  ∃ l, Pandas.rows M = keep_first (Pandas.key_of Splits.natural_key) [] l.
Proof.
  intros HF. unfold Splits.reconcile. destruct F as [|f F]; [done|].
  destruct (Splits.add_ratio divide _) as [new1|?]; [|done]. rewrite bind_Ok.
  destruct (if decide ("execution_date"%string ∈ Pandas.columns new1)
            then Pandas.convert_column new1 "execution_date" else Ok new1)
    as [new2|?]; [|done].
  rewrite bind_Ok.
  destruct (Pandas.convert_column S "execution_date") as [S'|?]; [|done].
  rewrite bind_Ok.
  destruct (Pandas.drop_duplicates _ _) as [D|?] eqn:E4; [|done].
  rewrite bind_Ok. intros [= <- <-].
  apply drop_duplicates_inv in E4 as [_ Hr4]. split; [done|]. by eexists.
Qed.

(** C2 as stated fails: the IPO merge removes the existing rows whose ticker
    was fetched and keeps every fetched row, so a page that holds a record
    twice leaves it twice in the persisted frame, whatever the key columns
    are. *)
Lemma ipo_merge_keeps_duplicates :
  Ipos.reconcile Examples.ipo_snapshot [Examples.filed; Examples.filed]
  = Ok (Examples.ipo_merged, Some Examples.ipo_merged) ∧
  ∀ K, ¬ unique_keys K (Pandas.rows Examples.ipo_merged).
Proof.
  split; [vm_compute; reflexivity|].
  intros K. unfold unique_keys. cbn [Pandas.rows Examples.ipo_merged].
  rewrite !fmap_cons. intros [_ [H _]%NoDup_cons]%NoDup_cons.
  apply H. apply list_elem_of_here.
Qed.

(** C2, amended: whenever the merge of a non-empty batch into a snapshot
    succeeds in the dividends, splits, ticker-events or fundamentals
    pipeline, the frame it returns is the frame it writes, and no two of its
    records have equal values on the natural key of the domain; what the
    initial import of ticker events writes has no two such records
    either. *)
Theorem merged_keys_unique :
  (∀ S F M W,
     F ≠ [] → Dividends.reconcile S F = Ok (M, W) →
     W = Some M ∧ unique_keys Dividends.natural_key (Pandas.rows M)) ∧
  (∀ divide S F M W,
     F ≠ [] → Splits.reconcile divide S F = Ok (M, W) →
     W = Some M ∧ unique_keys Splits.natural_key (Pandas.rows M)) ∧
  (∀ S F M W,
     F ≠ [] → TickerEvents.reconcile S F = Ok (M, W) →
     W = Some M ∧ unique_keys TickerEvents.natural_key (Pandas.rows M)) ∧
  (∀ F M D,
     TickerEvents.initial_import F = Ok (M, Some D) →
     D = M ∧ unique_keys TickerEvents.natural_key (Pandas.rows D)) ∧
  (∀ S F M W,
     F ≠ [] → Fundamentals.reconcile (Some S) F = Ok (M, W) →
     ∃ D, M = Some D ∧ W = Some D ∧
          unique_keys Fundamentals.natural_key (Pandas.rows D)).
Proof.
  split_and!.
  - intros S F M W HF HM.
    destruct (dividends_reconcile_inv S F M W HF HM)
      as (S' & F' & _ & _ & E & ->).
    split; [done|]. unfold unique_keys. rewrite E. apply keep_first_NoDup.
  - intros divide S F M W HF HM.
    destruct (splits_reconcile_inv divide S F M W HF HM) as (-> & l & E).
    split; [done|]. unfold unique_keys. rewrite E. apply keep_first_NoDup.
  - intros S F M W HF HM.
    destruct (ticker_events_reconcile_inv S F M W HF HM)
      as (S' & F' & _ & _ & E & ->).
    split; [done|]. unfold unique_keys. rewrite E. apply keep_first_NoDup.
  - intros F M D
      [(_ & _ & [=])|(F' & _ & E & [= ->])]%ticker_events_initial_import_inv.
    split; [done|]. unfold unique_keys. rewrite E. apply keep_first_NoDup.
  - intros S F M W HF HM.
    destruct (fundamentals_reconcile_inv S F M W HF HM) as (D & -> & -> & E).
    exists D. split; [done|]. split; [done|].
    unfold unique_keys. rewrite E. apply keep_first_NoDup.
Qed.

Lemma merged_keys_unique_witness :
  Some Examples.snapshot = Some Examples.snapshot ∧
  unique_keys Dividends.natural_key (Pandas.rows Examples.snapshot).
Proof.
  apply (proj1 merged_keys_unique Examples.snapshot [Examples.revised]);
    [discriminate|apply sample_merge].
Defined.


(** ** C3: a run without a snapshot *)

(** Of the three sample records the first two have the same natural key. *)
Lemma three_fetched_deduplicated :
  keep_first (Pandas.key_of Dividends.natural_key) [] Examples.three_fetched
  = [Examples.first_report; Examples.recent].
Proof.
  unfold Examples.three_fetched. cbn [keep_first].
  rewrite decide_False by (by intros ?%elem_of_nil).
  rewrite decide_True by (apply list_elem_of_singleton; vm_compute; reflexivity).
  rewrite decide_False; [done|].
  intros ?%list_elem_of_singleton. vm_compute in H. discriminate.
Qed.

(** C3, what the code does: without a snapshot, or with one that holds no
    rows, the dividends pipeline returns and writes every record the vendor
    yielded, in the order of arrival; it removes nothing. *)
Theorem first_run_keeps_every_record w meta tickers :
  Dividends.all_ticker_meta w = Ok meta →
  Pandas.getitem meta "ticker" = Ok tickers →
  (∀ S, load_existing (Dividends.dividends_file w) = Some S →
        Pandas.empty S = true) →
  ∃ o df,
    Dividends.update_dividend_history w = Ok o ∧
    returned o = Some df ∧
    Pandas.rows df
    = collected (λ t, Dividends.list_dividends w t None)
        (keep_first id [] tickers) ∧
    written o = (if Pandas.empty df then None else Some df).
Proof.
  intros Hm Ht He. eexists _, _.
  split; [by apply (dividends_full_run w meta tickers)|]. done.
Qed.

Lemma first_run_keeps_every_record_witness :
  ∃ o df,
    Dividends.update_dividend_history Examples.first_run = Ok o ∧
    returned o = Some df ∧
    Pandas.rows df
    = collected (λ t, Dividends.list_dividends Examples.first_run t None)
        (keep_first id [] [VStr "AAPL"]) ∧
    written o = (if Pandas.empty df then None else Some df).
Proof.
  apply (first_run_keeps_every_record Examples.first_run Examples.ticker_meta).
  - reflexivity.
  - vm_compute. reflexivity.
  - intros S. discriminate.
Defined.

(** The input on which code and claim part: three records arrive, two of
    them with one key; three are written where C3 expects two. *)
Lemma first_run_writes_three_records :
  ∃ o df,
    Dividends.update_dividend_history Examples.first_run = Ok o ∧
    returned o = Some df ∧ written o = Some df ∧
    Pandas.rows df = Examples.three_fetched ∧
    length (Pandas.rows df) = 3%nat ∧
    length (keep_first (Pandas.key_of Dividends.natural_key) []
              Examples.three_fetched) = 2%nat.
Proof.
  eexists _, _. split.
  { apply (dividends_full_run Examples.first_run Examples.ticker_meta
             [VStr "AAPL"]).
    - reflexivity.
    - vm_compute. reflexivity.
    - intros S. discriminate. }
  split; [done|]. split; [|split; [|split]].
  - cbn [written]. destruct (Pandas.empty _) eqn:E; [exfalso|done].
    apply orb_true_iff in E as [H|H]; apply bool_decide_eq_true_1 in H;
      [|discriminate].
    assert ("ticker"%string ∈ (∅ : gset string)) as Hin; [|set_solver].
    rewrite <- H. apply elem_of_from_records_columns.
    exists Examples.first_report. split; [apply list_elem_of_here|].
    exists (VStr "AAPL"). vm_compute. reflexivity.
  - reflexivity.
  - reflexivity.
  - by rewrite three_fetched_deduplicated.
Qed.

(** ** C4: nothing fetched *)

(** C4: with a snapshot [S] that holds rows and a watermark that can be
    computed, a run in which no ticker yields a record ends normally,
    returns [S] itself and writes nothing.  The merge of every pipeline
    returns the existing frame on an empty batch. *)
Theorem empty_fetch_returns_existing w meta tickers S column from_date :
  Dividends.all_ticker_meta w = Ok meta →
  Pandas.getitem meta "ticker" = Ok tickers →
  Dividends.dividends_file w = Some (Ok S) →
  Pandas.empty S = false →
  Pandas.getitem S "ex_dividend_date" = Ok column →
  from_date_of column = Ok from_date →
  (∀ t, t ∈ tickers →
        yielded (Dividends.list_dividends w t (Some from_date)) = []) →
  Dividends.reconcile S [] = Ok (S, None) ∧
  ∃ o, Dividends.update_dividend_history w = Ok o ∧
       returned o = Some S ∧ written o = None.
Proof.
  intros Hm Ht Hf He Hc Hd Hy. split; [done|].
  assert (collected (λ t, Dividends.list_dividends w t (Some from_date))
            (keep_first id [] tickers) = []) as E.
  { unfold collected.
    assert (∀ t, t ∈ keep_first id [] tickers → t ∈ tickers) as Hsub
      by (intros t Hin; by apply keep_first_elem in Hin as [? _]).
    induction (keep_first id [] tickers) as [|t l IH]; [done|].
    cbn. rewrite Hy by (apply Hsub; by left). apply IH.
    intros t' ?. apply Hsub. by right. }
  eexists. split.
  - rewrite (dividends_incremental_run w meta tickers Hm Ht S column from_date);
      [|by rewrite Hf|done..].
    rewrite E. reflexivity.
  - done.
Qed.

Lemma empty_fetch_returns_existing_witness :
  Dividends.reconcile Examples.snapshot [] = Ok (Examples.snapshot, None) ∧
  ∃ o, Dividends.update_dividend_history Examples.quiet_run = Ok o ∧
       returned o = Some Examples.snapshot ∧ written o = None.
Proof.
  apply (empty_fetch_returns_existing Examples.quiet_run Examples.ticker_meta
           [VStr "AAPL"] Examples.snapshot [Examples.date 2024 1 10]
           "2024-01-03").
  - reflexivity.
  - vm_compute. reflexivity.
  - reflexivity.
  - vm_compute. reflexivity.
  - vm_compute. reflexivity.
  - vm_compute. reflexivity.
  - intros t _. reflexivity.
Defined.

(** ** C5: existing records that the batch does not touch *)

(** Of the rows of a list that is deduplicated together with a second one,
    the row that stands for the key of the [i]-th row is the first row of
    that key, which is at position [i] or before it. *)
Lemma keep_first_survivor {A K} `{EqDecision K} (key : A → K)
    (l F : list A) i x :
  l !! i = Some x →
  ∃ j e, (j ≤ i)%nat ∧ l !! j = Some e ∧ key e = key x ∧
         (∀ j' y, (j' < j)%nat → l !! j' = Some y → key y ≠ key x) ∧
         e ∈ keep_first key [] (l ++ F) ∧
         (∀ m, m ∈ keep_first key [] (l ++ F) → key m = key x → m = e).
Proof.
  intros Hi.
  destruct (first_of_key key l x) as (l1 & e & l2 & -> & Ee & Hl);
    [by eapply list_elem_of_lookup_2|].
  assert (e ∈ keep_first key [] ((l1 ++ e :: l2) ++ F)) as He.
  { rewrite <- app_assoc. cbn [app]. apply keep_first_first.
    - by intros ?%elem_of_nil.
    - intros y Hy. rewrite Ee. by apply Hl. }
  exists (length l1), e. split_and!.
  - destruct (decide (i < length l1)%nat) as [Hlt|]; [exfalso|lia].
    rewrite lookup_app_l in Hi by done.
    by apply (Hl x); [eapply list_elem_of_lookup_2|].
  - by apply list_lookup_middle.
  - done.
  - intros j' y Hj Hy. rewrite lookup_app_l in Hy by done.
    apply Hl. by eapply list_elem_of_lookup_2.
  - done.
  - intros m Hm Em. apply (keep_first_unique key m e [] _ Hm He). congruence.
Qed.

Lemma converted_functional c r a b :
  converted c r a → converted c r b → a = b.
Proof. intros (v & Hv & ->) (v' & Hv' & ->). congruence. Qed.

(** IPOs, lines 114-146: with a [ticker] column on both sides the merged
    frame is the existing rows whose ticker was not fetched, followed by the
    fetched rows; otherwise it is the existing frame and nothing is
    written.  Date columns are passed through [pd.to_datetime]. *)
Lemma ipos_reconcile_inv S F M W :
  F ≠ [] → Ipos.reconcile S F = Ok (M, W) →
  ∃ S' F',
    Forall2 (dates_converted Ipos.date_columns (Pandas.columns S))
      (Pandas.rows S) S' ∧
    Forall2 (dates_converted Ipos.date_columns
               (Pandas.columns (Pandas.from_records F))) F F' ∧
    ((Pandas.rows M
      = filter (λ r, Pandas.cell r "ticker"
                     ∉ (λ f, Pandas.cell f "ticker") <$> F') S' ++ F' ∧
      W = Some M) ∨
     (Pandas.rows M = S' ∧ W = None)).
Proof.
  intros HF HM. unfold Ipos.reconcile in HM.
  destruct F as [|f F]; [done|].
  set (new := Pandas.from_records (f :: F)) in *.
  destruct (Ipos.convert_dates Ipos.date_columns new S) as [[n' e']|?] eqn:Ec;
    [|done].
  rewrite bind_Ok in HM.
  apply convert_dates_each in Ec as [En Ee].
  apply (convert_each_inv _ _ _ date_columns_NoDup) in En as [Hcn Hrn].
  apply (convert_each_inv _ _ _ date_columns_NoDup) in Ee as [Hce Hre].
  exists (Pandas.rows e'), (Pandas.rows n'). split; [done|]. split; [done|].
  destruct (bool_decide ("ticker"%string ∈ Pandas.columns n')) eqn:E1;
    [|injection HM as <- <-; by right].
  destruct (bool_decide ("ticker"%string ∈ Pandas.columns e')) eqn:E2;
    [|injection HM as <- <-; by right].
  apply bool_decide_eq_true_1 in E1, E2. cbn [andb] in HM.
  unfold Pandas.getitem, Pandas.drop_isin in HM.
  repeat (first [rewrite decide_True in HM by done|rewrite bind_Ok in HM]).
  injection HM as <- <-. by left.
Qed.

Lemma dates_converted_ticker present r r' :
  dates_converted Ipos.date_columns present r r' →
  Pandas.cell r' "ticker" = Pandas.cell r "ticker".
Proof.
  intros H. specialize (H "ticker"%string).
  rewrite decide_False in H; [unfold Pandas.cell; by rewrite H|].
  intros [Hin _]. vm_compute in Hin.
  repeat (apply elem_of_cons in Hin as [Hin|Hin]; [discriminate|]).
  by apply elem_of_nil in Hin.
Qed.

(** C5 as stated fails.  The frame that the first run of the dividends
    pipeline writes holds the three sample records, two of them with one
    natural key.  Merging a dividend of another ticker into it drops the
    second of the two, although no fetched record has its key. *)
Lemma duplicated_existing_record_is_dropped :
  (written <$> Dividends.update_dividend_history Examples.first_run)
  = Ok (Some Examples.first_written) ∧
  Dividends.reconcile Examples.first_written [Examples.unrelated]
  = Ok (Examples.after_unrelated, Some Examples.after_unrelated) ∧
  Examples.revised ∈ Pandas.rows Examples.first_written ∧
  converted "ex_dividend_date" Examples.revised Examples.revised_converted ∧
  Pandas.key_of Dividends.natural_key Examples.unrelated
  ≠ Pandas.key_of Dividends.natural_key Examples.revised ∧
  Pandas.key_of Dividends.natural_key Examples.unrelated_converted
  ≠ Pandas.key_of Dividends.natural_key Examples.revised_converted ∧
  (Examples.revised ∉ Pandas.rows Examples.after_unrelated) ∧
  (Examples.revised_converted ∉ Pandas.rows Examples.after_unrelated).
Proof.
  split_and!.
  - rewrite (dividends_full_run Examples.first_run Examples.ticker_meta
               [VStr "AAPL"]); [|reflexivity|vm_compute; reflexivity|
                               intros S; discriminate].
    cbn [fmap result_fmap written].
    destruct (Pandas.empty _) eqn:E; [exfalso|reflexivity].
    apply from_records_empty with (r := Examples.first_report) in E.
    + discriminate E.
    + apply list_elem_of_here.
  - vm_compute. reflexivity.
  - apply list_elem_of_further, list_elem_of_here.
  - exists (Examples.date 2024 1 10). split; [vm_compute; reflexivity|done].
  - vm_compute. discriminate.
  - vm_compute. discriminate.
  - cbn [Pandas.rows Examples.after_unrelated].
    intros Hin. repeat (apply elem_of_cons in Hin as [Hin|Hin];
      [apply (f_equal (λ r, Pandas.cell r "pay_date")) in Hin
       || apply (f_equal (λ r : gmap string value, r !! "pay_date")) in Hin;
       vm_compute in Hin; discriminate|]).
    by apply elem_of_nil in Hin.
  - cbn [Pandas.rows Examples.after_unrelated].
    intros Hin. repeat (apply elem_of_cons in Hin as [Hin|Hin];
      [apply (f_equal (λ r : gmap string value, r !! "pay_date")) in Hin;
       vm_compute in Hin; discriminate|]).
    by apply elem_of_nil in Hin.
Qed.

(** C5, amended.  When the dividends merge of a non-empty batch succeeds,
    every existing record is represented in the merged frame by the first
    existing record of its natural key, with [ex_dividend_date] passed
    through [pd.to_datetime], whatever was fetched: that is the only record
    of the key in the merged frame.  So an existing record appears in the
    merged frame, its date converted (itself, when the date is a timestamp
    already), unless an earlier existing record has its key.  In the IPO
    merge an existing record whose ticker no fetched record has appears in
    the merged frame with its date columns converted. *)
Theorem existing_records_survive_unless_duplicated :
  (∀ S F M W,
     F ≠ [] → Dividends.reconcile S F = Ok (M, W) →
     ∀ i s, Pandas.rows S !! i = Some s →
       ∃ s' j x e,
         converted "ex_dividend_date" s s' ∧
         (has_timestamp "ex_dividend_date" s → s' = s) ∧
         (j ≤ i)%nat ∧ Pandas.rows S !! j = Some x ∧
         converted "ex_dividend_date" x e ∧
         Pandas.key_of Dividends.natural_key e
         = Pandas.key_of Dividends.natural_key s' ∧
         (∀ j' y y', (j' < j)%nat → Pandas.rows S !! j' = Some y →
            converted "ex_dividend_date" y y' →
            Pandas.key_of Dividends.natural_key y'
            ≠ Pandas.key_of Dividends.natural_key s') ∧
         e ∈ Pandas.rows M ∧
         (∀ m, m ∈ Pandas.rows M →
            Pandas.key_of Dividends.natural_key m
            = Pandas.key_of Dividends.natural_key s' → m = e) ∧
         (j = i → e = s')) ∧
  (∀ S F M W,
     F ≠ [] → Ipos.reconcile S F = Ok (M, W) →
     ∀ s, s ∈ Pandas.rows S →
       (∀ f, f ∈ F → Pandas.cell f "ticker" ≠ Pandas.cell s "ticker") →
       ∃ s', dates_converted Ipos.date_columns (Pandas.columns S) s s' ∧
             s' ∈ Pandas.rows M).
Proof.
  split.
  - intros S F M W HF HM i s Hi.
    destruct (dividends_reconcile_inv S F M W HF HM)
      as (S' & F' & HS & _ & E & _).
    destruct (Forall2_lookup_l _ _ _ _ _ HS Hi) as (s' & Hi' & Hc).
    destruct (keep_first_survivor (Pandas.key_of Dividends.natural_key)
                S' F' i s' Hi') as (j & e & Hj & He & Ek & Hfirst & Hin & Hu).
    destruct (Forall2_lookup_r _ _ _ _ _ HS He) as (x & Hx & Hxe).
    exists s', j, x, e. rewrite E. split_and!; try done.
    + intros Ht. by apply (converted_timestamp "ex_dividend_date").
    + intros j' y y' Hlt Hy Hyy'.
      destruct (Forall2_lookup_l _ _ _ _ _ HS Hy) as (y'' & Hy'' & Hc'').
      rewrite (converted_functional _ _ _ _ Hyy' Hc''). by eapply Hfirst.
    + intros ->. rewrite Hi in Hx. injection Hx as ->.
      by eapply converted_functional.
  - intros S F M W HF HM s Hs Hnew.
    destruct (ipos_reconcile_inv S F M W HF HM)
      as (S' & F' & HS & HF' & [[E _]|[E _]]);
      destruct (Forall2_elem_of_l _ _ _ s HS Hs) as (s' & Hs' & Hc);
      exists s'; (split; [done|]); rewrite E; [|done].
    apply elem_of_app. left. apply list_elem_of_filter. split; [|done].
    intros (f' & Ef & Hf')%list_elem_of_fmap.
    destruct (Forall2_elem_of_r _ _ _ f' HF' Hf') as (f & Hf & Hcf).
    apply (Hnew f Hf).
    rewrite <- (dates_converted_ticker _ _ _ Hcf), <- Ef.
    by apply dates_converted_ticker in Hc.
Qed.

Lemma existing_records_survive_unless_duplicated_witness :
  ∃ s' j x e,
    converted "ex_dividend_date" Examples.revised s' ∧
    (has_timestamp "ex_dividend_date" Examples.revised →
     s' = Examples.revised) ∧
    (j ≤ 1)%nat ∧ Pandas.rows Examples.first_written !! j = Some x ∧
    converted "ex_dividend_date" x e ∧
    Pandas.key_of Dividends.natural_key e
    = Pandas.key_of Dividends.natural_key s' ∧
    (∀ j' y y', (j' < j)%nat →
       Pandas.rows Examples.first_written !! j' = Some y →
       converted "ex_dividend_date" y y' →
       Pandas.key_of Dividends.natural_key y'
       ≠ Pandas.key_of Dividends.natural_key s') ∧
    e ∈ Pandas.rows Examples.after_unrelated ∧
    (∀ m, m ∈ Pandas.rows Examples.after_unrelated →
       Pandas.key_of Dividends.natural_key m
       = Pandas.key_of Dividends.natural_key s' → m = e) ∧
    (j = 1%nat → e = s').
Proof.
  apply (proj1 existing_records_survive_unless_duplicated
           Examples.first_written [Examples.unrelated]
           Examples.after_unrelated (Some Examples.after_unrelated)).
  - discriminate.
  - vm_compute. reflexivity.
  - reflexivity.
Defined.

(** ** C6: the from-date *)

(** C6.  The from-date of a watermark column is the latest of its
    timestamps, seven days earlier, printed as [YYYY-MM-DD] (and the text
    reads back as that day); a latest date of 2024-04-10 gives 2024-04-03.
    A dividends or splits run on a snapshot with rows asks every ticker for
    the records from that date on; a run without a snapshot, or with one
    that has no rows, asks every ticker without a lower bound. *)
Theorem fetch_from_is_latest_minus_lookback :
  (∀ column dates latest,
     rmap Pandas.to_datetime column = Ok dates →
     VDate latest ∈ dates → (∀ d, VDate d ∈ dates → d ≤ latest) →
     Dates.in_bounds (latest - 7) = true →
     from_date_of column = Ok (Dates.strftime (latest - 7)) ∧
     Dates.parse_date (Dates.strftime (latest - 7)) = Ok (latest - 7)) ∧
  from_date_of [VStr "2024-04-10"] = Ok "2024-04-03"%string ∧
  (∀ w meta tickers S column from_date,
     Dividends.all_ticker_meta w = Ok meta →
     Pandas.getitem meta "ticker" = Ok tickers →
     load_existing (Dividends.dividends_file w) = Some S →
     Pandas.empty S = false →
     Pandas.getitem S "ex_dividend_date" = Ok column →
     from_date_of column = Ok from_date →
     ∃ s, run (Dividends.fetch_all w (Some from_date) (keep_first id [] tickers))
          = Ok s ∧
          calls s = (λ t, (t, Some from_date)) <$> keep_first id [] tickers ∧
          Dividends.update_dividend_history w
          = (r ← Dividends.reconcile S (acc s); Ok (Dividends.finish s r))) ∧
  (∀ w meta tickers,
     Dividends.all_ticker_meta w = Ok meta →
     Pandas.getitem meta "ticker" = Ok tickers →
     (∀ S, load_existing (Dividends.dividends_file w) = Some S →
           Pandas.empty S = true) →
     ∃ o, Dividends.update_dividend_history w = Ok o ∧
          requests o = (λ t, (t, None)) <$> keep_first id [] tickers) ∧
  (∀ divide w meta tickers S column from_date,
     Splits.all_ticker_meta w = Ok meta →
     Pandas.getitem meta "ticker" = Ok tickers →
     load_existing (Splits.splits_file w) = Some S →
     Pandas.empty S = false →
     Pandas.getitem S "execution_date" = Ok column →
     from_date_of column = Ok from_date →
     ∃ s, run (Splits.fetch_all w (Some from_date) (keep_first id [] tickers))
          = Ok s ∧
          calls s = (λ t, (t, Some from_date)) <$> keep_first id [] tickers ∧
          Splits.update_split_history divide w
          = (r ← Splits.reconcile divide S (acc s); Ok (Splits.finish s r))) ∧
  (∀ divide w meta tickers,
     Splits.all_ticker_meta w = Ok meta →
     Pandas.getitem meta "ticker" = Ok tickers →
     (∀ S, load_existing (Splits.splits_file w) = Some S →
           Pandas.empty S = true) →
     ∃ s, run (Splits.fetch_all w None (keep_first id [] tickers)) = Ok s ∧
          calls s = (λ t, (t, None)) <$> keep_first id [] tickers ∧
          Splits.update_split_history divide w
          = (r ← Splits.initial_import divide (acc s);
             Ok (Splits.finish (after_read_error (Splits.splits_file w) s) r))).
Proof.
  split_and!.
  - intros column dates latest Hd Hin Hmax Hb. split.
    + by apply (from_date_of_latest column dates latest).
    + by apply parse_date_strftime.
  - vm_compute. reflexivity.
  - intros w meta tickers S column from_date Hm Ht El He Hc Hf.
    destruct (dividends_incremental_requests w meta tickers S column from_date)
      as (s & ? & _ & ? & ?); [done..|]. by exists s.
  - intros w meta tickers. apply dividends_full_requests.
  - intros divide w meta tickers S column from_date Hm Ht El He Hc Hf.
    destruct (splits_incremental_run divide w meta tickers S column from_date)
      as (s & ? & _ & ? & ?); [done..|]. by exists s.
  - intros divide w meta tickers Hm Ht He.
    destruct (splits_full_run divide w meta tickers)
      as (s & ? & _ & ? & ?); [done..|]. by exists s.
Qed.

Lemma fetch_from_is_latest_minus_lookback_witness :
  from_date_of [VStr "2024-04-10"; VStr "2024-01-10"]
  = Ok (Dates.strftime (Dates.ymd2ord 2024 4 10 - 7)) ∧
  Dates.parse_date (Dates.strftime (Dates.ymd2ord 2024 4 10 - 7))
  = Ok (Dates.ymd2ord 2024 4 10 - 7).
Proof.
  apply (proj1 fetch_from_is_latest_minus_lookback
           [VStr "2024-04-10"; VStr "2024-01-10"]
           [Examples.date 2024 4 10; Examples.date 2024 1 10]
           (Dates.ymd2ord 2024 4 10)).
  - vm_compute. reflexivity.
  - apply list_elem_of_here.
  - intros d [[= ->]|[[= ->]|[]%elem_of_nil]%elem_of_cons]%elem_of_cons;
      vm_compute; discriminate.
  - vm_compute. reflexivity.
Defined.

(** ** C7: the lookback window, domain by domain *)

(** C7 as stated fails for fundamentals: with AAPL in the snapshot, a run
    sends no request at all, although the vendor holds a restatement filed
    two days after the latest filing of the snapshot, inside the window of
    seven days that the claim has it fetch again.  The snapshot is
    returned and nothing is written. *)
Lemma fundamentals_never_looks_back :
  Fundamentals.update_fundamental_history Examples.restatement_run
  = Ok {| returned := Some Examples.fundamentals_snapshot; written := None;
          logged := []; requests := [] |} ∧
  items (Fundamentals.list_stock_financials Examples.restatement_run
           (VStr "AAPL")) = [Examples.restated_q1] ∧
  Pandas.getitem Examples.fundamentals_snapshot "filing_date"
  = Ok [VStr "2024-02-01"] ∧
  from_date_of [VStr "2024-02-01"] = Ok "2024-01-25"%string ∧
  Pandas.cell Examples.restated_q1 "filing_date" = VStr "2024-02-03".
Proof.
  split; [|split; [done|split; [|split]]; vm_compute; reflexivity].
  destruct (fundamentals_run Examples.restatement_run Examples.ticker_meta
              [VStr "AAPL"]) as (s & _ & Ha & Hp & Hc & ->).
  - reflexivity.
  - vm_compute. reflexivity.
  - assert (filter (λ t, t ∉ Fundamentals.processed_of (load_existing
              (Fundamentals.fundamentals_file Examples.restatement_run)))
              (Pandas.dropna (keep_first id [] [VStr "AAPL"])) = []) as E.
    { assert (Fundamentals.processed_of (load_existing
                (Fundamentals.fundamentals_file Examples.restatement_run))
              = [VStr "AAPL"]) as -> by (vm_compute; reflexivity).
      vm_compute. reflexivity. }
    rewrite E in Ha, Hp, Hc. cbn in Ha, Hp, Hc. rewrite Ha, Hp, Hc.
    reflexivity.
Qed.

(** C7, amended.  Four of the five pipelines compute a from-date: the
    latest timestamp of the watermark column, seven days earlier.
    Dividends and splits pass it with every request, the IPO pipeline
    passes it with every page request, and the ticker-events pipeline,
    whose endpoint takes no date, uses it to filter what comes back.
    Fundamentals has no watermark: a run asks the vendor about the tickers
    that the snapshot does not hold yet, without a date, and about no
    other ticker. *)
Theorem lookback_in_four_pipelines :
  (∀ w meta tickers S column from_date,
     Dividends.all_ticker_meta w = Ok meta →
     Pandas.getitem meta "ticker" = Ok tickers →
     load_existing (Dividends.dividends_file w) = Some S →
     Pandas.empty S = false →
     Pandas.getitem S "ex_dividend_date" = Ok column →
     lookback_boundary column from_date →
     ∃ s, run (Dividends.fetch_all w (Some from_date) (keep_first id [] tickers))
          = Ok s ∧
          calls s = (λ t, (t, Some from_date)) <$> keep_first id [] tickers ∧
          Dividends.update_dividend_history w
          = (r ← Dividends.reconcile S (acc s); Ok (Dividends.finish s r))) ∧
  (∀ divide w meta tickers S column from_date,
     Splits.all_ticker_meta w = Ok meta →
     Pandas.getitem meta "ticker" = Ok tickers →
     load_existing (Splits.splits_file w) = Some S →
     Pandas.empty S = false →
     Pandas.getitem S "execution_date" = Ok column →
     lookback_boundary column from_date →
     ∃ s, run (Splits.fetch_all w (Some from_date) (keep_first id [] tickers))
          = Ok s ∧
          calls s = (λ t, (t, Some from_date)) <$> keep_first id [] tickers ∧
          Splits.update_split_history divide w
          = (r ← Splits.reconcile divide S (acc s); Ok (Splits.finish s r))) ∧
  (∀ w S column from_date,
     load_existing (Ipos.ipos_file w) = Some S →
     Pandas.empty S = false →
     Pandas.getitem S "modified_date" = Ok column →
     lookback_boundary column from_date →
     ∃ s, run (try_except
                 (Ipos.fetch_pages w Ipos.max_pages
                    {| Ipos.modified_date_gte := Some from_date;
                       Ipos.sort := "modified_date"; Ipos.order := "asc";
                       Ipos.limit := 1000; Ipos.cursor := None |})
                 print) = Ok s ∧
          Forall (λ q, Ipos.modified_date_gte q = Some from_date) (calls s) ∧
          Ipos.update_ipo_history w
          = (r ← Ipos.reconcile S (acc s); Ok (Ipos.finish s r))) ∧
  (∀ w meta figi_column S column from_date figi_cells,
     TickerEvents.all_ticker_meta w = Ok meta →
     Pandas.getitem meta "composite_figi" = Ok figi_column →
     load_existing (TickerEvents.ticker_events_file w) = Some S →
     Pandas.empty S = false →
     Pandas.getitem S "date" = Ok column →
     lookback_boundary column from_date →
     Pandas.getitem S "composite_figi" = Ok figi_cells →
     ∃ s, run (TickerEvents.fetch_all w
                 (TickerEvents.collect_new from_date (Pandas.dropna figi_cells))
                 (keep_first id [] (Pandas.dropna figi_column))) = Ok s ∧
          calls s = keep_first id [] (Pandas.dropna figi_column) ∧
          TickerEvents.update_ticker_events w
          = (r ← TickerEvents.reconcile S (acc s);
             Ok (TickerEvents.finish s r))) ∧
  (∀ w meta column,
     Fundamentals.all_ticker_meta w = Ok meta →
     Pandas.getitem meta "ticker" = Ok column →
     let existing := load_existing (Fundamentals.fundamentals_file w) in
     let todo := filter (λ t, t ∉ Fundamentals.processed_of existing)
                   (Pandas.dropna (keep_first id [] column)) in
     ∃ s, run (for_each (Pandas.dropna (keep_first id [] column))
                 (Fundamentals.fetch_ticker w
                    (Fundamentals.processed_of existing))) = Ok s ∧
          calls s = todo ∧ acc s = (todo ≫= filings w) ∧
          Fundamentals.update_fundamental_history w
          = (r ← Fundamentals.reconcile existing (acc s);
             Ok {| returned := r.1; written := r.2;
                   logged := printed s; requests := calls s |})).
Proof.
  split_and!.
  - intros w meta tickers S column from_date Hm Ht El He Hc Hf%from_date_of_boundary.
    destruct (dividends_incremental_requests w meta tickers S column from_date)
      as (s & ? & _ & ? & ?); [done..|]. by exists s.
  - intros divide w meta tickers S column from_date Hm Ht El He Hc
      Hf%from_date_of_boundary.
    destruct (splits_incremental_run divide w meta tickers S column from_date)
      as (s & ? & _ & ? & ?); [done..|]. by exists s.
  - intros w S column from_date El He Hc Hf%from_date_of_boundary.
    destruct (ipos_incremental_run w S column from_date)
      as (s & ? & ? & _ & ?); [done..|]. by exists s.
  - intros w meta figi_column S column from_date figi_cells Hm Ht El He Hc
      Hf%from_date_of_boundary Hg.
    destruct (ticker_events_incremental_run w meta figi_column S column
                from_date figi_cells) as (s & ? & _ & ? & ?); [done..|].
    by exists s.
  - intros w meta column Hm Ht existing todo.
    destruct (fundamentals_run w meta column Hm Ht) as (s & ? & ? & _ & ? & ?).
    by exists s.
Qed.

Lemma lookback_in_four_pipelines_witness :
  ∃ s, run (Dividends.fetch_all Examples.quiet_run (Some "2024-01-03"%string)
              (keep_first id [] [VStr "AAPL"])) = Ok s ∧
       calls s = (λ t, (t, Some "2024-01-03"%string))
                   <$> keep_first id [] [VStr "AAPL"] ∧
       Dividends.update_dividend_history Examples.quiet_run
       = (r ← Dividends.reconcile Examples.snapshot (acc s);
          Ok (Dividends.finish s r)).
Proof.
  apply (proj1 lookback_in_four_pipelines Examples.quiet_run
           Examples.ticker_meta [VStr "AAPL"] Examples.snapshot
           [Examples.date 2024 1 10] "2024-01-03").
  - reflexivity.
  - vm_compute. reflexivity.
  - reflexivity.
  - vm_compute. reflexivity.
  - vm_compute. reflexivity.
  - exists [Examples.date 2024 1 10], (Dates.ymd2ord 2024 1 10).
    split; [reflexivity|]. split; [apply list_elem_of_here|]. split.
    + intros d [[= ->]|[]%elem_of_nil]%elem_of_cons. vm_compute. discriminate.
    + split; vm_compute; reflexivity.
Defined.

(** ** C8: a snapshot file that cannot be read *)




(** ** C9: an entity whose fetch fails *)









(** ** C10: which events an incremental run keeps *)


(** An event whose date is null ends the work for its FIGI with a
    [TypeError], whether or not the FIGI is new. *)
Lemma undated_event_raises from_date (from : Z) processed_figis figi events
    row l :
  Pandas.to_datetime (VStr from_date) = Ok (VDate from) →
  event_date row = Ok VNull →
  TickerEvents.collect_new from_date processed_figis figi events (row :: l)
  = Raise (TypeError ">=").
Proof.
  intros Hf Hd. cbn [TickerEvents.collect_new].
  unfold TickerEvents.is_new. unfold event_date in Hd.
  destruct (TickerEvents.item _ _) as [date|e]; [|done].
  change (Pandas.to_datetime date = Ok VNull) in Hd.
  by rewrite bind_Ok, Hd, bind_Ok, Hf, bind_Ok.
Qed.



(** On the sample events, a processed FIGI keeps only the event inside the
    window, and a FIGI that was never processed keeps both. *)
Lemma old_event_is_dropped :
  TickerEvents.collect_new "2024-04-03" [Examples.figi] Examples.figi
    Examples.renamed [Examples.old_change; Examples.new_change]
  = Ok [Examples.event_fetched] ∧
  TickerEvents.collect_new "2024-04-03" [Examples.other_figi] Examples.figi
    Examples.renamed [Examples.old_change; Examples.new_change]
  = TickerEvents.collect_all Examples.renamed
      [Examples.old_change; Examples.new_change] ∧
  length <$> TickerEvents.collect_all Examples.renamed
               [Examples.old_change; Examples.new_change] = Ok 2%nat.
Proof. split; [|split]; vm_compute; reflexivity. Qed.

(** * Further properties of the pipelines *)

(** ** Batches *)

Lemma slices_Forall {A} fuel size (l : list A) :
  (0 < size)%nat →
  Forall (λ b, (0 < length b ≤ size)%nat) (slices fuel size l).
Proof.
  intros Hs. revert l. induction fuel as [|fuel IH]; intros l; [constructor|].
  destruct l as [|x l]; [constructor|]. cbn [slices].
  constructor; [|apply IH]. rewrite length_take. simpl. lia.
Qed.

Lemma slices_length {A} fuel size (l : list A) :
  (0 < size)%nat → (length l ≤ fuel)%nat →
  length (slices fuel size l) = ((length l + size - 1) / size)%nat.
Proof.
  intros Hs. revert l. induction fuel as [|fuel IH]; intros l Hl.
  - destruct l; [|simpl in Hl; lia]. simpl.
    symmetry. apply Nat.div_small. lia.
  - destruct l as [|x l].
    + simpl. symmetry. apply Nat.div_small. lia.
    + cbn [slices length]. rewrite IH by (rewrite length_drop; simpl in *; lia).
      rewrite length_drop. cbn [length].
      destruct (decide (size ≤ S (length l))%nat) as [Hge|Hlt].
      * replace (S (length l) + size - 1)%nat
          with ((S (length l) - size + size - 1) + 1 * size)%nat by lia.
        rewrite Nat.div_add by lia. lia.
      * replace (S (length l) - size)%nat with 0%nat by lia.
        rewrite (Nat.div_small (0 + size - 1) size) by lia.
        apply (Nat.div_unique _ _ _ (S (length l) - 1)); lia.
Qed.

(** The batches of 100 cut the list of tickers in consecutive pieces: put
    together they are the list, no batch is empty, none has more than 100
    tickers, and there are [ceil(n / 100)] of them. *)
Theorem batches_partition {A} (l : list A) :
  concat (batches l) = l ∧
  Forall (λ b, (0 < length b ≤ 100)%nat) (batches l) ∧
  length (batches l) = ((length l + 99) / 100)%nat.
Proof.
  split; [apply batches_concat|]. split.
  - apply (slices_Forall (length l) batch_size l). unfold batch_size. lia.
  - unfold batches. rewrite slices_length by (unfold batch_size; lia).
    unfold batch_size. f_equal. lia.
Qed.

(** ** The pages of the IPO endpoint *)

Lemma run_state {Q A} (m : loop Q A) s : run m = Ok s → s = (m start).1.
Proof. unfold run. destruct (m start) as [s' [a|e]]; [|done]. by intros [= ->]. Qed.

(** Any run of the IPO pipeline that returns has sent at most 100 page
    requests, all of them in ascending order with a page size of 1000. *)
Theorem ipo_requests_are_bounded w o :
  Ipos.update_ipo_history w = Ok o →
  (length (requests o) ≤ 100)%nat ∧
  Forall (λ q, Ipos.order q = "asc"%string ∧ Ipos.limit q = 1000)
    (requests o).
Proof.
  assert (∀ p (s : loop_state Ipos.params),
            Ipos.order p = "asc"%string → Ipos.limit p = 1000 →
            s = (Ipos.fetch_pages w Ipos.max_pages p start).1 →
            (length (calls s) ≤ 100)%nat ∧
            Forall (λ q, Ipos.order q = "asc"%string ∧ Ipos.limit q = 1000)
              (calls s)) as Hpages.
  { intros p s Ho Hl ->.
    destruct (fetch_pages_calls w Ipos.max_pages p start)
      as (new & -> & Hlen & Hall).
    split; [exact Hlen|]. eapply Forall_impl; [exact Hall|].
    intros q (_ & _ & -> & ->). done. }
  assert (∀ o', Ipos.full_import w = Ok o' →
            (length (requests o') ≤ 100)%nat ∧
            Forall (λ q, Ipos.order q = "asc"%string ∧ Ipos.limit q = 1000)
              (requests o')) as Hfull.
  { intros o'. unfold Ipos.full_import.
    destruct (run _) as [s|e] eqn:Hr; [|done]. rewrite bind_Ok.
    destruct (Ipos.initial_import (acc s)) as [r|e]; [|done]. rewrite bind_Ok.
    intros [= <-]. apply run_state in Hr. cbn [requests Ipos.finish].
    exact (Hpages {| Ipos.modified_date_gte := None;
                     Ipos.sort := "listing_date"; Ipos.order := "asc";
                     Ipos.limit := 1000; Ipos.cursor := None |}
             s eq_refl eq_refl Hr). }
  unfold Ipos.update_ipo_history.
  destruct (load_existing (Ipos.ipos_file w)) as [S|]; [|apply Hfull].
  destruct (Pandas.empty S).
  { intros [= <-]. split; [simpl; lia|constructor]. }
  destruct (decide _) as [Hin|Hin]; [|apply Hfull].
  destruct (Pandas.getitem S "modified_date") as [column|e1]; [|done].
  rewrite bind_Ok. destruct (from_date_of column) as [from_date|e2]; [|done].
  rewrite bind_Ok.
  destruct (run_try_except_print (Ipos.fetch_pages w Ipos.max_pages
              {| Ipos.modified_date_gte := Some from_date;
                 Ipos.sort := "modified_date"; Ipos.order := "asc";
                 Ipos.limit := 1000; Ipos.cursor := None |}))
    as (s & Hr & _ & Hcs).
  rewrite Hr, bind_Ok.
  destruct (Ipos.reconcile S (acc s)) as [r|e3]; [|done]. rewrite bind_Ok.
  intros [= <-]. cbn [requests Ipos.finish]. rewrite Hcs.
  exact (Hpages {| Ipos.modified_date_gte := Some from_date;
                   Ipos.sort := "modified_date"; Ipos.order := "asc";
                   Ipos.limit := 1000; Ipos.cursor := None |}
           _ eq_refl eq_refl eq_refl).
Qed.

Lemma ipo_requests_are_bounded_witness :
  (length [{| Ipos.modified_date_gte := None; Ipos.sort := "listing_date";
              Ipos.order := "asc"; Ipos.limit := 1000;
              Ipos.cursor := None |}] ≤ 100)%nat ∧
  Forall (λ q, Ipos.order q = "asc"%string ∧ Ipos.limit q = 1000)
    [{| Ipos.modified_date_gte := None; Ipos.sort := "listing_date";
        Ipos.order := "asc"; Ipos.limit := 1000; Ipos.cursor := None |}].
Proof.
  apply (ipo_requests_are_bounded Examples.endpoint_down
           {| returned := Some (Pandas.from_records []); written := None;
              logged := [];
              requests := [{| Ipos.modified_date_gte := None;
                              Ipos.sort := "listing_date";
                              Ipos.order := "asc"; Ipos.limit := 1000;
                              Ipos.cursor := None |}] |}).
  vm_compute. reflexivity.
Defined.

(** ** The cursor of a [next_url] *)

Lemma append_cons c a b : String c a +:+ b = String c (a +:+ b).
Proof. reflexivity. Qed.

Lemma append_nil b : "" +:+ b = b.
Proof. reflexivity. Qed.

Lemma strip_prefix_app p s rest :
  Ipos.strip_prefix p s = Some rest → s = p +:+ rest.
Proof.
  revert s. induction p as [|a p IH]; intros s; simpl.
  - by intros [= ->].
  - destruct s as [|b s]; [done|].
    destruct (decide (a = b)) as [->|]; [|done].
    intros ->%IH. by rewrite append_cons.
Qed.

Lemma strip_prefix_complete p rest : Ipos.strip_prefix p (p +:+ rest) = Some rest.
Proof.
  induction p as [|a p IH]; [done|].
  rewrite append_cons. simpl. by rewrite decide_True.
Qed.

Lemma cut_app sep s before after :
  Ipos.cut sep s = Some (before, after) → s = before +:+ sep +:+ after.
Proof.
  revert before. induction s as [|c s IH]; intros before; simpl.
  - destruct (Ipos.strip_prefix sep "") as [rest|] eqn:E; [|done].
    intros [= <- <-]. by apply strip_prefix_app in E.
  - destruct (Ipos.strip_prefix sep (String c s)) as [rest|] eqn:E.
    + intros [= <- <-]. by apply strip_prefix_app in E.
    + destruct (Ipos.cut sep s) as [[b a]|] eqn:Ec; [|done].
      intros [= <- <-]. rewrite append_cons. f_equal. by apply IH.
Qed.

Lemma cut_None sep s a b :
  Ipos.cut sep s = None → s ≠ a +:+ sep +:+ b.
Proof.
  revert a. induction s as [|c s IH]; intros a; simpl.
  - destruct (Ipos.strip_prefix sep "") as [rest|] eqn:E; [done|].
    intros _ Hs. destruct a; [|done]. rewrite append_nil in Hs.
    by rewrite Hs, strip_prefix_complete in E.
  - destruct (Ipos.strip_prefix sep (String c s)) as [rest|] eqn:E; [done|].
    destruct (Ipos.cut sep s) as [[b' a']|] eqn:Ec; [done|].
    intros _ Hs. destruct a as [|c' a].
    + rewrite append_nil in Hs. by rewrite Hs, strip_prefix_complete in E.
    + rewrite append_cons in Hs. injection Hs as -> Hs. by apply (IH a).
Qed.

(** The piece before the first separator holds no separator, for a
    separator of one character. *)
Lemma cut_before_free c s piece rest a b :
  Ipos.cut (String c "") s = Some (piece, rest) →
  piece ≠ a +:+ String c "" +:+ b.
Proof.
  revert piece a. induction s as [|c' s IH]; intros piece a; simpl; [done|].
  destruct (decide (c = c')) as [<-|Hc].
  - intros [= <- <-]. by destruct a.
  - destruct (Ipos.cut (String c "") s) as [[p r]|] eqn:Ec; [|done].
    intros [= <- <-]. destruct a as [|c'' a].
    + rewrite append_nil, append_cons. intros [= -> _]. done.
    + rewrite append_cons. intros [= _ Hp]. by apply (IH p a).
Qed.

Lemma append_assoc' a b c : (a +:+ b) +:+ c = a +:+ b +:+ c.
Proof. induction a as [|x a IH]; [done|]. by rewrite !append_cons, IH. Qed.

Lemma append_nil_r' a : a +:+ "" = a.
Proof. induction a as [|x a IH]; [done|]. by rewrite append_cons, IH. Qed.

Lemma length_append' a b :
  String.length (a +:+ b) = (String.length a + String.length b)%nat.
Proof. induction a as [|x a IH]; [done|]. rewrite append_cons. simpl. by rewrite IH. Qed.

(** [cut] finds the first occurrence of the separator. *)
Lemma cut_first sep s before after a b :
  Ipos.cut sep s = Some (before, after) → s = a +:+ sep +:+ b →
  (String.length before ≤ String.length a)%nat.
Proof.
  revert before a. induction s as [|c s IH]; intros before a; simpl.
  - destruct (Ipos.strip_prefix sep "") as [rest|] eqn:E; [|done].
    intros [= <- <-] _. simpl. lia.
  - destruct (Ipos.strip_prefix sep (String c s)) as [rest|] eqn:E.
    + intros [= <- <-] _. simpl. lia.
    + destruct (Ipos.cut sep s) as [[b' a']|] eqn:Ec; [|done].
      intros [= <- <-] Hs. destruct a as [|c' a].
      * rewrite append_nil in Hs. by rewrite Hs, strip_prefix_complete in E.
      * rewrite append_cons in Hs. injection Hs as -> Hs. simpl.
        apply le_n_S. by apply (IH b' a).
Qed.

(** The piece before the first separator holds no separator. *)
Lemma cut_piece_free sep s piece rest a b :
  sep ≠ ""%string → Ipos.cut sep s = Some (piece, rest) →
  piece ≠ a +:+ sep +:+ b.
Proof.
  intros Hne E ->. pose proof (cut_app _ _ _ _ E) as Hs.
  rewrite !append_assoc' in Hs.
  pose proof (cut_first _ _ _ _ _ _ E Hs) as Hl.
  rewrite !length_append' in Hl. destruct sep; [done|]. simpl in Hl. lia.
Qed.

(** The pagination cursor read off a [next_url] is the text that follows
    the first ["cursor="], up to the next ["&"] or ["cursor="] or the end
    of the URL; it holds no ["&"] and no ["cursor="].  There is no cursor
    exactly when the URL holds no ["cursor="]. *)
Theorem cursor_of_spec url :
  match Ipos.cursor_of url with
  | Some c =>
      ∃ before rest,
        url = before +:+ "cursor=" +:+ c +:+ rest ∧
        (∀ a b, url = a +:+ "cursor=" +:+ b →
                (String.length before ≤ String.length a)%nat) ∧
        (rest = "" ∨ (∃ r, rest = "&" +:+ r) ∨ ∃ r, rest = "cursor=" +:+ r) ∧
        (∀ a b, c ≠ a +:+ "&" +:+ b) ∧
        (∀ a b, c ≠ a +:+ "cursor=" +:+ b)
  | None => ∀ a b, url ≠ a +:+ "cursor=" +:+ b
  end.
Proof.
  unfold Ipos.cursor_of, Ipos.second_piece, Ipos.first_piece.
  destruct (Ipos.cut "cursor=" url) as [[before after]|] eqn:E1; cbn;
    [|intros a b; by apply cut_None].
  pose proof (λ a b, cut_first _ _ _ _ a b E1) as Hfirst.
  apply cut_app in E1 as ->.
  destruct (Ipos.cut "cursor=" after) as [[piece x]|] eqn:E2; cbn.
  - pose proof (λ a b, cut_piece_free "cursor=" _ _ _ a b ltac:(done) E2)
      as Hfree.
    apply cut_app in E2 as ->.
    destruct (Ipos.cut "&" piece) as [[c y]|] eqn:E3.
    + pose proof (λ a b, cut_piece_free "&" _ _ _ a b ltac:(done) E3) as Hamp.
      apply cut_app in E3 as ->.
      exists before, ("&" +:+ y +:+ "cursor=" +:+ x). split_and!.
      * by rewrite !append_assoc'.
      * done.
      * right. left. by eexists.
      * done.
      * intros a b ->. apply (Hfree a (b +:+ "&" +:+ y)).
        by rewrite !append_assoc'.
    + exists before, ("cursor=" +:+ x). split_and!; try done.
      * right. right. by eexists.
      * intros a b. by apply cut_None.
  - destruct (Ipos.cut "&" after) as [[c y]|] eqn:E3.
    + pose proof (λ a b, cut_piece_free "&" _ _ _ a b ltac:(done) E3) as Hamp.
      apply cut_app in E3 as ->. exists before, ("&" +:+ y). split_and!.
      * done.
      * done.
      * right. left. by eexists.
      * done.
      * intros a b ->. apply (cut_None _ _ a (b +:+ "&" +:+ y) E2).
        by rewrite !append_assoc'.
    + exists before, "". split_and!.
      * by rewrite append_nil_r'.
      * done.
      * by left.
      * intros a b. by apply cut_None.
      * intros a b. by apply cut_None.
Qed.

(** On a URL with two cursors the first one is read. *)
Lemma first_cursor_is_read :
  Ipos.cursor_of "https://api.polygon.io/vX/reference/ipos?cursor=a&cursor=b"
  = Some "a"%string.
Proof. vm_compute. reflexivity. Qed.

Lemma sample_cursor : Ipos.cursor_of Examples.next_page_url = Some "YXA9MQ".
Proof. vm_compute. reflexivity. Qed.

(** ** The IPO merge *)

(** The IPO merge replaces by ticker: the merged frame holds the existing
    rows whose ticker is not among the fetched ones, followed by every
    fetched row, date columns passed through [pd.to_datetime]. *)
Theorem ipo_merge_replaces_by_ticker S F M W :
  F ≠ [] → Ipos.reconcile S F = Ok (M, W) →
  "ticker"%string ∈ Pandas.columns S →
  "ticker"%string ∈ Pandas.columns (Pandas.from_records F) →
  ∃ S' F',
    Forall2 (dates_converted Ipos.date_columns (Pandas.columns S))
      (Pandas.rows S) S' ∧
    Forall2 (dates_converted Ipos.date_columns
               (Pandas.columns (Pandas.from_records F))) F F' ∧
    Pandas.rows M
    = filter (λ r, Pandas.cell r "ticker"
                   ∉ (λ f, Pandas.cell f "ticker") <$> F') S' ++ F' ∧
    Pandas.columns M
    = Pandas.columns S ∪ Pandas.columns (Pandas.from_records F) ∧
    W = Some M.
Proof.
  intros HF HM HtS HtF. unfold Ipos.reconcile in HM.
  destruct F as [|f F]; [done|].
  set (new := Pandas.from_records (f :: F)) in *.
  destruct (Ipos.convert_dates Ipos.date_columns new S) as [[n' e']|?] eqn:Ec;
    [|done].
  rewrite bind_Ok in HM.
  apply convert_dates_each in Ec as [En Ee].
  apply (convert_each_inv _ _ _ date_columns_NoDup) in En as [Hcn Hrn].
  apply (convert_each_inv _ _ _ date_columns_NoDup) in Ee as [Hce Hre].
  rewrite Hcn, Hce in HM.
  rewrite !bool_decide_eq_true_2 in HM by done. cbn [andb] in HM.
  unfold Pandas.getitem, Pandas.drop_isin in HM. rewrite Hcn, Hce in HM.
  repeat (first [rewrite decide_True in HM by done|rewrite bind_Ok in HM]).
  injection HM as <- <-. exists (Pandas.rows e'), (Pandas.rows n').
  split; [done|]. split; [done|]. split; [done|]. split; [|done].
  cbn. set_solver.
Qed.

Lemma sample_ipo_merge :
  Ipos.reconcile Examples.ipo_snapshot [Examples.filed; Examples.filed]
  = Ok (Examples.ipo_merged, Some Examples.ipo_merged).
Proof. vm_compute. reflexivity. Qed.

Lemma ipo_merge_replaces_by_ticker_witness :
  ∃ S' F',
    Forall2 (dates_converted Ipos.date_columns
               (Pandas.columns Examples.ipo_snapshot))
      (Pandas.rows Examples.ipo_snapshot) S' ∧
    Forall2 (dates_converted Ipos.date_columns
               (Pandas.columns
                  (Pandas.from_records [Examples.filed; Examples.filed])))
      [Examples.filed; Examples.filed] F' ∧
    Pandas.rows Examples.ipo_merged
    = filter (λ r, Pandas.cell r "ticker"
                   ∉ (λ f, Pandas.cell f "ticker") <$> F') S' ++ F' ∧
    Pandas.columns Examples.ipo_merged
    = Pandas.columns Examples.ipo_snapshot
      ∪ Pandas.columns (Pandas.from_records [Examples.filed; Examples.filed]) ∧
    Some Examples.ipo_merged = Some Examples.ipo_merged.
Proof.
  apply (ipo_merge_replaces_by_ticker Examples.ipo_snapshot
           [Examples.filed; Examples.filed]).
  - discriminate.
  - apply sample_ipo_merge.
  - apply elem_of_from_records_columns. exists Examples.listed.
    split; [apply list_elem_of_here|]. exists (VStr "OLD"). vm_compute. reflexivity.
  - apply elem_of_from_records_columns. exists Examples.filed.
    split; [apply list_elem_of_here|]. exists (VStr "NEW"). vm_compute. reflexivity.
Defined.

(** ** Edge cases of the IPO pipeline *)

(** A snapshot file that loads but holds no rows stops the IPO pipeline:
    nothing is requested, nothing is written and the function returns
    [None]; the initial import is not run. *)
Theorem ipo_empty_snapshot_blocks_the_run w S :
  load_existing (Ipos.ipos_file w) = Some S → Pandas.empty S = true →
  Ipos.update_ipo_history w
  = Ok {| returned := None; written := None; logged := []; requests := [] |} ∧
  Ipos.update_ipo_history w ≠ Ipos.full_import w.
Proof.
  intros El He.
  assert (Ipos.update_ipo_history w
          = Ok {| returned := None; written := None; logged := [];
                  requests := [] |}) as E
    by (unfold Ipos.update_ipo_history; by rewrite El, He).
  split; [done|]. rewrite E. unfold Ipos.full_import.
  destruct (run _) as [s|e] eqn:Hr; [|done]. rewrite bind_Ok.
  destruct (Ipos.initial_import (acc s)) as [r|e]; [|done]. rewrite bind_Ok.
  unfold Ipos.finish. intros [=].
Qed.

Lemma ipo_empty_snapshot_blocks_the_run_witness :
  Ipos.update_ipo_history Examples.blocked_ipos
  = Ok {| returned := None; written := None; logged := []; requests := [] |} ∧
  Ipos.update_ipo_history Examples.blocked_ipos
  ≠ Ipos.full_import Examples.blocked_ipos.
Proof.
  apply (ipo_empty_snapshot_blocks_the_run Examples.blocked_ipos
           (Pandas.from_records [])).
  - reflexivity.
  - vm_compute. reflexivity.
Defined.

Lemma fetch_pages_first_error w n p (st : loop_state Ipos.params) e :
  Ipos.get_ipos w p = Raise e →
  Ipos.fetch_pages w (S n) p st
  = ({| acc := acc st; printed := printed st; calls := calls st ++ [p] |},
     Raise e).
Proof.
  intros H. cbn [Ipos.fetch_pages]. unfold bind, call, lift. cbn.
  by rewrite H.
Qed.

(** When the endpoint fails during the initial import, which runs when
    there is no snapshot or the snapshot has no [modified_date] column, the
    exception leaves [update_ipo_history]: nothing is returned or
    written. *)
Theorem ipo_initial_import_raises w e :
  (∀ S, load_existing (Ipos.ipos_file w) = Some S →
        Pandas.empty S = false ∧ "modified_date"%string ∉ Pandas.columns S) →
  Ipos.get_ipos w {| Ipos.modified_date_gte := None;
                     Ipos.sort := "listing_date"; Ipos.order := "asc";
                     Ipos.limit := 1000; Ipos.cursor := None |} = Raise e →
  Ipos.update_ipo_history w = Raise e.
Proof.
  intros Hs He.
  assert (Ipos.full_import w = Raise e) as Hfull.
  { unfold Ipos.full_import, run. change Ipos.max_pages with (S 99).
    by rewrite (fetch_pages_first_error w 99 _ start e He). }
  unfold Ipos.update_ipo_history.
  destruct (load_existing (Ipos.ipos_file w)) as [S|]; [|done].
  destruct (Hs S eq_refl) as [-> Hc]. by rewrite decide_False.
Qed.

Lemma ipo_initial_import_raises_witness :
  Ipos.update_ipo_history Examples.endpoint_unreachable
  = Raise Examples.unreachable.
Proof.
  apply (ipo_initial_import_raises Examples.endpoint_unreachable).
  - intros S. discriminate.
  - reflexivity.
Defined.

(** When the endpoint fails on the first request of an incremental run,
    the exception is printed and the run ends normally: the snapshot is
    returned and nothing is written. *)
Theorem ipo_incremental_run_survives_errors w S column from_date e :
  load_existing (Ipos.ipos_file w) = Some S → Pandas.empty S = false →
  Pandas.getitem S "modified_date" = Ok column →
  from_date_of column = Ok from_date →
  Ipos.get_ipos w {| Ipos.modified_date_gte := Some from_date;
                     Ipos.sort := "modified_date"; Ipos.order := "asc";
                     Ipos.limit := 1000; Ipos.cursor := None |} = Raise e →
  Ipos.update_ipo_history w
  = Ok {| returned := Some S; written := None; logged := [e];
          requests := [{| Ipos.modified_date_gte := Some from_date;
                          Ipos.sort := "modified_date"; Ipos.order := "asc";
                          Ipos.limit := 1000; Ipos.cursor := None |}] |}.
Proof.
  intros El Hem Hc Hf He.
  assert ("modified_date"%string ∈ Pandas.columns S) as Hin.
  { unfold Pandas.getitem in Hc. by destruct (decide _). }
  unfold Ipos.update_ipo_history. rewrite El, Hem.
  rewrite decide_True by done. rewrite Hc, bind_Ok, Hf, bind_Ok.
  unfold run, try_except. change Ipos.max_pages with (Datatypes.S 99).
  rewrite (fetch_pages_first_error w 99 _ start e He). reflexivity.
Qed.

Lemma ipo_incremental_run_survives_errors_witness :
  Ipos.update_ipo_history Examples.endpoint_unreachable_later
  = Ok {| returned := Some Examples.ipo_snapshot; written := None;
          logged := [Examples.unreachable];
          requests := [{| Ipos.modified_date_gte := Some "2024-01-03"%string;
                          Ipos.sort := "modified_date"; Ipos.order := "asc";
                          Ipos.limit := 1000; Ipos.cursor := None |}] |}.
Proof.
  apply (ipo_incremental_run_survives_errors
           Examples.endpoint_unreachable_later Examples.ipo_snapshot
           [Examples.date 2024 1 10] "2024-01-03" Examples.unreachable).
  - reflexivity.
  - vm_compute. reflexivity.
  - vm_compute. reflexivity.
  - vm_compute. reflexivity.
  - reflexivity.
Defined.

(** ** Fundamentals *)

Lemma keep_first_id_elem {A} `{EqDecision A} (l : list A) x :
  x ∈ keep_first id [] l ↔ x ∈ l.
Proof.
  split; [by intros [? _]%keep_first_elem|]. intros Hx.
  destruct (first_of_key id l x Hx) as (l1 & e & l2 & -> & Ee & Hl).
  unfold id in Ee. subst e.
  apply keep_first_first; [by intros ?%elem_of_nil|done].
Qed.

Lemma keep_first_id_NoDup {A} `{EqDecision A} (l : list A) :
  NoDup (keep_first id [] l).
Proof.
  pose proof (keep_first_NoDup id [] l) as H. by rewrite list_fmap_id in H.
Qed.

(** The tickers a fundamentals run skips are those that occur, not null,
    in the [ticker] column of a snapshot that could be read. *)
Lemma processed_of_spec file t :
  t ∈ Fundamentals.processed_of (load_existing file) ↔
  t ≠ VNull ∧
  ∃ S r, file = Some (Ok S) ∧ "ticker"%string ∈ Pandas.columns S ∧
         r ∈ Pandas.rows S ∧ r !! "ticker"%string = Some t.
Proof.
  destruct file as [[S|e]|]; cbn [load_existing Fundamentals.processed_of];
    [|split; [by intros ?%elem_of_nil|by intros (_ & ? & ? & [=] & _)]..].
  destruct (Pandas.empty S) eqn:Ee; cbn [negb andb].
  { split; [by intros ?%elem_of_nil|].
    intros (_ & S' & r & [= <-] & Hc & Hr & _).
    exfalso. unfold Pandas.empty in Ee.
    apply orb_true_iff in Ee as [Ee|Ee]; apply bool_decide_eq_true_1 in Ee.
    - rewrite Ee in Hc. by apply elem_of_empty in Hc.
    - rewrite Ee in Hr. by apply elem_of_nil in Hr. }
  destruct (bool_decide _) eqn:Ec.
  - apply bool_decide_eq_true_1 in Ec. unfold Pandas.dropna.
    rewrite list_elem_of_filter, list_elem_of_fmap. split.
    + intros (Hn & r & -> & Hr). split; [done|]. exists S, r.
      split; [done|]. split; [done|]. split; [done|].
      unfold Pandas.cell in *. by destruct (r !! "ticker"%string).
    + intros (Hn & S' & r & [= <-] & _ & Hr & Ht). split; [done|].
      exists r. split; [|done]. unfold Pandas.cell. by rewrite Ht.
  - apply bool_decide_eq_false_1 in Ec.
    split; [by intros ?%elem_of_nil|]. by intros (_ & S' & r & [= <-] & ? & _).
Qed.

(** A fundamentals run that returns has asked the vendor about every
    ticker of the universe file that is not null and does not occur in the
    [ticker] column of the snapshot it could read, once each, and about
    nothing else. *)
Theorem fundamentals_requests_unprocessed_tickers w meta column o :
  Fundamentals.all_ticker_meta w = Ok meta →
  Pandas.getitem meta "ticker" = Ok column →
  Fundamentals.update_fundamental_history w = Ok o →
  NoDup (requests o) ∧
  ∀ t, t ∈ requests o ↔
       t ∈ column ∧ t ≠ VNull ∧
       ¬ ∃ S r, Fundamentals.fundamentals_file w = Some (Ok S) ∧
                "ticker"%string ∈ Pandas.columns S ∧
                r ∈ Pandas.rows S ∧ r !! "ticker"%string = Some t.
Proof.
  intros Hm Ht Ho.
  destruct (fundamentals_run w meta column Hm Ht) as (s & _ & _ & _ & Hc & E).
  rewrite E in Ho.
  destruct (Fundamentals.reconcile _ _) as [r|e]; [|done].
  rewrite bind_Ok in Ho. injection Ho as <-. cbn [requests]. rewrite Hc.
  split.
  - apply NoDup_filter. unfold Pandas.dropna. apply NoDup_filter.
    apply keep_first_id_NoDup.
  - intros t. rewrite list_elem_of_filter. unfold Pandas.dropna.
    rewrite list_elem_of_filter, keep_first_id_elem, processed_of_spec.
    naive_solver.
Qed.

Lemma second_ticker :
  Fundamentals.update_fundamental_history Examples.second_ticker_run
  = Ok Examples.second_ticker_outcome.
Proof. vm_compute. reflexivity. Qed.

Lemma fundamentals_requests_unprocessed_tickers_witness :
  NoDup (requests Examples.second_ticker_outcome) ∧
  ∀ t, t ∈ requests Examples.second_ticker_outcome ↔
       t ∈ [VStr "AAPL"; VStr "MSFT"] ∧ t ≠ VNull ∧
       ¬ ∃ S r, Fundamentals.fundamentals_file Examples.second_ticker_run
                = Some (Ok S) ∧
                "ticker"%string ∈ Pandas.columns S ∧
                r ∈ Pandas.rows S ∧ r !! "ticker"%string = Some t.
Proof.
  apply (fundamentals_requests_unprocessed_tickers
           Examples.second_ticker_run Examples.two_tickers).
  - reflexivity.
  - vm_compute. reflexivity.
  - apply second_ticker.
Defined.

(** In the sample run the snapshot covers AAPL: MSFT is asked, AAPL is
    not. *)
Lemma covered_ticker_is_skipped :
  requests Examples.second_ticker_outcome = [VStr "MSFT"] ∧
  Examples.filed_q1 ∈ Pandas.rows Examples.fundamentals_snapshot ∧
  Examples.filed_q1 !! "ticker"%string = Some (VStr "AAPL").
Proof. split; [done|]. split; [apply list_elem_of_here|by vm_compute]. Qed.

(** When every ticker of the universe file is null or occurs in the
    snapshot, a fundamentals run asks the vendor nothing, writes nothing
    and returns what it loaded. *)
Theorem fundamentals_nothing_to_do w meta column :
  Fundamentals.all_ticker_meta w = Ok meta →
  Pandas.getitem meta "ticker" = Ok column →
  (∀ t, t ∈ column →
        t = VNull ∨
        t ∈ Fundamentals.processed_of
              (load_existing (Fundamentals.fundamentals_file w))) →
  Fundamentals.update_fundamental_history w
  = Ok {| returned := load_existing (Fundamentals.fundamentals_file w);
          written := None; logged := []; requests := [] |}.
Proof.
  intros Hm Ht Hall.
  destruct (fundamentals_run w meta column Hm Ht) as (s & _ & Ha & Hp & Hc & ->).
  assert (filter (λ t, t ∉ Fundamentals.processed_of
                         (load_existing (Fundamentals.fundamentals_file w)))
            (Pandas.dropna (keep_first id [] column)) = []) as E.
  { apply elem_of_nil_inv. intros t. rewrite list_elem_of_filter.
    unfold Pandas.dropna. rewrite list_elem_of_filter, keep_first_id_elem.
    intros (Hn & Hnull & Hin). by destruct (Hall t Hin). }
  rewrite E in Ha, Hp, Hc. cbn in Ha, Hp, Hc. rewrite Ha, Hp, Hc.
  reflexivity.
Qed.

Lemma fundamentals_nothing_to_do_witness :
  Fundamentals.update_fundamental_history Examples.restatement_run
  = Ok {| returned := load_existing (Fundamentals.fundamentals_file
                                       Examples.restatement_run);
          written := None; logged := []; requests := [] |}.
Proof.
  apply (fundamentals_nothing_to_do Examples.restatement_run
           Examples.ticker_meta [VStr "AAPL"]).
  - reflexivity.
  - vm_compute. reflexivity.
  - intros t ->%list_elem_of_singleton. right.
    apply (bool_decide_unpack _). vm_compute. exact I.
Defined.

(** The merge of fundamentals keeps the first row of every natural key,
    existing rows first: the merged frame is the frame written, it has no
    two rows with the same key, every row of it is an existing or a
    fetched one, every fetched key is in it, and a snapshot without
    duplicate keys survives as it is, in front. *)
Theorem fundamentals_merge_keeps_first S F M W :
  F ≠ [] → Fundamentals.reconcile (Some S) F = Ok (M, W) →
  ∃ D, M = Some D ∧ W = Some D ∧
       unique_keys Fundamentals.natural_key (Pandas.rows D) ∧
       (∀ r, r ∈ Pandas.rows D → r ∈ Pandas.rows S ∨ r ∈ F) ∧
       (∀ f, f ∈ F → ∃ d, d ∈ Pandas.rows D ∧
            Pandas.key_of Fundamentals.natural_key d
            = Pandas.key_of Fundamentals.natural_key f) ∧
       (unique_keys Fundamentals.natural_key (Pandas.rows S) →
        ∃ N, Pandas.rows D = Pandas.rows S ++ N).
Proof.
  intros HF HM.
  destruct (fundamentals_reconcile_inv S F M W HF HM) as (D & -> & -> & E).
  exists D. split; [done|]. split; [done|]. rewrite E. split_and!.
  - apply keep_first_NoDup.
  - intros r [Hr _]%keep_first_elem. by apply elem_of_app in Hr.
  - intros f Hf.
    destruct (first_of_key (Pandas.key_of Fundamentals.natural_key)
                (Pandas.rows S ++ F) f) as (l1 & e & l2 & El & Ee & Hl);
      [apply elem_of_app; by right|].
    exists e. split; [|done]. rewrite El. apply keep_first_first.
    + by intros ?%elem_of_nil.
    + intros y Hy. rewrite Ee. by apply Hl.
  - intros Hu. eexists. by apply keep_first_prefix.
Qed.

Lemma sample_fundamentals_merge :
  Fundamentals.reconcile (Some Examples.fundamentals_snapshot)
    [Examples.restated_q1]
  = Ok (Some Examples.fundamentals_merged,
        Some Examples.fundamentals_merged).
Proof. vm_compute. reflexivity. Qed.

Lemma fundamentals_merge_keeps_first_witness :
  ∃ D, Some Examples.fundamentals_merged = Some D ∧
       Some Examples.fundamentals_merged = Some D ∧
       unique_keys Fundamentals.natural_key (Pandas.rows D) ∧
       (∀ r, r ∈ Pandas.rows D →
             r ∈ Pandas.rows Examples.fundamentals_snapshot
             ∨ r ∈ [Examples.restated_q1]) ∧
       (∀ f, f ∈ [Examples.restated_q1] → ∃ d, d ∈ Pandas.rows D ∧
            Pandas.key_of Fundamentals.natural_key d
            = Pandas.key_of Fundamentals.natural_key f) ∧
       (unique_keys Fundamentals.natural_key
          (Pandas.rows Examples.fundamentals_snapshot) →
        ∃ N, Pandas.rows D
             = Pandas.rows Examples.fundamentals_snapshot ++ N).
Proof.
  apply (fundamentals_merge_keeps_first Examples.fundamentals_snapshot
           [Examples.restated_q1]).
  - discriminate.
  - apply sample_fundamentals_merge.
Defined.

(** ** Snapshots without a usable watermark *)

(** The pages fetched depend on the world through the endpoint only. *)
Lemma fetch_pages_ext w w' n p (st : loop_state Ipos.params) :
  (∀ q, Ipos.get_ipos w q = Ipos.get_ipos w' q) →
  Ipos.fetch_pages w n p st = Ipos.fetch_pages w' n p st.
Proof.
  intros H. revert p st. induction n as [|n IH]; intros p st; [done|].
  cbn [Ipos.fetch_pages]. unfold bind, call, lift. cbn -[for_each].
  rewrite <- H.
  destruct (Ipos.get_ipos w p) as [[[[[|ipo l]|] next]|]|e]; try done.
  cbn -[for_each]. rewrite for_each_append. cbn.
  destruct next as [url|]; [|done].
  destruct (decide (url = EmptyString)); [done|].
  destruct (Ipos.cursor_of url) as [c|]; [|done]. apply IH.
Qed.

Lemma full_import_without_file w :
  read_error (Ipos.ipos_file w) = [] →
  Ipos.update_ipo_history (ipos_without_file w) = Ipos.full_import w.
Proof.
  intros E.
  change (Ipos.update_ipo_history (ipos_without_file w))
    with (Ipos.full_import (ipos_without_file w)).
  unfold Ipos.full_import, run, after_read_error. rewrite E.
  by rewrite (fetch_pages_ext (ipos_without_file w) w).
Qed.

(** An IPO snapshot with rows but without a [modified_date] column is set
    aside: the run is the run that finds no file, an initial import. *)
Theorem ipo_snapshot_without_watermark_is_discarded w S :
  load_existing (Ipos.ipos_file w) = Some S → Pandas.empty S = false →
  "modified_date"%string ∉ Pandas.columns S →
  Ipos.update_ipo_history w = Ipos.update_ipo_history (ipos_without_file w).
Proof.
  intros El He Hc. rewrite full_import_without_file
    by (by destruct (Ipos.ipos_file w) as [[?|?]|]).
  unfold Ipos.update_ipo_history. rewrite El, He.
  rewrite decide_False by done. reflexivity.
Qed.

Lemma not_a_column (c : string) (F : list (gmap string value)) :
  (∀ r, r ∈ F → r !! c = None) → c ∉ Pandas.columns (Pandas.from_records F).
Proof.
  intros H (r & Hr & [v Hv])%elem_of_from_records_columns.
  by rewrite (H r Hr) in Hv.
Qed.

Lemma ipo_snapshot_without_watermark_is_discarded_witness :
  Ipos.update_ipo_history Examples.foreign_ipos
  = Ipos.update_ipo_history (ipos_without_file Examples.foreign_ipos).
Proof.
  apply (ipo_snapshot_without_watermark_is_discarded
           Examples.foreign_ipos Examples.ticker_meta).
  - reflexivity.
  - vm_compute. reflexivity.
  - apply not_a_column. intros r ->%list_elem_of_singleton. reflexivity.
Defined.

(** A dividends snapshot with rows and without an [ex_dividend_date]
    column aborts the run with a [KeyError], before any request. *)
Theorem dividends_snapshot_without_watermark_raises w meta tickers S :
  Dividends.all_ticker_meta w = Ok meta →
  Pandas.getitem meta "ticker" = Ok tickers →
  load_existing (Dividends.dividends_file w) = Some S →
  Pandas.empty S = false →
  "ex_dividend_date"%string ∉ Pandas.columns S →
  Dividends.update_dividend_history w = Raise (KeyError "ex_dividend_date").
Proof.
  intros Hm Ht El He Hc. unfold Dividends.update_dividend_history.
  rewrite Hm, bind_Ok, Ht, bind_Ok, El, He. unfold Pandas.getitem.
  by rewrite decide_False.
Qed.

Lemma dividends_snapshot_without_watermark_raises_witness :
  Dividends.update_dividend_history Examples.foreign_run
  = Raise (KeyError "ex_dividend_date").
Proof.
  apply (dividends_snapshot_without_watermark_raises Examples.foreign_run
           Examples.ticker_meta [VStr "AAPL"] Examples.ticker_meta).
  - reflexivity.
  - vm_compute. reflexivity.
  - reflexivity.
  - vm_compute. reflexivity.
  - apply not_a_column. intros r ->%list_elem_of_singleton. reflexivity.
Defined.

Lemma rmap_nulls column :
  (∀ v, v ∈ column → v = VNull) →
  rmap Pandas.to_datetime column = Ok column.
Proof.
  induction column as [|v l IH]; intros H; [done|].
  cbn [rmap]. rewrite (H v) by (by left). cbn.
  rewrite IH by (intros v' ?; apply H; by right). done.
Qed.

(** A dividends snapshot whose [ex_dividend_date] column holds no date at
    all (every cell is null) aborts the run: the latest date is [NaT],
    which cannot be printed. *)
Theorem dividends_null_watermark_raises w meta tickers S column :
  Dividends.all_ticker_meta w = Ok meta →
  Pandas.getitem meta "ticker" = Ok tickers →
  load_existing (Dividends.dividends_file w) = Some S →
  Pandas.empty S = false →
  Pandas.getitem S "ex_dividend_date" = Ok column →
  (∀ v, v ∈ column → v = VNull) →
  Dividends.update_dividend_history w
  = Raise (ValueError "NaTType does not support strftime").
Proof.
  intros Hm Ht El He Hc Hn. unfold Dividends.update_dividend_history.
  rewrite Hm, bind_Ok, Ht, bind_Ok, El, He, Hc, bind_Ok.
  unfold from_date_of. rewrite (rmap_nulls column Hn), bind_Ok.
  rewrite (proj2 (series_max_None column)); [done|].
  intros d Hd. by specialize (Hn _ Hd).
Qed.

Lemma dividends_null_watermark_raises_witness :
  Dividends.update_dividend_history Examples.undated_run
  = Raise (ValueError "NaTType does not support strftime").
Proof.
  apply (dividends_null_watermark_raises Examples.undated_run
           Examples.ticker_meta [VStr "AAPL"]
           (Pandas.from_records [Examples.undated]) [VNull]).
  - reflexivity.
  - vm_compute. reflexivity.
  - reflexivity.
  - vm_compute. reflexivity.
  - vm_compute. reflexivity.
  - by intros v ->%list_elem_of_singleton.
Defined.

Lemma rmap_Raise {A B} (f : A → result B) l x e :
  x ∈ l → f x = Raise e → ∃ e', rmap f l = Raise e'.
Proof.
  induction l as [|a l IH]; [by intros ?%elem_of_nil|].
  intros [->|Hx]%elem_of_cons Hf; cbn [rmap].
  - rewrite Hf. by eexists.
  - destruct (f a) as [b|e1]; [|by eexists]. rewrite bind_Ok.
    destruct (IH Hx Hf) as [e' ->]. by eexists.
Qed.

(** ** Splits *)

(** A batch of splits in which no record has a [split_to] field aborts the
    merge with a [KeyError] when the ratio is computed, before anything is
    written; an initial import of such a batch fails the same way. *)
Theorem splits_without_numbers_raise divide S F :
  F ≠ [] →
  "split_to"%string ∉ Pandas.columns (Pandas.from_records F) →
  Splits.reconcile divide S F = Raise (KeyError "split_to") ∧
  (Pandas.empty (Pandas.from_records F) = false →
   Splits.initial_import divide F = Raise (KeyError "split_to")).
Proof.
  intros HF Hc.
  assert (Splits.add_ratio divide (Pandas.from_records F)
          = Raise (KeyError "split_to")) as E.
  { unfold Splits.add_ratio, Pandas.getitem.
    rewrite (decide_False (P := "split_to"%string ∈ _)) by done. reflexivity. }
  split.
  - unfold Splits.reconcile. destruct F; [done|]. by rewrite E.
  - intros He. unfold Splits.initial_import. by rewrite He, E.
Qed.

Lemma splits_without_numbers_raise_witness :
  Splits.reconcile Examples.quotient Examples.splits_snapshot
    [Examples.bare_split] = Raise (KeyError "split_to") ∧
  (Pandas.empty (Pandas.from_records [Examples.bare_split]) = false →
   Splits.initial_import Examples.quotient [Examples.bare_split]
   = Raise (KeyError "split_to")).
Proof.
  apply (splits_without_numbers_raise Examples.quotient
           Examples.splits_snapshot [Examples.bare_split]).
  - discriminate.
  - apply not_a_column. intros r ->%list_elem_of_singleton. reflexivity.
Defined.

Lemma add_ratio_inv divide df df' :
  Splits.add_ratio divide df = Ok df' →
  "ratio"%string ∈ Pandas.columns df' ∧
  (length (Pandas.rows df') ≤ length (Pandas.rows df))%nat.
Proof.
  unfold Splits.add_ratio.
  destruct (Pandas.getitem df "split_to") as [a|?]; [|done]. rewrite bind_Ok.
  destruct (Pandas.getitem df "split_from") as [b|?]; [|done]. rewrite bind_Ok.
  intros [= <-]. cbn. split; [set_solver|].
  rewrite length_zip_with. lia.
Qed.

(** The merge of splits keeps the first row of every natural key, existing
    rows first: the merged frame is the frame written, it has a [ratio]
    column and no two rows with the same key, it is no longer than the
    two inputs together, and existing rows with distinct keys survive in
    front, their [execution_date] passed through [pd.to_datetime]. *)
Theorem splits_merge_keeps_first divide S F M W :
  F ≠ [] → Splits.reconcile divide S F = Ok (M, W) →
  W = Some M ∧
  unique_keys Splits.natural_key (Pandas.rows M) ∧
  "ratio"%string ∈ Pandas.columns M ∧
  (length (Pandas.rows M) ≤ length (Pandas.rows S) + length F)%nat ∧
  ∃ S', Forall2 (converted "execution_date") (Pandas.rows S) S' ∧
        (unique_keys Splits.natural_key S' → ∃ N, Pandas.rows M = S' ++ N).
Proof.
  intros HF. unfold Splits.reconcile. destruct F as [|f F]; [done|].
  set (new := Pandas.from_records (f :: F)).
  destruct (Splits.add_ratio divide new) as [new1|?] eqn:E1; [|done].
  rewrite bind_Ok. apply add_ratio_inv in E1 as [Hr Hl1].
  destruct (if decide ("execution_date"%string ∈ Pandas.columns new1)
            then Pandas.convert_column new1 "execution_date" else Ok new1)
    as [new2|?] eqn:E2; [|done].
  assert (Pandas.columns new2 = Pandas.columns new1 ∧
          length (Pandas.rows new2) = length (Pandas.rows new1)) as [Hc2 Hl2].
  { destruct (decide _).
    - apply convert_column_inv in E2 as (_ & ? & H2). split; [done|].
      symmetry. by eapply Forall2_length.
    - by injection E2 as <-. }
  rewrite bind_Ok.
  destruct (Pandas.convert_column S "execution_date") as [S'|?] eqn:E3; [|done].
  rewrite bind_Ok. apply convert_column_inv in E3 as (_ & Hc3 & H3).
  destruct (Pandas.drop_duplicates _ _) as [D|?] eqn:E4; [|done].
  rewrite bind_Ok. intros [= <- <-].
  apply drop_duplicates_inv in E4 as [Hc4 Hr4]. cbn in Hc4, Hr4.
  split; [done|]. rewrite Hr4. split_and!.
  - apply keep_first_NoDup.
  - rewrite Hc4, Hc2. set_solver.
  - etrans; [apply keep_first_length|]. rewrite length_app.
    rewrite <- (Forall2_length _ _ _ H3).
    cbn [length Pandas.rows new Pandas.from_records] in *. lia.
  - exists (Pandas.rows S'). split; [done|]. intros Hu. eexists.
    by apply keep_first_prefix.
Qed.

Lemma sample_splits_merge :
  Splits.reconcile Examples.quotient Examples.splits_snapshot
    [Examples.split_fetched]
  = Ok (Examples.splits_snapshot, Some Examples.splits_snapshot).
Proof. vm_compute. reflexivity. Qed.

Lemma splits_merge_keeps_first_witness :
  Some Examples.splits_snapshot = Some Examples.splits_snapshot ∧
  unique_keys Splits.natural_key (Pandas.rows Examples.splits_snapshot) ∧
  "ratio"%string ∈ Pandas.columns Examples.splits_snapshot ∧
  (length (Pandas.rows Examples.splits_snapshot)
   ≤ length (Pandas.rows Examples.splits_snapshot)
     + length [Examples.split_fetched])%nat ∧
  ∃ S', Forall2 (converted "execution_date")
          (Pandas.rows Examples.splits_snapshot) S' ∧
        (unique_keys Splits.natural_key S' →
         ∃ N, Pandas.rows Examples.splits_snapshot = S' ++ N).
Proof.
  apply (splits_merge_keeps_first Examples.quotient
           Examples.splits_snapshot [Examples.split_fetched]).
  - discriminate.
  - apply sample_splits_merge.
Defined.

(** ** Ticker events *)

(** The rows of a FIGI are collected together or not at all: when one of
    its events has no [ticker_change] entry, the initial import logs the
    [KeyError] and appends no row for that FIGI, not even for the events
    before the faulty one. *)
Theorem broken_event_drops_the_figi w figi response l row
    (st : loop_state value) :
  TickerEvents.get_ticker_events w figi = Ok (Some response) →
  TickerEvents.events response = Some l → row ∈ l →
  TickerEvents.ticker_change row = None →
  ∃ e, TickerEvents.fetch_figi w (λ _, TickerEvents.collect_all) figi st
       = ({| acc := acc st; printed := printed st ++ [e];
             calls := calls st ++ [figi] |}, Ok tt).
Proof.
  intros Hg Hl Hrow Hc.
  assert (∃ e, TickerEvents.collection_dict response row = Raise e) as [e He].
  { unfold TickerEvents.collection_dict.
    destruct (TickerEvents.attr "name" _) as [?|e]; [|by exists e].
    rewrite bind_Ok.
    destruct (TickerEvents.attr "composite_figi" _) as [?|e]; [|by exists e].
    rewrite bind_Ok, Hc. by eexists. }
  destruct (rmap_Raise (TickerEvents.collection_dict response) l row e Hrow He)
    as [e' He'].
  exists e'. rewrite fetch_figi_total.
  unfold figi_rows, figi_error, figi_outcome. rewrite Hg, bind_Ok, Hl.
  destruct l as [|r0 l0]; [by apply elem_of_nil in Hrow|].
  unfold TickerEvents.collect_all. rewrite He'. by rewrite app_nil_r.
Qed.

Lemma broken_event_drops_the_figi_witness :
  ∃ e, TickerEvents.fetch_figi Examples.delisted_world
         (λ _, TickerEvents.collect_all) Examples.figi start
       = ({| acc := acc (start (Q:=value));
             printed := printed (start (Q:=value)) ++ [e];
             calls := calls (start (Q:=value)) ++ [Examples.figi] |}, Ok tt).
Proof.
  apply (broken_event_drops_the_figi Examples.delisted_world Examples.figi
           Examples.delisted [Examples.old_change; Examples.delisting]
           Examples.delisting).
  - reflexivity.
  - reflexivity.
  - apply list_elem_of_further, list_elem_of_here.
  - reflexivity.
Defined.

Lemma sample_events_import :
  TickerEvents.initial_import
    [Examples.event_fetched; Examples.event_fetched]
  = Ok (Examples.events_snapshot, Some Examples.events_snapshot).
Proof. vm_compute. reflexivity. Qed.

Lemma sample_events_merge :
  TickerEvents.reconcile Examples.events_snapshot
    [Examples.event_fetched]
  = Ok (Examples.events_snapshot, Some Examples.events_snapshot).
Proof. vm_compute. reflexivity. Qed.

(** The merge of ticker events keeps the first row of every natural key,
    existing rows first: the merged frame is the frame written, it has no
    two rows with the same key, of an existing and a fetched row with one
    key the existing one is kept, and existing rows with distinct keys
    survive in front.  Dates are compared after [pd.to_datetime]. *)
Theorem ticker_events_merge_keeps_first S F M W :
  F ≠ [] → TickerEvents.reconcile S F = Ok (M, W) →
  W = Some M ∧
  unique_keys TickerEvents.natural_key (Pandas.rows M) ∧
  ∃ S' F',
    Forall2 (converted "date") (Pandas.rows S) S' ∧
    Forall2 (converted "date") F F' ∧
    first_wins TickerEvents.natural_key S' F' (Pandas.rows M) ∧
    (unique_keys TickerEvents.natural_key S' →
     ∃ N, Pandas.rows M = S' ++ N).
Proof.
  intros HF HM.
  destruct (ticker_events_reconcile_inv S F M W HF HM)
    as (S' & F' & HS & HF' & E & ->).
  split; [done|]. rewrite E. split; [apply keep_first_NoDup|].
  exists S', F'. split; [done|]. split; [done|]. split.
  - intros s f Hs Hf Ek. by apply keep_first_existing_wins.
  - intros Hu. eexists. by apply keep_first_prefix.
Qed.

Lemma ticker_events_merge_keeps_first_witness :
  Some Examples.events_snapshot = Some Examples.events_snapshot ∧
  unique_keys TickerEvents.natural_key
    (Pandas.rows Examples.events_snapshot) ∧
  ∃ S' F',
    Forall2 (converted "date") (Pandas.rows Examples.events_snapshot) S' ∧
    Forall2 (converted "date") [Examples.event_fetched] F' ∧
    first_wins TickerEvents.natural_key S' F'
      (Pandas.rows Examples.events_snapshot) ∧
    (unique_keys TickerEvents.natural_key S' →
     ∃ N, Pandas.rows Examples.events_snapshot = S' ++ N).
Proof.
  apply (ticker_events_merge_keeps_first Examples.events_snapshot
           [Examples.event_fetched]);
    [discriminate|apply sample_events_merge].
Defined.

(** The initial import of ticker events, unlike those of the other
    pipelines, removes duplicates: when any row was collected, the frame
    written is the frame returned, it holds the first row of every natural
    key, dates converted, and so no two rows with the same key. *)
Theorem ticker_events_initial_import_deduplicates F M W :
  Pandas.empty (Pandas.from_records F) = false →
  TickerEvents.initial_import F = Ok (M, W) →
  W = Some M ∧
  unique_keys TickerEvents.natural_key (Pandas.rows M) ∧
  ∃ F', Forall2 (converted "date") F F' ∧
        Pandas.rows M
        = keep_first (Pandas.key_of TickerEvents.natural_key) [] F'.
Proof.
  intros He [(He' & _)|(F' & HF' & E & ->)]%ticker_events_initial_import_inv;
    [congruence|].
  split; [done|]. rewrite E. split; [apply keep_first_NoDup|]. by exists F'.
Qed.

Lemma ticker_events_initial_import_deduplicates_witness :
  Some Examples.events_snapshot = Some Examples.events_snapshot ∧
  unique_keys TickerEvents.natural_key
    (Pandas.rows Examples.events_snapshot) ∧
  ∃ F', Forall2 (converted "date")
          [Examples.event_fetched; Examples.event_fetched] F' ∧
        Pandas.rows Examples.events_snapshot
        = keep_first (Pandas.key_of TickerEvents.natural_key) [] F'.
Proof.
  apply (ticker_events_initial_import_deduplicates
           [Examples.event_fetched; Examples.event_fetched]).
  - apply (not_true_is_false _). intros [H|H]%orb_true_iff;
      apply bool_decide_eq_true_1 in H; [|discriminate].
    assert ("date"%string ∈ (∅ : gset string)) as Hin; [|set_solver].
    rewrite <- H. apply elem_of_from_records_columns.
    exists Examples.event_fetched. split; [apply list_elem_of_here|].
    exists (VStr "2024-04-09"). vm_compute. reflexivity.
  - apply sample_events_import.
Defined.

Lemma from_date_reads_back_witness :
  ∃ latest,
    Pandas.series_max <$> rmap Pandas.to_datetime [VStr "2024-04-10"]
    = Ok (Some latest) ∧
    Pandas.to_datetime (VStr "2024-04-03") = Ok (VDate (latest - lookback_days)).
Proof.
  apply (from_date_reads_back [VStr "2024-04-10"] "2024-04-03").
  vm_compute. reflexivity.
Defined.

(** ** The dividends merge, as a whole *)

(** The dividends merge invents no record and loses no key: every merged
    row is an existing or a fetched one (dates converted), every key of an
    existing or fetched row is the key of a merged row, and the merged
    frame is no longer than the two inputs together. *)
Theorem dividends_merge_covers_every_key S F M W :
  F ≠ [] → Dividends.reconcile S F = Ok (M, W) →
  ∃ S' F',
    Forall2 (converted "ex_dividend_date") (Pandas.rows S) S' ∧
    converted_new "ex_dividend_date" F F' ∧
    (∀ m, m ∈ Pandas.rows M → m ∈ S' ∨ m ∈ F') ∧
    (∀ r, r ∈ S' ∨ r ∈ F' →
       ∃ m, m ∈ Pandas.rows M ∧
            Pandas.key_of Dividends.natural_key m
            = Pandas.key_of Dividends.natural_key r) ∧
    (length (Pandas.rows M) ≤ length (Pandas.rows S) + length F)%nat.
Proof.
  intros HF HM.
  destruct (dividends_reconcile_inv S F M W HF HM) as (S' & F' & HS & HF' & E & _).
  exists S', F'. split; [done|]. split; [done|]. rewrite E. split_and!.
  - intros m [Hm _]%keep_first_elem. by apply elem_of_app in Hm.
  - intros r Hr%elem_of_app.
    destruct (first_of_key (Pandas.key_of Dividends.natural_key) (S' ++ F') r Hr)
      as (l1 & e & l2 & El & Ee & Hl).
    exists e. split; [|done]. rewrite El. apply keep_first_first.
    + by intros ?%elem_of_nil.
    + intros y Hy. rewrite Ee. by apply Hl.
  - etrans; [apply keep_first_length|]. rewrite length_app.
    rewrite <- (Forall2_length _ _ _ HS).
    assert (length F' = length F) as ->; [|done].
    unfold converted_new in HF'. destruct (decide _); [|by subst].
    symmetry. by eapply Forall2_length.
Qed.

Lemma dividends_merge_covers_every_key_witness :
  ∃ S' F',
    Forall2 (converted "ex_dividend_date")
      (Pandas.rows Examples.snapshot) S' ∧
    converted_new "ex_dividend_date" [Examples.recent] F' ∧
    (∀ m, m ∈ Pandas.rows Examples.grown → m ∈ S' ∨ m ∈ F') ∧
    (∀ r, r ∈ S' ∨ r ∈ F' →
       ∃ m, m ∈ Pandas.rows Examples.grown ∧
            Pandas.key_of Dividends.natural_key m
            = Pandas.key_of Dividends.natural_key r) ∧
    (length (Pandas.rows Examples.grown)
     ≤ length (Pandas.rows Examples.snapshot) + length [Examples.recent])%nat.
Proof.
  apply (dividends_merge_covers_every_key Examples.snapshot [Examples.recent]
           Examples.grown (Some Examples.grown));
    [discriminate|apply sample_growth].
Defined.

(** ** Merging the same batch again *)
Section Again.
Import Pandas.

Lemma to_datetime_idem v v' : to_datetime v = Ok v' → to_datetime v' = Ok v'.
Proof.
  destruct v as [|s|n|d]; simpl; [by intros [= <-]| |done|by intros [= <-]].
  destruct (Dates.parse_date s); simpl; [|done]. by intros [= <-].
Qed.

(** Converting a converted row changes nothing. *)
Lemma converted_again c r r' : converted c r r' → converted c r' r'.
Proof.
  intros (v & Hv & ->). exists v. unfold cell. rewrite lookup_insert_eq. simpl.
  split; [by eapply to_datetime_idem|]. by rewrite insert_insert_eq.
Qed.

Lemma keep_first_all_seen {A K} `{EqDecision K} (key : A → K) seen l :
  (∀ x, x ∈ l → key x ∈ seen) → keep_first key seen l = [].
Proof.
  induction l as [|x l IH]; intros H; simpl; [done|].
  rewrite decide_True by (apply H; by left). apply IH.
  intros y ?. apply H. by right.
Qed.

(** Every key of a list is the key of a kept row. *)
Lemma keep_first_covers {A K} `{EqDecision K} (key : A → K) l x :
  x ∈ l → key x ∈ key <$> keep_first key [] l.
Proof.
  intros Hx. destruct (first_of_key key l x Hx) as (l1 & e & l2 & -> & Ee & Hl).
  rewrite <- Ee. apply list_elem_of_fmap_2. apply keep_first_first.
  - by intros ?%elem_of_nil.
  - intros y Hy. rewrite Ee. by apply Hl.
Qed.

(** Deduplicating a deduplicated list followed by rows of known keys
    gives the deduplicated list back. *)
Lemma keep_first_again {A K} `{EqDecision K} (key : A → K) l1 l2 :
  (∀ x, x ∈ l2 → x ∈ l1) →
  keep_first key [] (keep_first key [] l1 ++ l2) = keep_first key [] l1.
Proof.
  intros Hsub. rewrite keep_first_prefix by apply keep_first_NoDup.
  rewrite (keep_first_all_seen key (key <$> keep_first key [] l1) l2);
    [by rewrite app_nil_r|].
  intros x Hx. by apply keep_first_covers, Hsub.
Qed.

End Again.

(** Merging a batch a second time changes nothing: when the dividends
    merge of a batch in which some record has an [ex_dividend_date] gave
    the frame [M], merging the same batch into [M] gives [M] again.  This is
    what makes fetching the lookback window over and over harmless. *)
Theorem dividends_merge_is_idempotent S F M W :
  F ≠ [] →
  "ex_dividend_date"%string ∈ Pandas.columns (Pandas.from_records F) →
  Dividends.reconcile S F = Ok (M, W) →
  Dividends.reconcile M F = Ok (M, Some M).
Proof.
  intros HF Hc. unfold Dividends.reconcile. destruct F as [|f F]; [done|].
  set (new := Pandas.from_records (f :: F)) in *.
  rewrite !decide_True by done.
  destruct (Pandas.convert_column new _) as [new1|?] eqn:En; [|done].
  rewrite !bind_Ok.
  destruct (Pandas.convert_column S _) as [S1|?] eqn:Es; [|done].
  rewrite bind_Ok.
  destruct (Pandas.drop_duplicates _ _) as [D|?] eqn:Ed; [|done].
  rewrite bind_Ok. intros [= <- _].
  apply convert_column_inv in En as (_ & Hcn & Hn).
  apply convert_column_inv in Es as (HcS & Hcs & Hs).
  unfold Pandas.drop_duplicates in Ed.
  destruct (filter _ Dividends.natural_key) as [|? ?] eqn:Ef; [|done].
  injection Ed as <-. cbn [Pandas.concat Pandas.columns Pandas.rows] in *.
  set (rowsD := keep_first (Pandas.key_of Dividends.natural_key) []
                  (Pandas.rows S1 ++ Pandas.rows new1)).
  assert (Forall2 (converted "ex_dividend_date") rowsD rowsD) as Hd.
  { apply Forall_Forall2_diag, Forall_forall. intros r [Hr _]%keep_first_elem.
    apply elem_of_app in Hr as [Hr|Hr].
    - destruct (Forall2_elem_of_r _ _ _ r Hs Hr) as (r0 & _ & H0).
      by eapply converted_again.
    - destruct (Forall2_elem_of_r _ _ _ r Hn Hr) as (r0 & _ & H0).
      by eapply converted_again. }
  rewrite (convert_column_intro
             {| Pandas.columns := Pandas.columns S1 ∪ Pandas.columns new1;
                Pandas.rows := rowsD |} "ex_dividend_date" rowsD);
    [|cbn; set_solver|exact Hd].
  rewrite bind_Ok. unfold Pandas.drop_duplicates.
  cbn [Pandas.concat Pandas.columns Pandas.rows].
  assert (Pandas.columns S1 ∪ Pandas.columns new1 ∪ {["ex_dividend_date"%string]}
          ∪ Pandas.columns new1
          = Pandas.columns S1 ∪ Pandas.columns new1) as -> by set_solver.
  rewrite Ef, bind_Ok. unfold rowsD.
  rewrite keep_first_again; [done|]. intros x Hx. apply elem_of_app. by right.
Qed.

Lemma dividends_merge_is_idempotent_witness :
  Dividends.reconcile Examples.grown [Examples.recent]
  = Ok (Examples.grown, Some Examples.grown).
Proof.
  apply (dividends_merge_is_idempotent Examples.snapshot [Examples.recent]
           Examples.grown (Some Examples.grown)).
  - discriminate.
  - apply elem_of_from_records_columns. exists Examples.recent.
    split; [apply list_elem_of_here|].
    exists (VStr "2024-04-10"). vm_compute. reflexivity.
  - apply sample_growth.
Defined.

(** ** Following the cursor *)

(** What the pagination loop has fetched and asked extends what was there
    before. *)
Lemma fetch_pages_extends w n p (st : loop_state Ipos.params) :
  ∃ more new,
    acc (Ipos.fetch_pages w n p st).1 = acc st ++ more ∧
    calls (Ipos.fetch_pages w n p st).1 = calls st ++ new ∧
    (n ≠ O → ∃ rest, new = p :: rest).
Proof.
  revert p st. induction n as [|n IH]; intros p st; cbn [Ipos.fetch_pages].
  - exists [], []. cbn. by rewrite !app_nil_r.
  - assert (∃ more new,
              acc st = acc st ++ more ∧ calls st ++ [p] = calls st ++ new ∧
              (S n ≠ O → ∃ rest, new = p :: rest)) as Hstop.
    { exists [], [p]. rewrite app_nil_r. split; [done|]. split; [done|].
      intros _. by exists []. }
    unfold bind, call, lift. cbn -[for_each].
    destruct (Ipos.get_ipos w p) as [[[[[|ipo l]|] next]|]|e]; cbn -[for_each];
      try exact Hstop.
    rewrite for_each_append. cbn.
    assert (∃ more new,
              acc st ++ ipo :: l = acc st ++ more ∧
              calls st ++ [p] = calls st ++ new ∧
              (S n ≠ O → ∃ rest, new = p :: rest)) as Hpage.
    { exists (ipo :: l), [p]. split; [done|]. split; [done|].
      intros _. by exists []. }
    destruct next as [url|]; [|exact Hpage].
    destruct (decide (url = EmptyString)); [exact Hpage|].
    destruct (Ipos.cursor_of url) as [c|]; [|exact Hpage].
    set (p' := if decide (c = EmptyString) then p else Ipos.with_cursor p c).
    set (st1 := {| acc := acc st ++ ipo :: l; printed := _;
                   calls := calls st ++ [p] |}).
    destruct (IH p' st1) as (more & new & -> & -> & _).
    exists ((ipo :: l) ++ more), (p :: new). cbn.
    rewrite <- !app_assoc. split; [done|]. split; [done|].
    intros _. by exists new.
Qed.

(** The loop follows the cursor: when the answer to a request holds
    records and a [next_url] with a cursor, and another page is allowed,
    the records are collected and the next request is the same request with
    that cursor. *)
Theorem ipo_pagination_follows_the_cursor w n p (st : loop_state Ipos.params)
    r rs url c :
  Ipos.get_ipos w p
  = Ok (Some {| Ipos.results := Some (r :: rs); Ipos.next_url := Some url |}) →
  Ipos.cursor_of url = Some c → c ≠ EmptyString →
  ∃ more rest,
    acc (Ipos.fetch_pages w (S (S n)) p st).1 = acc st ++ (r :: rs) ++ more ∧
    calls (Ipos.fetch_pages w (S (S n)) p st).1
    = calls st ++ p :: Ipos.with_cursor p c :: rest.
Proof.
  intros Hg Hc Hne.
  assert (url ≠ EmptyString) as Hurl by (intros ->; discriminate Hc).
  change (Ipos.fetch_pages w (S (S n)) p st)
    with (bind (call p) (λ _, bind (lift (Ipos.get_ipos w p)) (λ response,
            match response with
            | Some {| Ipos.results := Some (ipo :: l); Ipos.next_url := next_url |} =>
                bind (for_each (ipo :: l) append) (λ _,
                match next_url with
                | Some url =>
                    if decide (url = EmptyString) then ret tt
                    else
                      match Ipos.cursor_of url with
                      | Some pagination_cursor =>
                          Ipos.fetch_pages w (S n)
                            (if decide (pagination_cursor = EmptyString) then p
                             else Ipos.with_cursor p pagination_cursor)
                      | None => ret tt
                      end
                | None => ret tt
                end)
            | _ => ret tt
            end)) st).
  unfold bind, call, lift. cbn -[for_each Ipos.fetch_pages]. rewrite Hg.
  cbn -[for_each Ipos.fetch_pages]. rewrite for_each_append.
  cbn -[Ipos.fetch_pages].
  rewrite decide_False by done. rewrite Hc. rewrite decide_False by done.
  set (st1 := {| acc := acc st ++ r :: rs; printed := _;
                 calls := calls st ++ [p] |}).
  destruct (fetch_pages_extends w (S n) (Ipos.with_cursor p c) st1)
    as (more & new & -> & -> & Hfirst).
  destruct (Hfirst ltac:(done)) as [rest ->].
  exists more, rest. cbn. by rewrite <- !app_assoc.
Qed.

Lemma ipo_pagination_follows_the_cursor_witness :
  ∃ more rest,
    acc (Ipos.fetch_pages Examples.paged 2 Examples.first_request start).1
    = acc (start (Q:=Ipos.params)) ++ [Examples.filed] ++ more ∧
    calls (Ipos.fetch_pages Examples.paged 2 Examples.first_request start).1
    = calls (start (Q:=Ipos.params))
      ++ Examples.first_request
         :: Ipos.with_cursor Examples.first_request "YXA9MQ" :: rest.
Proof.
  apply (ipo_pagination_follows_the_cursor Examples.paged 0
           Examples.first_request start Examples.filed []
           Examples.next_page_url "YXA9MQ").
  - reflexivity.
  - vm_compute. reflexivity.
  - discriminate.
Defined.
